(** * The MySQL database-access engine (lib/srv/db/mysql, [Engine])

    A shallow embedding of [Engine.HandleConnection], [checkAccess],
    [connect], [receiveFromClient], [receiveFromServer] and
    [makeAcquireSemaphoreConfig].

    An [Engine] method is a function of the collaborators it calls (the
    [Engine] struct's capability fields and the [World] outside it) that
    returns the sequence of observable calls it makes, in order, together
    with its Go return value.  A Go [error] that may be [nil] is an
    [option error]; a [(T, error)] pair is a [result T].

    After the engine come the Kerberos authenticator of the SQL Server
    engine (module [sqlserver]), the switch writer and break reader of
    lib/srv/switch.go (module [switch]) and the reviewer assignments of
    the review robot (module [review]). *)

From Stdlib Require Import ZArith List String Ascii Bool Arith Lia.
Import ListNotations.
Local Open Scope string_scope.
Local Open Scope list_scope.

(** ** Go values *)

Definition bytes := list Byte.byte.

(** [time.Time] and [time.Duration], both counted in nanoseconds. *)
Module time.
Definition Time := Z.
Definition Duration := Z.
Definition Nanosecond : Duration := 1%Z.
Definition Second : Duration := (1000000000 * Nanosecond)%Z.
Definition Minute : Duration := (60 * Second)%Z.
(** [t.Add(d)] *)
Definition Add (t : Time) (d : Duration) : Time := (t + d)%Z.
(** [t.Before(u)] *)
Definition Before (t u : Time) : bool := (t <? u)%Z.
End time.

(** ** Errors: github.com/gravitational/trace

    The error values the engine tells apart.  [TraceErr] is the wrapper
    [trace.Wrap] builds; the predicates look through it. *)
Module trace.

Inductive error : Type :=
| AccessDeniedError (Message : string)
| LimitExceededError (Message : string)
| PlainError (Message : string)
| TraceErr (Err : error).

(** [trace.Unwrap]: the original error under the wrappers. *)
Fixpoint Unwrap (err : error) : error :=
  match err with
  | TraceErr e => Unwrap e
  | _ => err
  end.

(** [trace.Wrap]: an error that is already a trace error is returned
    as it is, any other one is put in a [TraceErr]. *)
Definition Wrap (err : error) : error :=
  match err with
  | TraceErr _ => err
  | _ => TraceErr err
  end.

Definition AccessDenied (message : string) : error :=
  TraceErr (AccessDeniedError message).

Definition LimitExceeded (message : string) : error :=
  TraceErr (LimitExceededError message).

Definition IsAccessDenied (err : error) : bool :=
  match Unwrap err with
  | AccessDeniedError _ => true
  | _ => false
  end.

Definition IsLimitExceeded (err : error) : bool :=
  match Unwrap err with
  | LimitExceededError _ => true
  | _ => false
  end.

(** [err.Error()] *)
Fixpoint Error (err : error) : string :=
  match err with
  | AccessDeniedError m | LimitExceededError m | PlainError m => m
  | TraceErr e => Error e
  end.

End trace.

Abbreviation error := trace.error.

(** A Go [(T, error)] return. *)
Inductive result (T : Type) : Type :=
| Ok (v : T)
| Err (err : error).
Arguments Ok {T} v.
Arguments Err {T} err.

(** ** Host and port: Go's net.SplitHostPort and net.JoinHostPort *)
Module net.

(** [bytealg.IndexByteString]: the first index of [c] in [s]. *)
Fixpoint IndexByteString (s : string) (c : ascii) : option nat :=
  match s with
  | EmptyString => None
  | String a rest =>
      if Ascii.eqb a c then Some 0
      else option_map S (IndexByteString rest c)
  end.

(** [last]: the last index of [c] in [s]. *)
Fixpoint last (s : string) (c : ascii) : option nat :=
  match s with
  | EmptyString => None
  | String a rest =>
      match last rest c with
      | Some i => Some (S i)
      | None => if Ascii.eqb a c then Some 0 else None
      end
  end.

(** [s[i:]] and [s[i:j]] *)
Definition from (i : nat) (s : string) : string :=
  substring i (String.length s - i) s.
Definition slice (i j : nat) (s : string) : string :=
  substring i (j - i) s.

Definition AddrError (why addr : string) : error :=
  trace.PlainError
    (if String.eqb addr EmptyString then why
     else ("address " ++ addr ++ ": " ++ why)%string).

Definition missingPort : string := "missing port in address".
Definition tooManyColons : string := "too many colons in address".

Definition SplitHostPort (hostport : string) : result (string * string) :=
  let addrErr (addr why : string) : result (string * string) :=
    Err (AddrError why addr) in
  (* The port starts after the last colon. *)
  match last hostport ":" with
  | None => addrErr hostport missingPort
  | Some i =>
      let bracketed :=
        match String.get 0 hostport with
        | Some c => Ascii.eqb c "["
        | None => false
        end in
      let parsed : result (string * nat * nat) :=
        if bracketed then
          (* Expect the first ']' just before the last ':'. *)
          match IndexByteString hostport "]" with
          | None => Err (AddrError "missing ']' in address" hostport)
          | Some end_ =>
              if Nat.eqb (end_ + 1) (String.length hostport) then
                Err (AddrError missingPort hostport)
              else if Nat.eqb (end_ + 1) i then
                Ok (slice 1 end_ hostport, 1, end_ + 1)
              else
                match String.get (end_ + 1) hostport with
                | Some c =>
                    if Ascii.eqb c ":" then Err (AddrError tooManyColons hostport)
                    else Err (AddrError missingPort hostport)
                | None => Err (AddrError missingPort hostport)
                end
          end
        else
          let host := slice 0 i hostport in
          match IndexByteString host ":" with
          | Some _ => Err (AddrError tooManyColons hostport)
          | None => Ok (host, 0, 0)
          end in
      match parsed with
      | Err e => Err e
      | Ok (host, j, k) =>
          match IndexByteString (from j hostport) "[" with
          | Some _ => addrErr hostport "unexpected '[' in address"
          | None =>
              match IndexByteString (from k hostport) "]" with
              | Some _ => addrErr hostport "unexpected ']' in address"
              | None => Ok (host, from (i + 1) hostport)
              end
          end
      end
  end.

Definition JoinHostPort (host port : string) : string :=
  (* A host with a colon is taken for a literal IPv6 address. *)
  match IndexByteString host ":" with
  | Some _ => ("[" ++ host ++ "]:" ++ port)%string
  | None => (host ++ ":" ++ port)%string
  end.

End net.

(** ** context.Context: the deadline is all the engine's calls depend on. *)
Module context.

Record Context : Type := { Deadline : option time.Time }.

(** [context.WithTimeout(parent, timeout)] at wall-clock time [now]:
    the child's deadline is [now + timeout] unless the parent's is
    earlier. *)
Definition WithTimeout (now : time.Time) (parent : Context)
    (timeout : time.Duration) : Context :=
  let d := time.Add now timeout in
  match Deadline parent with
  | Some cur => if time.Before cur d then parent else {| Deadline := Some d |}
  | None => {| Deadline := Some d |}
  end.

End context.

Abbreviation Context := context.Context.


(** ** Sessions and databases *)

(** [types.DatabaseTLSMode] *)
Inductive DatabaseTLSMode : Type :=
| DatabaseTLSMode_VERIFY_FULL
| DatabaseTLSMode_INSECURE
| DatabaseTLSMode_VERIFY_CA.

Definition DatabaseTLSMode_eqb (a b : DatabaseTLSMode) : bool :=
  match a, b with
  | DatabaseTLSMode_VERIFY_FULL, DatabaseTLSMode_VERIFY_FULL
  | DatabaseTLSMode_INSECURE, DatabaseTLSMode_INSECURE
  | DatabaseTLSMode_VERIFY_CA, DatabaseTLSMode_VERIFY_CA => true
  | _, _ => false
  end.

Record DatabaseTLS : Type := { Mode : DatabaseTLSMode }.

Record Azure : Type := { Name : string }.

(** Modelled from the spec: [types.Database] is an interface declared
    outside these sources (the spec's target backend descriptor: kind,
    network address, TLS mode, IAM policy reference).  A database is the
    record of what the methods the engine calls on it return; the three
    kind tests are kept apart because [connect] asks them one after the
    other. *)
Record Database : Type := {
  GetName : string;
  GetURI : string;
  IsRDS : bool;
  IsCloudSQL : bool;
  IsAzure : bool;
  GetTLS : DatabaseTLS;
  GetAzure : Azure;
  GetIAMPolicy : string
}.

(** [tlsca.Identity]: the one field [checkAccess] reads. *)
Record Identity : Type := { MFAVerified : string }.

(** [services.AccessMFAParams] *)
Record AccessMFAParams : Type := {
  Verified : bool;
  AlwaysRequired : bool
}.

(** The value of [role.DatabaseRoleMatchers(protocol, user, database)]. *)
Record RoleMatchers : Type := DatabaseRoleMatchers {
  matchProtocol : string;
  matchUser : string;
  matchDatabase : string
}.

(** [services.AccessChecker]: [CheckAccess] returns [nil] or the denial. *)
Record AccessChecker : Type := {
  CheckAccess : Database -> AccessMFAParams -> RoleMatchers -> option error
}.

(** [common.Session] *)
Record Session : Type := {
  identity : Identity;
  DatabaseUser : string;
  DatabaseName : string;
  database : Database;
  Checker : AccessChecker
}.

(** [types.AuthPreference] *)
Record AuthPreference : Type := { GetRequireSessionMFA : bool }.

(** [tls.Config] and [tls.Conn] *)
Record TLSConfig : Type := { ServerName : string }.
Record TLSConn : Type := { tlsNetwork : string; tlsAddr : string; tlsConfigOf : TLSConfig }.

(** [types.SemaphoreLease] *)
Record SemaphoreLease : Type := {
  LeaseKind : string;
  LeaseName : string;
  LeaseID : string;
  LeaseExpires : time.Time
}.

(** [clockwork.Clock] *)
Record Clock : Type := { Now : time.Time }.

(** [common.Auth]: the credential provider. *)
Record Auth : Type := {
  GetAuthPreference : Context -> result AuthPreference;
  GetTLSConfig : Context -> Session -> result TLSConfig;
  GetRDSAuthToken : Session -> result string;
  GetCloudSQLPassword : Context -> Session -> result string;
  GetAzureAccessToken : Context -> Session -> result string
}.

(** [*auth.Client], as far as the engine calls it itself. *)
Record AuthClient : Type := {
  CancelSemaphoreLease : Context -> SemaphoreLease -> option error
}.

(** [types.AcquireSemaphoreRequest] *)
Record AcquireSemaphoreRequest : Type := {
  SemaphoreKind : string;
  SemaphoreName : string;
  MaxLeases : Z;
  Expires : time.Time
}.

(** [utils.LinearConfig] *)
Record LinearConfig : Type := {
  Step : time.Duration;
  Max : time.Duration;
  RetryClock : Clock
}.

(** [services.AcquireSemaphoreWithRetryConfig] *)
Record AcquireSemaphoreWithRetryConfig : Type := {
  Service : AuthClient;
  Request : AcquireSemaphoreRequest;
  Retry : LinearConfig
}.

(** ** Connections *)

(** [packet.Conn]: the socket under a MySQL connection, either the one
    the client library dialed itself ([packet.NewConn]) or a TLS
    connection handed to it ([packet.NewTLSConn]). *)
Inductive PacketConn : Type :=
| packet_NewConn (addr : string)
| packet_NewTLSConn (tlsconn : TLSConn).

(** [client.Conn] of go-mysql: the embedded [packet.Conn] and the TLS
    configuration [SetTLSConfig] stores. *)
Record ClientConn : Type := {
  Conn : PacketConn;
  tlsConfig : option TLSConfig
}.

(** The two closures [connect] passes to [client.Connect] as [clientOpt],
    each with the variable it captures. *)
Inductive ClientOption : Type :=
| setTLSConfigOpt (tlsConfig : TLSConfig)
| overrideConnOpt (tlsconn : TLSConn).

(** Modelled from the spec: the [protocol] package (ParsePacket, the
    packet types and their [Bytes] method) is outside these sources.  The
    spec's Protocol Packet is a tagged variant over statement-execution,
    re-authentication and termination requests and everything else; each
    unit carries the bytes it was decoded from, which [Bytes] returns. *)
Inductive Packet : Type :=
| Query (raw : bytes) (query : string)
| ChangeUser (raw : bytes) (user : string)
| Quit (raw : bytes)
| Generic (raw : bytes).

Definition Bytes (p : Packet) : bytes :=
  match p with
  | Query raw _ | ChangeUser raw _ | Quit raw | Generic raw => raw
  end.

(** ** Observable calls *)

Inductive Level : Type := DebugLevel | WarnLevel | ErrorLevel.

(** The two ends a relay task writes to, and the two completion channels. *)
Inductive Peer : Type := serverConn | clientConn.
Inductive Chan : Type := clientErrCh | serverErrCh.

(** The case of [HandleConnection]'s [select] that fires. *)
Inductive SelectCase : Type :=
| ClientDone
| ServerDone
| ContextDone.

(** One constructor per call the engine makes on a collaborator, with
    the arguments that tell calls apart.  A log entry carries its level,
    its message as written in the source (format verbs are not filled
    in) and the error attached with [WithError]. *)
Inductive Event : Type :=
| EvGetAuthPreference (ctx : Context)
| EvCheckAccess (db : Database) (mfa : AccessMFAParams) (matchers : RoleMatchers)
| EvOnSessionStart (ctx : Context) (sessionCtx : Session) (err : option error)
| EvOnSessionEnd (ctx : Context) (sessionCtx : Session)
| EvOnQuery (ctx : Context) (sessionCtx : Session) (query : string)
| EvGetTLSConfig (ctx : Context)
| EvGetRDSAuthToken
| EvGetCloudSQLPassword (ctx : Context)
| EvGetAzureAccessToken (ctx : Context)
| EvAcquireSemaphoreWithRetry (ctx : Context) (cfg : AcquireSemaphoreWithRetryConfig)
| EvCancelSemaphoreLease (ctx : Context) (lease : SemaphoreLease)
| EvCancel (ctx : Context)
| EvTLSDial (network addr : string) (config : TLSConfig)
| EvClientConnect (addr user password dbName : string) (opt : ClientOption)
| EvNetDial (addr : string)
| EvPacketConnClose (c : PacketConn)
| EvHandshake (c : ClientConn) (user password dbName : string)
| EvWriteOK
| EvServerConnClose (c : ClientConn)
| EvGo (task : Chan)
| EvWritePacket (dst : Peer) (data : bytes)
| EvSend (ch : Chan) (err : error)
| EvClose (ch : Chan)
| EvLog (level : Level) (message : string) (err : option error).

(** ** The collaborators

    [Engine] is the struct's fields.  [World] is everything else a
    session meets: the constants and helpers of packages outside these
    sources, the wall clock, the network, the two peers' traffic and the
    scheduler's choice at the [select]. *)
Record ProxyConn : Type := { WriteOK : option error }.

Record Engine : Type := {
  e_Auth : Auth;
  e_AuthClient : AuthClient;
  e_Context : Context;
  e_Clock : Clock;
  proxyConn : ProxyConn
}.

Record World : Type := {
  (* lib/defaults *)
  defaults_DatabaseConnectTimeout : time.Duration;
  defaults_ProtocolMySQL : string;
  (* lib/srv/db/common, lib/utils *)
  common_ConvertError : error -> error;
  utils_IsOKNetworkError : error -> bool;
  (* fmt's %q verb on a string *)
  strconv_Quote : string -> string;
  (* time.Now() when the retry context is made *)
  time_Now : time.Time;
  services_AcquireSemaphoreWithRetry :
    Context -> AcquireSemaphoreWithRetryConfig -> result SemaphoreLease;
  tls_Dial : string -> string -> TLSConfig -> option error;
  net_DialTimeout : string -> option error;
  Conn_handshake : ClientConn -> string -> string -> string -> option error;
  Conn_Close : ClientConn -> option error;
  (* what protocol.ParsePacket(clientConn) returns, call after call *)
  fromClient : list (result Packet);
  (* what protocol.ReadPacket(serverConn) returns, call after call *)
  fromServer : list (result bytes);
  (* whether the n-th protocol.WritePacket to a peer fails *)
  WritePacket : Peer -> nat -> bytes -> option error;
  selected : SelectCase
}.

(** [io.EOF]: what a read returns once the peer's traffic is over. *)
Definition io_EOF : error := trace.PlainError "EOF".

(** ** Runs: the calls made, in order, and the value returned *)

Definition Run (A : Type) : Type := (list Event * A)%type.

Definition ret {A : Type} (a : A) : Run A := ([], a).

Definition bind {A B : Type} (m : Run A) (k : A -> Run B) : Run B :=
  let '(calls, a) := m in
  let '(calls', b) := k a in
  (calls ++ calls', b).

Declare Scope run_scope.
Delimit Scope run_scope with run.
Notation "x <- m ;; k" := (bind m (fun x => k))
  (at level 61, m at next level, right associativity) : run_scope.
Notation "m ;; k" := (bind m (fun _ => k))
  (at level 61, right associativity) : run_scope.
Local Open Scope run_scope.

(** A call that is observed and returns nothing. *)
Definition emit (ev : Event) : Run unit := ([ev], tt).

(** A call that is observed and returns [r]. *)
Definition call {A : Type} (ev : Event) (r : A) : Run A := ([ev], r).

(** Go's [defer cleanup] in front of [rest], the remainder of the
    function body: [cleanup] runs when [rest] returns, whatever it
    returns. *)
Definition defer {A : Type} (cleanup : Run unit) (rest : Run A) : Run A :=
  r <- rest ;; cleanup ;; ret r.

Definition events {A : Type} (m : Run A) : list Event := fst m.
Definition returned {A : Type} (m : Run A) : A := snd m.

Definition Chan_eqb (a b : Chan) : bool :=
  match a, b with
  | clientErrCh, clientErrCh | serverErrCh, serverErrCh => true
  | _, _ => false
  end.

(** What a receive from [ch] yields once the task whose calls are [tr]
    is over: the error it sent, or [nil] from the closed channel. *)
Fixpoint received (ch : Chan) (tr : list Event) : option error :=
  match tr with
  | [] => None
  | EvSend c err :: tr' => if Chan_eqb c ch then Some err else received ch tr'
  | _ :: tr' => received ch tr'
  end.

Definition dquote : string := String "034"%char EmptyString.
Definition newline : string := String "010"%char EmptyString.

(** ** The engine's methods *)

Section EngineMethods.

Variable w : World.
Variable e : Engine.

(** [conn.SetTLSConfig(tlsConfig)] *)
Definition SetTLSConfig (conn : ClientConn) (config : TLSConfig) : ClientConn :=
  {| Conn := Conn conn; tlsConfig := Some config |}.

(** Running a [clientOpt] closure on the client library's connection. *)
Definition runClientOption (opt : ClientOption) (conn : ClientConn)
    : Run ClientConn :=
  match opt with
  | setTLSConfigOpt config =>
      ret (SetTLSConfig conn config)
  | overrideConnOpt tlsconn =>
      (* close connection created by mysql client *)
      emit (EvPacketConnClose (Conn conn)) ;;
      ret {| Conn := packet_NewTLSConn tlsconn; tlsConfig := tlsConfig conn |}
  end.

(** go-mysql's [client.Connect]: dial [addr], run the option on the new
    connection, then do the MySQL handshake over whatever socket the
    connection holds by then. *)
Definition client_Connect (addr user password dbName : string)
    (opt : ClientOption) : Run (result ClientConn) :=
  emit (EvClientConnect addr user password dbName opt) ;;
  err <- call (EvNetDial addr) (net_DialTimeout w addr) ;;
  match err with
  | Some err => ret (Err err)
  | None =>
      c <- runClientOption opt {| Conn := packet_NewConn addr; tlsConfig := None |} ;;
      err <- call (EvHandshake c user password dbName)
                  (Conn_handshake w c user password dbName) ;;
      match err with
      | Some err => ret (Err err)
      | None => ret (Ok c)
      end
  end.

(** [checkAccess] does authorization check for MySQL connection about to
    be established. *)
Definition checkAccess (ctx : Context) (sessionCtx : Session)
    : Run (option error) :=
  r <- call (EvGetAuthPreference ctx) (GetAuthPreference (e_Auth e) ctx) ;;
  match r with
  | Err err => ret (Some (trace.Wrap err))
  | Ok ap =>
      let mfaParams :=
        {| Verified := negb (String.eqb (MFAVerified (identity sessionCtx)) EmptyString);
           AlwaysRequired := GetRequireSessionMFA ap |} in
      let dbRoleMatchers :=
        DatabaseRoleMatchers (defaults_ProtocolMySQL w)
          (DatabaseUser sessionCtx) (DatabaseName sessionCtx) in
      err <- call (EvCheckAccess (database sessionCtx) mfaParams dbRoleMatchers)
                  (CheckAccess (Checker sessionCtx)
                     (database sessionCtx) mfaParams dbRoleMatchers) ;;
      match err with
      | Some err =>
          emit (EvOnSessionStart (e_Context e) sessionCtx (Some err)) ;;
          ret (Some (trace.Wrap err))
      | None => ret None
      end
  end.

(** [makeAcquireSemaphoreConfig] builds parameters for acquiring a
    semaphore for connecting to a MySQL Cloud SQL instance for this
    session. *)
Definition makeAcquireSemaphoreConfig (sessionCtx : Session)
    : AcquireSemaphoreWithRetryConfig :=
  {| Service := e_AuthClient e;
     Request :=
       {| SemaphoreKind := "gcp-mysql-token";
          SemaphoreName :=
            (GetName (database sessionCtx) ++ "-" ++ DatabaseUser sessionCtx)%string;
          MaxLeases := 1;
          Expires := time.Add (Now (e_Clock e)) time.Minute |};
     Retry :=
       {| Step := time.Second;
          Max := time.Second;
          RetryClock := e_Clock e |} |}.

(** The message of the access-denied error [connect] returns for RDS. *)
Definition rdsAccessDeniedMessage (err : error) (sessionCtx : Session) : string :=
  ("Could not connect to database:" ++ newline ++ newline
   ++ "  " ++ trace.Error err ++ newline ++ newline
   ++ "Make sure that IAM auth is enabled for MySQL user "
   ++ strconv_Quote w (DatabaseUser sessionCtx)
   ++ " and Teleport database" ++ newline
   ++ "agent's IAM policy has " ++ dquote ++ "rds-connect" ++ dquote
   ++ " permissions (note that IAM changes may" ++ newline
   ++ "take a few minutes to propagate):" ++ newline ++ newline
   ++ GetIAMPolicy (database sessionCtx) ++ newline)%string.

(** The address the Cloud SQL side-channel TLS handshake dials. *)
Definition cloudSQLDialURI (uri : string) : Run string :=
  match net.SplitHostPort uri with
  | Ok (host, port) =>
      if String.eqb port "3306" then
        emit (EvLog DebugLevel "Overrided URI port from 3306 to 3307" None) ;;
        ret (net.JoinHostPort host "3307")
      else ret uri
  | Err _ => ret uri
  end.

(** [connect] establishes connection to MySQL database. *)
Definition connect (ctx : Context) (sessionCtx : Session)
    : Run (result ClientConn) :=
  let db := database sessionCtx in
  (* the statements after the switch, which every case falls out to *)
  let dial (user password : string) (clientOpt : ClientOption)
      : Run (result ClientConn) :=
    r <- client_Connect (GetURI db) user password (DatabaseName sessionCtx) clientOpt ;;
    match r with
    | Err err =>
        if trace.IsAccessDenied (common_ConvertError w err) && IsRDS db then
          ret (Err (trace.AccessDenied
                      (rdsAccessDeniedMessage (common_ConvertError w err) sessionCtx)))
        else ret (Err (trace.Wrap err))
    | Ok conn => ret (Ok conn)
    end in
  r <- call (EvGetTLSConfig ctx) (GetTLSConfig (e_Auth e) ctx sessionCtx) ;;
  match r with
  | Err err => ret (Err (trace.Wrap err))
  | Ok tlsConfig =>
      (* clientOpt sets tlsConfig in the mysql client. *)
      let clientOpt := setTLSConfigOpt tlsConfig in
      let user := DatabaseUser sessionCtx in
      if IsRDS db then
        r <- call EvGetRDSAuthToken (GetRDSAuthToken (e_Auth e) sessionCtx) ;;
        match r with
        | Err err => ret (Err (trace.Wrap err))
        | Ok password => dial user password clientOpt
        end
      else if IsCloudSQL db then
        let retryCtx :=
          context.WithTimeout (time_Now w) ctx (defaults_DatabaseConnectTimeout w) in
        defer (emit (EvCancel retryCtx)) (
          r <- call (EvAcquireSemaphoreWithRetry retryCtx
                       (makeAcquireSemaphoreConfig sessionCtx))
                    (services_AcquireSemaphoreWithRetry w retryCtx
                       (makeAcquireSemaphoreConfig sessionCtx)) ;;
          match r with
          | Err err => ret (Err (trace.Wrap err))
          | Ok lease =>
              (* Only release the semaphore after the connection has been
                 established below. *)
              defer (
                err <- call (EvCancelSemaphoreLease ctx lease)
                            (CancelSemaphoreLease (e_AuthClient e) ctx lease) ;;
                match err with
                | Some err =>
                    emit (EvLog ErrorLevel "Failed to cancel lease: %v." (Some err))
                | None => ret tt
                end) (
                r <- call (EvGetCloudSQLPassword ctx)
                          (GetCloudSQLPassword (e_Auth e) ctx sessionCtx) ;;
                match r with
                | Err err => ret (Err (trace.Wrap err))
                | Ok password =>
                    if negb (DatabaseTLSMode_eqb (Mode (GetTLS db))
                               DatabaseTLSMode_INSECURE) then
                      uri <- cloudSQLDialURI (GetURI db) ;;
                      err <- call (EvTLSDial "tcp" uri tlsConfig)
                                  (tls_Dial w "tcp" uri tlsConfig) ;;
                      match err with
                      | Some err => ret (Err (trace.Wrap err))
                      | None =>
                          let tlsconn :=
                            {| tlsNetwork := "tcp"; tlsAddr := uri;
                               tlsConfigOf := tlsConfig |} in
                          dial user password (overrideConnOpt tlsconn)
                      end
                    else dial user password clientOpt
                end)
          end)
      else if IsAzure db then
        r <- call (EvGetAzureAccessToken ctx)
                  (GetAzureAccessToken (e_Auth e) ctx sessionCtx) ;;
        match r with
        | Err err => ret (Err (trace.Wrap err))
        | Ok password =>
            (* Azure requires database login to be <user>@<server-name> *)
            dial (user ++ "@" ++ Name (GetAzure db))%string password clientOpt
        end
      else dial user EmptyString clientOpt
  end.

(** The body of [receiveFromClient]'s [for] loop, over what is left of
    the client's traffic, with [written] packets written to the server
    so far. *)
Fixpoint receiveFromClient_loop (sessionCtx : Session)
    (input : list (result Packet)) (written : nat) : Run unit :=
  let readFailed (err : error) : Run unit :=
    if utils_IsOKNetworkError w err then
      emit (EvLog DebugLevel "Client connection closed." None)
    else
      emit (EvLog ErrorLevel "Failed to read client packet." (Some err)) ;;
      emit (EvSend clientErrCh err) in
  match input with
  | [] => readFailed io_EOF
  | Err err :: _ => readFailed err
  | Ok packet :: rest =>
      forward <-
        match packet with
        | Query _ query =>
            emit (EvOnQuery (e_Context e) sessionCtx query) ;; ret true
        | ChangeUser _ _ =>
            (* We do not want to allow changing the connection user *)
            emit (EvLog WarnLevel
                    "Rejecting attempt to change user to %q for session %v." None) ;;
            ret false
        | Quit _ => ret false
        | Generic _ => ret true
        end ;;
      if forward : bool then
        err <- call (EvWritePacket serverConn (Bytes packet))
                    (WritePacket w serverConn written (Bytes packet)) ;;
        match err with
        | Some err =>
            emit (EvLog ErrorLevel "Failed to write server packet." (Some err)) ;;
            emit (EvSend clientErrCh err)
        | None => receiveFromClient_loop sessionCtx rest (S written)
        end
      else ret tt
  end.

(** [receiveFromClient] relays protocol messages received from MySQL
    client to MySQL database. *)
Definition receiveFromClient (sessionCtx : Session) : Run unit :=
  defer (emit (EvLog DebugLevel "Stop receiving from client." None) ;;
         emit (EvClose clientErrCh))
        (receiveFromClient_loop sessionCtx (fromClient w) 0).

(** The body of [receiveFromServer]'s [for] loop. *)
Fixpoint receiveFromServer_loop (input : list (result bytes)) (written : nat)
    : Run unit :=
  let readFailed (err : error) : Run unit :=
    if utils_IsOKNetworkError w err then
      emit (EvLog DebugLevel "Server connection closed." None)
    else
      emit (EvLog ErrorLevel "Failed to read server packet." (Some err)) ;;
      emit (EvSend serverErrCh err) in
  match input with
  | [] => readFailed io_EOF
  | Err err :: _ => readFailed err
  | Ok packet :: rest =>
      err <- call (EvWritePacket clientConn packet)
                  (WritePacket w clientConn written packet) ;;
      match err with
      | Some err =>
          emit (EvLog ErrorLevel "Failed to write client packet." (Some err)) ;;
          emit (EvSend serverErrCh err)
      | None => receiveFromServer_loop rest (S written)
      end
  end.

(** [receiveFromServer] relays protocol messages received from MySQL
    database to MySQL client. *)
Definition receiveFromServer : Run unit :=
  defer (emit (EvLog DebugLevel "Stop receiving from server." None) ;;
         emit (EvClose serverErrCh))
        (receiveFromServer_loop (fromServer w) 0).

(** [HandleConnection] processes the connection from MySQL proxy coming
    over reverse tunnel.  The two relay tasks run on their own; the
    orchestrator's run records that it started them and which [select]
    case fired, with the value that case receives. *)
Definition HandleConnection (ctx : Context) (sessionCtx : Session)
    : Run (option error) :=
  (* Perform authorization checks. *)
  err <- checkAccess ctx sessionCtx ;;
  match err with
  | Some err => ret (Some (trace.Wrap err))
  | None =>
      (* Establish connection to the MySQL server. *)
      r <- connect ctx sessionCtx ;;
      match r with
      | Err err =>
          if trace.IsLimitExceeded err then
            ret (Some (trace.LimitExceeded
                         "could not connect to the database, please try again later"))
          else ret (Some (trace.Wrap err))
      | Ok server =>
          defer (
            err <- call (EvServerConnClose server) (Conn_Close w server) ;;
            match err with
            | Some err =>
                emit (EvLog ErrorLevel
                        "Failed to close connection to MySQL server." (Some err))
            | None => ret tt
            end) (
            (* Send back OK packet to indicate auth/connect success. *)
            err <- call EvWriteOK (WriteOK (proxyConn e)) ;;
            match err with
            | Some err => ret (Some (trace.Wrap err))
            | None =>
                emit (EvOnSessionStart (e_Context e) sessionCtx None) ;;
                defer (emit (EvOnSessionEnd (e_Context e) sessionCtx)) (
                  (* Copy between the connections. *)
                  emit (EvGo clientErrCh) ;;
                  emit (EvGo serverErrCh) ;;
                  match selected w with
                  | ClientDone =>
                      emit (EvLog DebugLevel "Client done."
                              (received clientErrCh
                                 (events (receiveFromClient sessionCtx))))
                  | ServerDone =>
                      emit (EvLog DebugLevel "Server done."
                              (received serverErrCh (events receiveFromServer)))
                  | ContextDone =>
                      emit (EvLog DebugLevel "Context canceled." None)
                  end ;;
                  ret None)
            end)
      end
  end.

End EngineMethods.

(** ** Reading a run *)

(** The errors [OnSessionStart] was called with, call after call. *)
Fixpoint sessionStarts (tr : list Event) : list (option error) :=
  match tr with
  | [] => []
  | EvOnSessionStart _ _ err :: tr' => err :: sessionStarts tr'
  | _ :: tr' => sessionStarts tr'
  end.

(** The byte strings handed to [protocol.WritePacket] for [dst]. *)
Fixpoint writesTo (dst : Peer) (tr : list Event) : list bytes :=
  match tr with
  | [] => []
  | EvWritePacket serverConn data :: tr' =>
      match dst with
      | serverConn => data :: writesTo dst tr'
      | clientConn => writesTo dst tr'
      end
  | EvWritePacket clientConn data :: tr' =>
      match dst with
      | clientConn => data :: writesTo dst tr'
      | serverConn => writesTo dst tr'
      end
  | _ :: tr' => writesTo dst tr'
  end.

(** The addresses [tls.Dial] was called with. *)
Fixpoint tlsDials (tr : list Event) : list string :=
  match tr with
  | [] => []
  | EvTLSDial _ addr _ :: tr' => addr :: tlsDials tr'
  | _ :: tr' => tlsDials tr'
  end.

(** The arguments [client.Connect] was called with. *)
Fixpoint clientConnects (tr : list Event)
    : list (string * string * string * string * ClientOption) :=
  match tr with
  | [] => []
  | EvClientConnect addr user password dbName opt :: tr' =>
      (addr, user, password, dbName, opt) :: clientConnects tr'
  | _ :: tr' => clientConnects tr'
  end.

(** The lease requests made, each with the context it is bounded by. *)
Fixpoint acquisitions (tr : list Event)
    : list (Context * AcquireSemaphoreWithRetryConfig) :=
  match tr with
  | [] => []
  | EvAcquireSemaphoreWithRetry ctx cfg :: tr' => (ctx, cfg) :: acquisitions tr'
  | _ :: tr' => acquisitions tr'
  end.

Definition isWriteOK (ev : Event) : bool :=
  match ev with EvWriteOK => true | _ => false end.

Definition isSessionEnd (ev : Event) : bool :=
  match ev with EvOnSessionEnd _ _ => true | _ => false end.

Definition isGo (ev : Event) : bool :=
  match ev with EvGo _ => true | _ => false end.

Definition isServerConnClose (ev : Event) : bool :=
  match ev with EvServerConnClose _ => true | _ => false end.

(** The calls only [connect] makes. *)
Definition isConnectCall (ev : Event) : bool :=
  match ev with
  | EvGetTLSConfig _ | EvGetRDSAuthToken | EvGetCloudSQLPassword _
  | EvGetAzureAccessToken _ | EvAcquireSemaphoreWithRetry _ _
  | EvCancelSemaphoreLease _ _ | EvCancel _ | EvTLSDial _ _ _
  | EvClientConnect _ _ _ _ _ | EvNetDial _ | EvPacketConnClose _
  | EvHandshake _ _ _ _ => true
  | _ => false
  end.

(** A unit the client relay passes on ([Query] after auditing it), as
    opposed to one that ends the task. *)
Definition passedOn (p : Packet) : bool :=
  match p with
  | Query _ _ | Generic _ => true
  | ChangeUser _ _ | Quit _ => false
  end.

(** The units decoded before the first failed read. *)
Fixpoint decoded (input : list (result Packet)) : list Packet :=
  match input with
  | Ok p :: rest => p :: decoded rest
  | _ => []
  end.

(** [relayed w pre n]: every read of [pre] decodes a unit that is passed
    on, and the writes that forward them, numbered from [n], succeed; so
    the loop gets past [pre]. *)
Fixpoint relayed (w : World) (pre : list (result Packet)) (n : nat) : bool :=
  match pre with
  | [] => true
  | Ok p :: rest =>
      passedOn p
      && match WritePacket w serverConn n (Bytes p) with
         | None => relayed w rest (S n)
         | Some _ => false
         end
  | Err _ :: _ => false
  end.

(** The calls the client relay makes for the units of [pre] when it
    gets past them. *)
Fixpoint relayCalls (e : Engine) (sessionCtx : Session) (pre : list Packet)
    : list Event :=
  match pre with
  | [] => []
  | Query raw query :: rest =>
      EvOnQuery (e_Context e) sessionCtx query
        :: EvWritePacket serverConn raw :: relayCalls e sessionCtx rest
  | p :: rest => EvWritePacket serverConn (Bytes p) :: relayCalls e sessionCtx rest
  end.

(** What is logged for the unit that ends the client relay. *)
Definition rejection (p : Packet) : list Event :=
  match p with
  | ChangeUser _ _ =>
      [EvLog WarnLevel "Rejecting attempt to change user to %q for session %v." None]
  | _ => []
  end.

(** What is logged when closing the backend connection fails. *)
Definition closeFailure (w : World) (conn : ClientConn) : list Event :=
  match Conn_Close w conn with
  | Some err =>
      [EvLog ErrorLevel "Failed to close connection to MySQL server." (Some err)]
  | None => []
  end.

(** What the orchestrator logs for the [select] case that fires. *)
Definition sessionOver (w : World) (e : Engine) (s : Session) : Event :=
  match selected w with
  | ClientDone =>
      EvLog DebugLevel "Client done."
        (received clientErrCh (events (receiveFromClient w e s)))
  | ServerDone =>
      EvLog DebugLevel "Server done."
        (received serverErrCh (events (receiveFromServer w)))
  | ContextDone => EvLog DebugLevel "Context canceled." None
  end.


(** ** Sample sessions *)
Module Sample.

Definition ctx : Context := {| context.Deadline := None |}.

Definition tlsConfig : TLSConfig := {| ServerName := "db.example.com" |}.

Definition lease : SemaphoreLease :=
  {| LeaseKind := "gcp-mysql-token"; LeaseName := "orders-alice";
     LeaseID := "lease-1"; LeaseExpires := 60000000000%Z |}.

Inductive Kind : Type := Generic_ | RDS | CloudSQL | AzureDB.

Definition db (kind : Kind) (uri : string) (mode : DatabaseTLSMode) : Database :=
  {| GetName := "orders";
     GetURI := uri;
     IsRDS := match kind with RDS => true | _ => false end;
     IsCloudSQL := match kind with CloudSQL => true | _ => false end;
     IsAzure := match kind with AzureDB => true | _ => false end;
     GetTLS := {| Mode := mode |};
     GetAzure := {| Name := "my-server" |};
     GetIAMPolicy := "{rds-db:connect}" |}.

Definition session (d : Database) (verdict : option error) : Session :=
  {| identity := {| MFAVerified := "mfa-device" |};
     DatabaseUser := "alice";
     DatabaseName := "sales";
     database := d;
     Checker := {| CheckAccess := fun _ _ _ => verdict |} |}.

Definition engine (writeOK : option error) : Engine :=
  {| e_Auth :=
       {| GetAuthPreference := fun _ => Ok {| GetRequireSessionMFA := false |};
          GetTLSConfig := fun _ _ => Ok tlsConfig;
          GetRDSAuthToken := fun _ => Ok "rds-token";
          GetCloudSQLPassword := fun _ _ => Ok "one-time-password";
          GetAzureAccessToken := fun _ _ => Ok "azure-token" |};
     e_AuthClient := {| CancelSemaphoreLease := fun _ _ => None |};
     e_Context := ctx;
     e_Clock := {| Now := 5000000000%Z |};
     proxyConn := {| WriteOK := writeOK |} |}.

Definition world (handshake : option error) (client : list (result Packet))
    (choice : SelectCase) : World :=
  {| defaults_DatabaseConnectTimeout := time.Minute;
     defaults_ProtocolMySQL := "mysql";
     common_ConvertError := fun err => err;
     utils_IsOKNetworkError :=
       fun err => String.eqb (trace.Error err) "EOF";
     strconv_Quote := fun s => (dquote ++ s ++ dquote)%string;
     time_Now := 7000000000%Z;
     services_AcquireSemaphoreWithRetry := fun _ _ => Ok lease;
     tls_Dial := fun _ _ _ => None;
     net_DialTimeout := fun _ => None;
     Conn_handshake := fun _ _ _ _ => handshake;
     Conn_Close := fun _ => None;
     fromClient := client;
     fromServer := [Ok [Byte.x07; Byte.x00]];
     WritePacket := fun _ _ _ => None;
     selected := choice |}.

Definition select1 : bytes := [Byte.x03; Byte.x53; Byte.x31].
Definition ping : bytes := [Byte.x0e].
Definition chuser : bytes := [Byte.x11; Byte.x62].
Definition quit : bytes := [Byte.x01].

End Sample.


(** ** More readings of a run *)

(** The values the successive reads of a connection return before the
    first read that fails. *)
Fixpoint readOk {A : Type} (input : list (result A)) : list A :=
  match input with
  | Ok a :: rest => a :: readOk rest
  | _ => []
  end.

(** The errors sent on completion channels, each with its channel. *)
Fixpoint sends (tr : list Event) : list (Chan * error) :=
  match tr with
  | [] => []
  | EvSend ch err :: tr' => (ch, err) :: sends tr'
  | _ :: tr' => sends tr'
  end.

(** The completion channels closed, close after close. *)
Fixpoint closes (tr : list Event) : list Chan :=
  match tr with
  | [] => []
  | EvClose ch :: tr' => ch :: closes tr'
  | _ :: tr' => closes tr'
  end.

(** The leases handed to [CancelSemaphoreLease]. *)
Fixpoint leaseCancels (tr : list Event) : list SemaphoreLease :=
  match tr with
  | [] => []
  | EvCancelSemaphoreLease _ lease :: tr' => lease :: leaseCancels tr'
  | _ :: tr' => leaseCancels tr'
  end.


(** [relayedBack w pre n]: every read of [pre] from the server succeeds
    and the writes that pass the packets to the client, numbered from
    [n], succeed; so the server relay gets past [pre]. *)
Fixpoint relayedBack (w : World) (pre : list (result bytes)) (n : nat) : bool :=
  match pre with
  | [] => true
  | Ok packet :: rest =>
      match WritePacket w clientConn n packet with
      | None => relayedBack w rest (S n)
      | Some _ => false
      end
  | Err _ :: _ => false
  end.

(** The calls the server relay makes for the packets it gets past. *)
Definition relayBackCalls (packets : list bytes) : list Event :=
  map (EvWritePacket clientConn) packets.

(** What is logged, and sent on [ch], for a read that failed with
    [err]: nothing is sent for a connection that was closed. *)
Definition readFailure (w : World) (ch : Chan) (closed failed : string)
    (err : error) : list Event :=
  if utils_IsOKNetworkError w err then [EvLog DebugLevel closed None]
  else [EvLog ErrorLevel failed (Some err); EvSend ch err].

(** [sendsLast ch body]: the calls of [body] send nothing on a
    completion channel, or one error, on [ch], as the last call. *)
Definition sendsLast (ch : Chan) (body : list Event) : Prop :=
  sends body = []
  \/ exists (before : list Event) (err : error),
       body = before ++ [EvSend ch err] /\ sends before = [].

(** The error of the next read when it fails: the peer's traffic is
    over ([io.EOF]) or the read itself returns an error. *)
Definition failedRead {A : Type} (tail : list (result A)) : option error :=
  match tail with
  | [] => Some io_EOF
  | Err err :: _ => Some err
  | Ok _ :: _ => None
  end.

(** What is logged when releasing the lease fails. *)
Definition releaseFailure (e : Engine) (ctx : Context) (lease : SemaphoreLease)
    : list Event :=
  match CancelSemaphoreLease (e_AuthClient e) ctx lease with
  | Some err => [EvLog ErrorLevel "Failed to cancel lease: %v." (Some err)]
  | None => []
  end.

(** The session-end audits made. *)
Fixpoint sessionEnds (tr : list Event) : nat :=
  match tr with
  | [] => 0
  | EvOnSessionEnd _ _ :: tr' => S (sessionEnds tr')
  | _ :: tr' => sessionEnds tr'
  end.

(** The relay tasks started, by completion channel. *)
Fixpoint started (tr : list Event) : list Chan :=
  match tr with
  | [] => []
  | EvGo ch :: tr' => ch :: started tr'
  | _ :: tr' => started tr'
  end.

(** * lib/srv/switch.go: [SwitchWriter] and [BreakReader] *)
Module switch.

(** The switch writer with the [utils.TrackingWriter] under it.  The
    underlying writer is what it has been handed, write after write;
    what its [Write] returns is the environment's ([outcome], by the
    number of the write).  Every method holds the mutex for its whole
    body, so the methods run one at a time. *)
Record SwitchWriter : Type := {
  W : list bytes;
  buffer : bytes;
  on : bool
}.

Section Writer.

Variable outcome : nat -> bytes -> Z * option error.

(** [w.W.Write(p)] *)
Definition W_Write (w : SwitchWriter) (p : bytes)
    : SwitchWriter * (Z * option error) :=
  ({| W := W w ++ [p]; buffer := buffer w; on := on w |},
   outcome (List.length (W w)) p).

(** [NewSwitchWriter] creates a new SwitchWriter from an underlying
    tracking writer. *)
Definition NewSwitchWriter (underlying : list bytes) : SwitchWriter :=
  {| W := underlying; buffer := []; on := true |}.

(** [On] allows data to flow through the writer. *)
Definition On (w : SwitchWriter) : SwitchWriter * option error :=
  let w := {| W := W w; buffer := buffer w; on := true |} in
  let '(w, (_, err)) := W_Write w (buffer w) in
  (w, option_map trace.Wrap err).

(** [Off] buffers incoming writes until the writer is turned on again. *)
Definition Off (w : SwitchWriter) : SwitchWriter :=
  {| W := W w; buffer := buffer w; on := false |}.

(** [Write] *)
Definition Write (w : SwitchWriter) (p : bytes)
    : SwitchWriter * (Z * option error) :=
  if on w then W_Write w p
  else
    ({| W := W w; buffer := buffer w ++ p; on := on w |},
     (Z.of_nat (List.length p), None)).

(** [WriteUnconditional] allows unconditional writes to the underlying
    writer. *)
Definition WriteUnconditional (w : SwitchWriter) (p : bytes)
    : SwitchWriter * (Z * option error) :=
  W_Write w p.

(** A use of the writer: one method call after the other. *)
Inductive Op : Type :=
| OpOn
| OpOff
| OpWrite (p : bytes)
| OpWriteUnconditional (p : bytes).

(** What a call returns. *)
Inductive Returned : Type :=
| RetOn (err : option error)
| RetOff
| RetWrite (n : Z) (err : option error).

Definition step (w : SwitchWriter) (op : Op) : SwitchWriter * Returned :=
  match op with
  | OpOn => let '(w, err) := On w in (w, RetOn err)
  | OpOff => (Off w, RetOff)
  | OpWrite p => let '(w, (n, err)) := Write w p in (w, RetWrite n err)
  | OpWriteUnconditional p =>
      let '(w, (n, err)) := WriteUnconditional w p in (w, RetWrite n err)
  end.

Fixpoint run (w : SwitchWriter) (ops : list Op) : SwitchWriter * list Returned :=
  match ops with
  | [] => (w, [])
  | op :: ops =>
      let '(w, r) := step w op in
      let '(w, rs) := run w ops in
      (w, r :: rs)
  end.

End Writer.

(** The payloads of the [Write] calls among [ops]. *)
Fixpoint writePayloads (ops : list Op) : list bytes :=
  match ops with
  | [] => []
  | OpWrite p :: ops => p :: writePayloads ops
  | _ :: ops => writePayloads ops
  end.

(** The payloads of the [WriteUnconditional] calls among [ops]. *)
Fixpoint unconditionalPayloads (ops : list Op) : list bytes :=
  match ops with
  | [] => []
  | OpWriteUnconditional p :: ops => p :: unconditionalPayloads ops
  | _ :: ops => unconditionalPayloads ops
  end.

Definition isOn (op : Op) : bool :=
  match op with OpOn => true | _ => false end.

(** What the calls that were [Write]s reported. *)
Fixpoint writeReports (ops : list Op) (rs : list Returned) : list (Z * option error) :=
  match ops, rs with
  | OpWrite _ :: ops, RetWrite n err :: rs => (n, err) :: writeReports ops rs
  | _ :: ops, _ :: rs => writeReports ops rs
  | _, _ => []
  end.

(** [BreakReader]: the bytes left over from the last chunk and the
    switch.  [Read] is given the length of the caller's buffer and the
    chunks the reading goroutine hands over on the [in] channel, in
    order; it returns the bytes copied into the caller's buffer.  A
    [Read] that finds nothing left over waits until the reader is on
    and a chunk arrives: with the reader off, or no chunk to come, it
    does not return ([None]). *)
Module reader.

Record BreakReader : Type := {
  remaining : bytes;
  on : bool
}.

(** [On] allows data to flow through the reader. *)
Definition On (r : BreakReader) : BreakReader :=
  {| remaining := remaining r; on := true |}.

(** [Off] restricts data from flowing through the reader. *)
Definition Off (r : BreakReader) : BreakReader :=
  {| remaining := remaining r; on := false |}.

(** [n := copy(p, r.remaining); r.remaining = r.remaining[n:]] *)
Definition copyOut (r : BreakReader) (size : nat) (data : bytes)
    : bytes * BreakReader :=
  (firstn size data, {| remaining := skipn size data; on := on r |}).

Definition Read (r : BreakReader) (size : nat) (incoming : list bytes)
    : option (bytes * BreakReader * list bytes) :=
  match remaining r with
  | _ :: _ =>
      let '(p, r) := copyOut r size (remaining r) in Some (p, r, incoming)
  | [] =>
      if on r then
        match incoming with
        | chunk :: incoming =>
            let '(p, r) := copyOut r size chunk in Some (p, r, incoming)
        | [] => None
        end
      else None
  end.

(** Successive [Read]s with buffers of the given sizes, as long as none
    waits: the bytes each returned, the reader and the chunks not yet
    handed over. *)
Fixpoint reads (r : BreakReader) (sizes : list nat) (incoming : list bytes)
    : list bytes * BreakReader * list bytes :=
  match sizes with
  | [] => ([], r, incoming)
  | size :: sizes =>
      match Read r size incoming with
      | Some (p, r, incoming) =>
          let '(ps, r, incoming) := reads r sizes incoming in
          (p :: ps, r, incoming)
      | None => ([], r, incoming)
      end
  end.

End reader.

End switch.

(** * .github/workflows/robot/internal/review/review.go *)
Module review.

(** A Go call that may panic. *)
Inductive Panics (A : Type) : Type :=
| Done (a : A)
| Panic (message : string).
Arguments Done {A} a.
Arguments Panic {A} message.

(** The one error this package makes: [trace.BadParameter], which
    [trace.Wrap] returns as it is. *)
Inductive error : Type :=
| BadParameter (message : string).

(** [Reviewer] is a code reviewer. *)
Record Reviewer : Type := {
  Team : string;
  Owner : bool;
  GithubUsername : string
}.

(** [github.Review]: the fields the checks read. *)
Record Review : Type := {
  Author : string;
  State : string
}.

(** [Config] holds code reviewer configuration.  A map of reviewers is
    only ever ranged over, its keys ignored: it is the list of its
    values in the order of the iteration, whichever that is.  An omit
    map is the list of its entries.  A nil map or slice is the empty
    list. *)
Record Config : Type := {
  CodeReviewers : list Reviewer;
  CodeReviewersOmit : list (string * bool);
  DocsReviewers : list Reviewer;
  DocsReviewersOmit : list (string * bool);
  Admins : list string
}.

(** [Assignments] can be used to assign and check code reviewers. *)
Record Assignments : Type := {
  c : Config;
  leaveRequests : list (string * bool)
}.

(** [math/rand]'s generator: [draw k n] is what the [k]-th call of
    [Intn] returns for the bound [n]. *)
Definition Rand : Type := nat -> nat -> nat.

(** [r.c.Rand.Intn(n)], the [k]-th call: it panics for [n <= 0]. *)
Definition Intn (draw : Rand) (k n : nat) : Panics nat :=
  if Nat.eqb n 0 then Panic "invalid argument to Intn" else Done (draw k n).

(** [s[i]] *)
Definition index (s : list string) (i : nat) : Panics string :=
  match nth_error s i with
  | Some v => Done v
  | None => Panic "index out of range"
  end.

(** [_, ok := m[key]] *)
Definition hasKey (m : list (string * bool)) (key : string) : bool :=
  existsb (fun entry => String.eqb (fst entry) key) m.

(** The set of reviews of a pull request, by reviewer:
    [review, ok := reviews[reviewer]]. *)
Definition Reviews : Type := string -> option Review.

(** [approved] is a code review where the reviewer has approved
    changes. *)
Definition approved : string := "APPROVED".
Definition changesRequested : string := "CHANGES_REQUESTED".

(** [%v] of a [[]string] *)
Definition fmtStrings (l : list string) : string :=
  ("[" ++ String.concat " " l ++ "]")%string.

(** [IsInternal] returns if the author of a PR is internal. *)
Definition IsInternal (r : Assignments) (author : string) : bool :=
  if existsb (fun reviewer => String.eqb (GithubUsername reviewer) author)
       (CodeReviewers (c r))
  then true
  else existsb (fun reviewer => String.eqb (GithubUsername reviewer) author)
         (DocsReviewers (c r)).

Fixpoint getAdminReviewers_loop (admins : list string) (author : string)
    (reviewers : list string) : list string :=
  match admins with
  | [] => reviewers
  | v :: admins =>
      if String.eqb v author then getAdminReviewers_loop admins author reviewers
      else getAdminReviewers_loop admins author (reviewers ++ [v])
  end.

Definition getAdminReviewers (r : Assignments) (author : string) : list string :=
  getAdminReviewers_loop (Admins (c r)) author [].

Fixpoint getReviewerSets_loop (author team : string) (reviewers : list Reviewer)
    (reviewersOmit : list (string * bool)) (setA setB : list string)
    : list string * list string :=
  match reviewers with
  | [] => (setA, setB)
  | v :: reviewers =>
      (* Only assign within a team. *)
      if negb (String.eqb (Team v) team) then
        getReviewerSets_loop author team reviewers reviewersOmit setA setB
      (* Skip over reviewers that are marked as omit. *)
      else if hasKey reviewersOmit (GithubUsername v) then
        getReviewerSets_loop author team reviewers reviewersOmit setA setB
      (* Skip author, can't assign/review own PR. *)
      else if String.eqb (GithubUsername v) author then
        getReviewerSets_loop author team reviewers reviewersOmit setA setB
      else if Owner v then
        getReviewerSets_loop author team reviewers reviewersOmit
          (setA ++ [GithubUsername v]) setB
      else
        getReviewerSets_loop author team reviewers reviewersOmit
          setA (setB ++ [GithubUsername v])
  end.

Definition getReviewerSets (author team : string) (reviewers : list Reviewer)
    (reviewersOmit leave : list (string * bool)) : list string * list string :=
  getReviewerSets_loop author team reviewers reviewersOmit [] [].

(** A reviewer [getReviewerSets] may put in a set: of the team, not
    a key of the omit map, not the author. *)
Definition eligible (author team : string) (reviewersOmit : list (string * bool))
    (v : Reviewer) : bool :=
  String.eqb (Team v) team
  && negb (hasKey reviewersOmit (GithubUsername v))
  && negb (String.eqb (GithubUsername v) author).

(** The first reviewer, in iteration order, with the author's name. *)
Definition findAuthor (reviewers : list Reviewer) (author : string)
    : option Reviewer :=
  find (fun reviewer => String.eqb (GithubUsername reviewer) author) reviewers.

Definition getCodeReviewerSets (r : Assignments) (author : string)
    : list string * list string :=
  let admins :=
    let reviewers := getAdminReviewers r author in
    let n := Nat.div (List.length reviewers) 2 in
    (firstn n reviewers, skipn n reviewers) in
  match findAuthor (CodeReviewers (c r)) author with
  | None => admins
  | Some githubAuthor =>
      if String.eqb (Team githubAuthor) "Internal" then admins
      else getReviewerSets author (Team githubAuthor) (CodeReviewers (c r))
             (CodeReviewersOmit (c r)) []
  end.

(** [getCodeReviewers], drawing with the [k]-th and the next call of
    [Intn]. *)
Definition getCodeReviewers (draw : Rand) (k : nat) (r : Assignments)
    (author : string) : Panics (list string) :=
  let '(setA, setB) := getCodeReviewerSets r author in
  match Intn draw k (List.length setA) with
  | Panic m => Panic m
  | Done i =>
      match index setA i with
      | Panic m => Panic m
      | Done a =>
          match Intn draw (S k) (List.length setB) with
          | Panic m => Panic m
          | Done j =>
              match index setB j with
              | Panic m => Panic m
              | Done b => Done [a; b]
              end
          end
      end
  end.

Definition getDocsReviewers (r : Assignments) (author : string) : list string :=
  let '(setA, setB) :=
    getReviewerSets author "Core" (DocsReviewers (c r)) (DocsReviewersOmit (c r)) [] in
  let reviewers := setA ++ setB in
  (* If no docs reviewers were assigned, assign admin reviews. *)
  match reviewers with
  | [] => getAdminReviewers r author
  | _ => reviewers
  end.

(** [Get] will return a list of code reviewers a given author: what it
    logs, and the reviewers. *)
Definition Get (draw : Rand) (r : Assignments) (author : string)
    (docs code : bool) : list string * Panics (list string) :=
  match docs, code with
  | true, true =>
      (["Assign: Found docs and code changes."],
       match getCodeReviewers draw 0 r author with
       | Panic m => Panic m
       | Done reviewers => Done (getDocsReviewers r author ++ reviewers)
       end)
  | false, true =>
      (["Assign: Found code changes."], getCodeReviewers draw 0 r author)
  | true, false =>
      (["Assign: Found docs changes."], Done (getDocsReviewers r author))
  (* Strange state, an empty commit? Return admin reviewers. *)
  | false, false =>
      (["Assign: Found no docs or code changes."],
       Done (getAdminReviewers r author))
  end.

Fixpoint checkN (reviewers : list string) (reviews : Reviews) : nat :=
  match reviewers with
  | [] => 0
  | reviewer :: reviewers =>
      match reviews reviewer with
      | Some review =>
          if String.eqb (State review) approved
             && String.eqb (Author review) reviewer
          then S (checkN reviewers reviews)
          else checkN reviewers reviews
      | None => checkN reviewers reviews
      end
  end.

Definition check (reviewers : list string) (reviews : Reviews) : bool :=
  Nat.ltb 0 (checkN reviewers reviews).


Definition checkDocsReviews (r : Assignments) (author : string)
    (reviews : Reviews) : option error :=
  let reviewers := getDocsReviewers r author in
  if check reviewers reviews then None
  else Some (BadParameter ("requires at least one approval from "
                           ++ fmtStrings reviewers)%string).

Definition checkCodeReviews (r : Assignments) (author : string)
    (reviews : Reviews) : option error :=
  (* External code reviews should never hit this path, if they do, fail
     and return an error. *)
  match findAuthor (CodeReviewers (c r)) author with
  | None => Some (BadParameter "rejecting checking external review")
  | Some rev =>
      (* Internal Teleport reviews get checked by same Core rules. *)
      let team := if String.eqb (Team rev) "Internal" then "Core" else Team rev in
      let '(setA, setB) :=
        getReviewerSets author team (CodeReviewers (c r))
          (CodeReviewersOmit (c r)) [] in
      if Nat.leb 2 (checkN setA reviews) then None
      else if check setA reviews && check setB reviews then None
      else Some (BadParameter
                   ("at least one approval required from each set "
                    ++ fmtStrings setA ++ " " ++ fmtStrings setB)%string)
  end.

(** [CheckInternal] will verify if required reviewers have approved. *)
Definition CheckInternal (r : Assignments) (author : string) (reviews : Reviews)
    (docs code : bool) : list string * option error :=
  let found := ("Check: Found internal author " ++ author ++ ".")%string in
  (* Skip checks if admins have approved. *)
  if check (getAdminReviewers r author) reviews then ([found], None)
  else
    match docs, code with
    | true, true =>
        ([found; "Check: Found docs and code changes."],
         match checkDocsReviews r author reviews with
         | Some err => Some err
         | None => checkCodeReviews r author reviews
         end)
    | false, true =>
        ([found; "Check: Found code changes."], checkCodeReviews r author reviews)
    | true, false =>
        ([found; "Check: Found docs changes."], checkDocsReviews r author reviews)
    (* Strange state, an empty commit? Check admins. *)
    | false, false =>
        ([found; "Check: Found no docs or code changes."],
         if Nat.ltb (checkN (getAdminReviewers r author) reviews) 2
         then Some (BadParameter "requires two admin approvals")
         else None)
    end.

(** [reviewer] has a review of their own that approves. *)
Definition approves (reviews : Reviews) (reviewer : string) : bool :=
  match reviews reviewer with
  | Some review =>
      String.eqb (State review) approved && String.eqb (Author review) reviewer
  | None => false
  end.

(** ** Leave requests: dates

    The dates of a leave request are parsed by [UnmarshalJSON] with the
    layout [2006-01-02], which yields times in UTC; a [Time] here is an
    instant in nanoseconds since the Unix epoch, read in UTC. *)

Definition nsPerDay : Z := (24 * 60 * 60 * 1000000000)%Z.

(** [t.AddDate(0, 0, days)] *)
Definition AddDate (t : time.Time) (days : Z) : time.Time :=
  (t + days * nsPerDay)%Z.

(** [t.After(u)] *)
Definition After (t u : time.Time) : bool := (u <? t)%Z.

(** [t.Weekday()], Sunday being 0; the epoch was a Thursday. *)
Definition Weekday (t : time.Time) : Z := ((t / nsPerDay + 4) mod 7)%Z.

Definition Sunday : Z := 0%Z.
Definition Monday : Z := 1%Z.
Definition Tuesday : Z := 2%Z.
Definition Friday : Z := 5%Z.
Definition Saturday : Z := 6%Z.

Record EmployeeLeaveRequest : Type := {
  FullName : string;
  StartDate : time.Time;
  EndDate : time.Time
}.

(** The loop of [businessDaysCount], for at most [fuel] more days. *)
Fixpoint businessDaysCount_loop (fuel : nat) (start end_ : time.Time)
    (totalDays weekendDays : Z) : option (Z * Z) :=
  if After start end_ then Some (totalDays, weekendDays)
  else
    match fuel with
    | O => None
    | S fuel =>
        businessDaysCount_loop fuel (AddDate start 1) end_ (totalDays + 1)%Z
          (if Z.eqb (Weekday start) Saturday || Z.eqb (Weekday start) Sunday
           then (weekendDays + 1)%Z else weekendDays)
    end.

(** The days from the start to the end of a request, both counted. *)
Definition daysOfLeave (req : EmployeeLeaveRequest) : nat :=
  Z.to_nat ((EndDate req - StartDate req) / nsPerDay + 1)%Z.

(** [businessDaysCount] gets the number of business days during the
    leave request. *)
Definition businessDaysCount (req : EmployeeLeaveRequest) : option Z :=
  match businessDaysCount_loop (daysOfLeave req) (StartDate req) (EndDate req) 0 0 with
  | Some (totalDays, weekendDays) => Some (totalDays - weekendDays)%Z
  | None => None
  end.

Definition shouldOmit (date : time.Time) (req : EmployeeLeaveRequest)
    : option bool :=
  match businessDaysCount req with
  | None => None
  | Some days =>
      (* Leave is defined as being out for more than two business days. *)
      if (days <=? 2)%Z then Some false
      else
        let additionalLeaveStart := (-2)%Z in
        let additionalLeaveEnd := 1%Z in
        let additionalLeaveStart :=
          if Z.eqb (Weekday (StartDate req)) Monday
             || Z.eqb (Weekday (StartDate req)) Tuesday
          then (additionalLeaveStart - 2)%Z else additionalLeaveStart in
        let additionalLeaveEnd :=
          if Z.eqb (Weekday (EndDate req)) Friday
          then (additionalLeaveEnd + 2)%Z else additionalLeaveEnd in
        let start := AddDate (StartDate req) (additionalLeaveStart - 1) in
        let end_ := AddDate (EndDate req) (additionalLeaveEnd + 1) in
        Some (After date start && time.Before date end_)
  end.

(** Whether a day is a business day. *)
Definition businessDay (t : time.Time) : bool :=
  negb (Z.eqb (Weekday t) Saturday || Z.eqb (Weekday t) Sunday).

(** The days of a leave: the start and every whole day after it up to
    the end. *)
Definition leaveDays (req : EmployeeLeaveRequest) : list time.Time :=
  map (fun k => AddDate (StartDate req) (Z.of_nat k)) (seq 0 (daysOfLeave req)).

End review.

(** * lib/srv/db/sqlserver/auth.go: the Kerberos authenticator *)
Module sqlserver.

(** [types.AD]: the Active Directory settings of a database. *)
Record AD : Type := {
  KeytabFile : string;
  Krb5File : string;
  Realm : string;
  SPN : string
}.

(** [krbAuth] *)
Record krbAuth : Type := { initToken : bytes }.

(** The steps of [getAuth], in the order of the source. *)
Inductive Step : Type :=
| LoadKeytab
| LoadConfig
| Login
| GetServiceTicket
| NewNegTokenInit
| MarshalToken.

Definition steps : list Step :=
  [LoadKeytab; LoadConfig; Login; GetServiceTicket; NewNegTokenInit; MarshalToken].

Section GetAuth.

(** The values of the gokrb5 library and what its functions return. *)
Variables Keytab Krb5Config Ticket EncryptionKey NegTokenInit : Type.

(** [client.NewWithKeytab(username, realm, keytab, config, settings)] *)
Record Client : Type := NewWithKeytab {
  username : string;
  realm : string;
  clientKeytab : Keytab;
  clientConfig : Krb5Config;
  DisablePAFXFAST : bool
}.

Variable GetAD : Database -> AD.
Variable keytab_Load : string -> result Keytab.
Variable config_Load : string -> result Krb5Config.
Variable client_Login : Client -> option error.
Variable client_GetServiceTicket : Client -> string -> result (Ticket * EncryptionKey).
Variable spnego_NewNegTokenInitKRB5 :
  Client -> Ticket -> EncryptionKey -> result NegTokenInit.
Variable Marshal : NegTokenInit -> result bytes.
Variable spnego_UnmarshalNegToken : bytes -> option error.

(** A call [getAuth] makes, with its arguments. *)
Inductive Call : Type :=
| CallLoadKeytab (file : string)
| CallLoadConfig (file : string)
| CallLogin (cl : Client)
| CallGetServiceTicket (cl : Client) (spn : string)
| CallNewNegTokenInit (cl : Client) (ticket : Ticket) (key : EncryptionKey)
| CallMarshal (token : NegTokenInit).

Definition stepOf (call : Call) : Step :=
  match call with
  | CallLoadKeytab _ => LoadKeytab
  | CallLoadConfig _ => LoadConfig
  | CallLogin _ => Login
  | CallGetServiceTicket _ _ => GetServiceTicket
  | CallNewNegTokenInit _ _ _ => NewNegTokenInit
  | CallMarshal _ => MarshalToken
  end.

(** The error a call returns, if it fails. *)
Definition failure (call : Call) : option error :=
  match call with
  | CallLoadKeytab file =>
      match keytab_Load file with Err err => Some err | Ok _ => None end
  | CallLoadConfig file =>
      match config_Load file with Err err => Some err | Ok _ => None end
  | CallLogin cl => client_Login cl
  | CallGetServiceTicket cl spn =>
      match client_GetServiceTicket cl spn with Err err => Some err | Ok _ => None end
  | CallNewNegTokenInit cl ticket key =>
      match spnego_NewNegTokenInitKRB5 cl ticket key with
      | Err err => Some err
      | Ok _ => None
      end
  | CallMarshal token =>
      match Marshal token with Err err => Some err | Ok _ => None end
  end.

(** [getAuth] returns Kerberos authenticator used by SQL Server driver:
    the calls it makes, in order, and what it returns. *)
Definition getAuth (sessionCtx : Session) : list Call * result krbAuth :=
  let ad := GetAD (database sessionCtx) in
  (* Load keytab. *)
  match keytab_Load (KeytabFile ad) with
  | Err err => ([CallLoadKeytab (KeytabFile ad)], Err (trace.Wrap err))
  | Ok keytab =>
      (* Load krb5.conf. *)
      match config_Load (Krb5File ad) with
      | Err err =>
          ([CallLoadKeytab (KeytabFile ad); CallLoadConfig (Krb5File ad)],
           Err (trace.Wrap err))
      | Ok config =>
          (* Create Kerberos client. *)
          let cl :=
            NewWithKeytab (DatabaseUser sessionCtx) (Realm ad) keytab config true in
          (* Login. *)
          match client_Login cl with
          | Some err =>
              ([CallLoadKeytab (KeytabFile ad); CallLoadConfig (Krb5File ad);
                CallLogin cl],
               Err (trace.Wrap err))
          | None =>
              (* Obtain service ticket. *)
              match client_GetServiceTicket cl (SPN ad) with
              | Err err =>
                  ([CallLoadKeytab (KeytabFile ad); CallLoadConfig (Krb5File ad);
                    CallLogin cl; CallGetServiceTicket cl (SPN ad)],
                   Err (trace.Wrap err))
              | Ok (ticket, encryptionKey) =>
                  (* Create init negotiation token. *)
                  match spnego_NewNegTokenInitKRB5 cl ticket encryptionKey with
                  | Err err =>
                      ([CallLoadKeytab (KeytabFile ad); CallLoadConfig (Krb5File ad);
                        CallLogin cl; CallGetServiceTicket cl (SPN ad);
                        CallNewNegTokenInit cl ticket encryptionKey],
                       Err (trace.Wrap err))
                  | Ok token =>
                      (* Marshal init negotiation token. *)
                      match Marshal token with
                      | Err err =>
                          ([CallLoadKeytab (KeytabFile ad);
                            CallLoadConfig (Krb5File ad);
                            CallLogin cl; CallGetServiceTicket cl (SPN ad);
                            CallNewNegTokenInit cl ticket encryptionKey;
                            CallMarshal token],
                           Err (trace.Wrap err))
                      | Ok initTokenBytes =>
                          ([CallLoadKeytab (KeytabFile ad);
                            CallLoadConfig (Krb5File ad);
                            CallLogin cl; CallGetServiceTicket cl (SPN ad);
                            CallNewNegTokenInit cl ticket encryptionKey;
                            CallMarshal token],
                           Ok {| initToken := initTokenBytes |})
                      end
                  end
              end
          end
      end
  end.

(** [InitialBytes] *)
Definition InitialBytes (a : krbAuth) : result bytes := Ok (initToken a).

(** [NextBytes]: [nil] bytes, or the error of a token that does not
    parse. *)
Definition NextBytes (a : krbAuth) (token : bytes) : result bytes :=
  match spnego_UnmarshalNegToken token with
  | Some err => Err (trace.Wrap err)
  | None => Ok []
  end.

End GetAuth.

End sqlserver.
(** * Properties *)

(** ** Runs and errors *)

Lemma events_bind (A B : Type) (m : Run A) (k : A -> Run B) :
  events (bind m k) = events m ++ events (k (returned m)).
Proof. unfold bind. destruct m as [tr a]. simpl. now destruct (k a). Qed.

Lemma returned_bind (A B : Type) (m : Run A) (k : A -> Run B) :
  returned (bind m k) = returned (k (returned m)).
Proof. unfold bind. destruct m as [tr a]. simpl. now destruct (k a). Qed.

Lemma Unwrap_Wrap (err : error) : trace.Unwrap (trace.Wrap err) = trace.Unwrap err.
Proof. destruct err; reflexivity. Qed.

Lemma IsLimitExceeded_Wrap (err : error) :
  trace.IsLimitExceeded (trace.Wrap err) = trace.IsLimitExceeded err.
Proof. unfold trace.IsLimitExceeded. now rewrite Unwrap_Wrap. Qed.

Lemma IsAccessDenied_Wrap (err : error) :
  trace.IsAccessDenied (trace.Wrap err) = trace.IsAccessDenied err.
Proof. unfold trace.IsAccessDenied. now rewrite Unwrap_Wrap. Qed.

Lemma existsb_app_false (A : Type) (f : A -> bool) (l1 l2 : list A) :
  existsb f l1 = false -> existsb f l2 = false -> existsb f (l1 ++ l2) = false.
Proof. intros H1 H2. rewrite existsb_app, H1, H2. reflexivity. Qed.

(** Case analysis on whatever a run branches on next. *)
Ltac branch :=
  first
    [ match goal with
      | |- context [match ?x with _ => _ end] =>
          lazymatch x with
          | context [match _ with _ => _ end] => fail
          | _ => destruct x eqn:?
          end
      end
    | match goal with
      | |- context [bind ?m _] =>
          lazymatch m with
          | context [match _ with _ => _ end] => fail
          | context [bind _ _] => fail
          | _ => destruct m as [? ?] eqn:?
          end
      end ].

(** Membership in a list that is written out. *)
Ltac in_list :=
  cbn [In]; repeat first [ left; reflexivity | right ].

Ltac run_connect :=
  unfold connect, client_Connect, runClientOption, cloudSQLDialURI, defer,
    call, emit, ret, events, returned;
  cbn [bind fst snd app].

(** ** What [checkAccess] and [connect] do not do *)

Lemma checkAccess_no_WriteOK (w : World) (e : Engine) (ctx : Context) (s : Session) :
  existsb isWriteOK (events (checkAccess w e ctx s)) = false.
Proof.
  unfold checkAccess, call, emit, ret, events; cbn [bind fst snd app].
  repeat (branch; cbn [bind fst snd app]); reflexivity.
Qed.

Lemma connect_no_WriteOK (w : World) (e : Engine) (ctx : Context) (s : Session) :
  existsb isWriteOK (events (connect w e ctx s)) = false.
Proof.
  run_connect.
  repeat (branch; cbn [bind fst snd app]); reflexivity.
Qed.

Lemma checkAccess_None_no_sessionStart (w : World) (e : Engine) (ctx : Context)
    (s : Session) :
  returned (checkAccess w e ctx s) = None ->
  sessionStarts (events (checkAccess w e ctx s)) = [].
Proof.
  unfold checkAccess, call, emit, ret, events, returned; cbn [bind fst snd app].
  repeat (branch; cbn [bind fst snd app]); intros H; try discriminate; reflexivity.
Qed.

Lemma connect_no_audit (w : World) (e : Engine) (ctx : Context) (s : Session) :
  sessionStarts (events (connect w e ctx s)) = [] /\
  existsb isSessionEnd (events (connect w e ctx s)) = false /\
  existsb isGo (events (connect w e ctx s)) = false /\
  existsb isServerConnClose (events (connect w e ctx s)) = false.
Proof.
  run_connect.
  repeat (branch; cbn [bind fst snd app]); repeat split; reflexivity.
Qed.

(** A [connect] that returns a connection has dialed the database and
    completed the MySQL handshake on the connection it returns. *)
Lemma connect_Ok_handshake (w : World) (e : Engine) (ctx : Context) (s : Session)
    (conn : ClientConn) :
  returned (connect w e ctx s) = Ok conn ->
  exists user password : string,
    In (EvHandshake conn user password (DatabaseName s))
       (events (connect w e ctx s)) /\
    Conn_handshake w conn user password (DatabaseName s) = None /\
    net_DialTimeout w (GetURI (database s)) = None.
Proof.
  run_connect.
  repeat (branch; cbn [bind fst snd app]); intros H; try discriminate;
    injection H as <-; do 2 eexists;
    (split; [ | split; first [ eassumption | reflexivity ] ]);
    in_list.
Qed.

(** ** C1: the ready reply follows the backend connection *)

(** C1.  In a session that passes authorization, [WriteOK] is called only
    when [connect] has returned a connection, and then after every call
    of [checkAccess] and [connect], the successful handshake with the
    backend among them; when [connect] fails, [WriteOK] is never
    called. *)
Theorem ready_only_after_backend_connect (w : World) (e : Engine)
    (ctx : Context) (s : Session) :
  returned (checkAccess w e ctx s) = None ->
  match returned (connect w e ctx s) with
  | Err _ =>
      existsb isWriteOK (events (HandleConnection w e ctx s)) = false
  | Ok conn =>
      exists rest : list Event,
        events (HandleConnection w e ctx s)
        = events (checkAccess w e ctx s) ++ events (connect w e ctx s)
            ++ EvWriteOK :: rest
        /\ existsb isWriteOK
             (events (checkAccess w e ctx s) ++ events (connect w e ctx s)) = false
        /\ existsb isWriteOK rest = false
        /\ exists user password : string,
             In (EvHandshake conn user password (DatabaseName s))
                (events (connect w e ctx s))
             /\ Conn_handshake w conn user password (DatabaseName s) = None
  end.
Proof.
  intros Hauth.
  pose proof (checkAccess_no_WriteOK w e ctx s) as Ha.
  pose proof (connect_no_WriteOK w e ctx s) as Hc.
  pose proof (connect_Ok_handshake w e ctx s) as Hh.
  unfold HandleConnection.
  destruct (checkAccess w e ctx s) as [tr_a r_a].
  destruct (connect w e ctx s) as [tr_c r_c].
  unfold events, returned in *; cbn [fst snd] in *. subst r_a.
  cbn [bind fst snd].
  destruct r_c as [conn | err].
  - destruct (Hh conn eq_refl) as (user & password & Hin & Hok & _).
    unfold defer, call, emit, ret; cbn [bind fst snd app].
    destruct (WriteOK (proxyConn e)); cbn [bind fst snd app];
      [ destruct (Conn_Close w conn) | destruct (selected w), (Conn_Close w conn) ];
      cbn [bind fst snd app];
      (eexists; split; [ reflexivity | ]);
      (split; [ now apply existsb_app_false | ]);
      (split; [ reflexivity | eauto ]).
  - destruct (trace.IsLimitExceeded err); unfold ret; cbn [fst snd];
      rewrite app_nil_r; now apply existsb_app_false.
Qed.

Lemma ready_only_after_backend_connect_witness :
  exists rest : list Event,
    events (HandleConnection
              (Sample.world None [Ok (Quit Sample.quit)] ClientDone)
              (Sample.engine None) Sample.ctx
              (Sample.session
                 (Sample.db Sample.RDS "db.example.com:3306"
                    DatabaseTLSMode_VERIFY_FULL) None))
    = [EvGetAuthPreference Sample.ctx;
       EvCheckAccess
         (Sample.db Sample.RDS "db.example.com:3306" DatabaseTLSMode_VERIFY_FULL)
         {| Verified := true; AlwaysRequired := false |}
         (DatabaseRoleMatchers "mysql" "alice" "sales");
       EvGetTLSConfig Sample.ctx;
       EvGetRDSAuthToken;
       EvClientConnect "db.example.com:3306" "alice" "rds-token" "sales"
         (setTLSConfigOpt Sample.tlsConfig);
       EvNetDial "db.example.com:3306";
       EvHandshake
         {| Conn := packet_NewConn "db.example.com:3306";
            tlsConfig := Some Sample.tlsConfig |}
         "alice" "rds-token" "sales"]
      ++ EvWriteOK :: rest.
Proof.
  destruct (ready_only_after_backend_connect
              (Sample.world None [Ok (Quit Sample.quit)] ClientDone)
              (Sample.engine None) Sample.ctx
              (Sample.session
                 (Sample.db Sample.RDS "db.example.com:3306"
                    DatabaseTLSMode_VERIFY_FULL) None)
              eq_refl)
    as (rest & Hrun & _).
  exists rest. exact Hrun.
Defined.

(** ** C2: the session-start audit *)

Lemma Wrap_Wrap (err : error) : trace.Wrap (trace.Wrap err) = trace.Wrap err.
Proof. destruct err; reflexivity. Qed.

(** The three ways [checkAccess] runs. *)
Lemma checkAccess_cases (w : World) (e : Engine) (ctx : Context) (s : Session) :
  checkAccess w e ctx s
  = match GetAuthPreference (e_Auth e) ctx with
    | Err err => ([EvGetAuthPreference ctx], Some (trace.Wrap err))
    | Ok ap =>
        let mfaParams :=
          {| Verified := negb (String.eqb (MFAVerified (identity s)) EmptyString);
             AlwaysRequired := GetRequireSessionMFA ap |} in
        let dbRoleMatchers :=
          DatabaseRoleMatchers (defaults_ProtocolMySQL w)
            (DatabaseUser s) (DatabaseName s) in
        match CheckAccess (Checker s) (database s) mfaParams dbRoleMatchers with
        | Some err =>
            ([EvGetAuthPreference ctx;
              EvCheckAccess (database s) mfaParams dbRoleMatchers;
              EvOnSessionStart (e_Context e) s (Some err)],
             Some (trace.Wrap err))
        | None =>
            ([EvGetAuthPreference ctx;
              EvCheckAccess (database s) mfaParams dbRoleMatchers], None)
        end
    end.
Proof.
  unfold checkAccess, call, emit, ret; cbn [bind fst snd app].
  repeat (branch; cbn [bind fst snd app]); reflexivity.
Qed.

Lemma sessionStarts_app (tr1 tr2 : list Event) :
  sessionStarts (tr1 ++ tr2) = sessionStarts tr1 ++ sessionStarts tr2.
Proof.
  induction tr1 as [| ev tr1 IH]; [ reflexivity | ].
  destruct ev; cbn [app sessionStarts]; now rewrite IH.
Qed.

(** The session-start audits of an authorized session: one, with no
    error, once the OK reply is written, and none otherwise. *)
Lemma authorized_sessionStarts (w : World) (e : Engine) (ctx : Context)
    (s : Session) :
  returned (checkAccess w e ctx s) = None ->
  sessionStarts (events (HandleConnection w e ctx s))
  = match returned (connect w e ctx s), WriteOK (proxyConn e) with
    | Ok _, None => [None]
    | _, _ => []
    end.
Proof.
  intros Hauth.
  pose proof (checkAccess_None_no_sessionStart w e ctx s Hauth) as Ha.
  destruct (connect_no_audit w e ctx s) as (Hc & _).
  unfold HandleConnection.
  destruct (checkAccess w e ctx s) as [tr_a r_a].
  destruct (connect w e ctx s) as [tr_c r_c].
  unfold events, returned in *; cbn [fst snd] in *. subst r_a.
  cbn [bind fst snd].
  destruct r_c as [conn | err].
  - unfold defer, call, emit, ret; cbn [bind fst snd app].
    destruct (WriteOK (proxyConn e)); cbn [bind fst snd app];
      [ destruct (Conn_Close w conn) | destruct (selected w), (Conn_Close w conn) ];
      cbn [bind fst snd app];
      rewrite !sessionStarts_app, Ha, Hc; reflexivity.
  - destruct (trace.IsLimitExceeded err); unfold ret; cbn [fst snd];
      rewrite !sessionStarts_app, Ha, Hc; reflexivity.
Qed.

(** C2, as amended.  [OnSessionStart] is called at most once.  When
    [CheckAccess] denies access it is called once, with the denial, after
    which [HandleConnection] returns the denial wrapped without any call
    of [connect].  In an authorized session it is called once, with no
    error, exactly when [connect] returned a connection and the OK reply
    was written; when [GetAuthPreference] fails, [connect] fails or
    [WriteOK] fails it is not called. *)
Theorem session_start_audit (w : World) (e : Engine) (ctx : Context) (s : Session) :
  (List.length (sessionStarts (events (HandleConnection w e ctx s))) <= 1)%nat
  /\ (forall (ap : AuthPreference) (err : error),
        GetAuthPreference (e_Auth e) ctx = Ok ap ->
        CheckAccess (Checker s) (database s)
          {| Verified := negb (String.eqb (MFAVerified (identity s)) EmptyString);
             AlwaysRequired := GetRequireSessionMFA ap |}
          (DatabaseRoleMatchers (defaults_ProtocolMySQL w)
             (DatabaseUser s) (DatabaseName s)) = Some err ->
        sessionStarts (events (HandleConnection w e ctx s)) = [Some err]
        /\ returned (HandleConnection w e ctx s) = Some (trace.Wrap err)
        /\ existsb isConnectCall (events (HandleConnection w e ctx s)) = false)
  /\ (forall err : error,
        GetAuthPreference (e_Auth e) ctx = Err err ->
        sessionStarts (events (HandleConnection w e ctx s)) = []
        /\ returned (HandleConnection w e ctx s) = Some (trace.Wrap err))
  /\ (returned (checkAccess w e ctx s) = None ->
      sessionStarts (events (HandleConnection w e ctx s))
      = match returned (connect w e ctx s), WriteOK (proxyConn e) with
        | Ok _, None => [None]
        | _, _ => []
        end).
Proof.
  assert (Hdenied : forall ap err,
            GetAuthPreference (e_Auth e) ctx = Ok ap ->
            CheckAccess (Checker s) (database s)
              {| Verified := negb (String.eqb (MFAVerified (identity s)) EmptyString);
                 AlwaysRequired := GetRequireSessionMFA ap |}
              (DatabaseRoleMatchers (defaults_ProtocolMySQL w)
                 (DatabaseUser s) (DatabaseName s)) = Some err ->
            HandleConnection w e ctx s
            = ([EvGetAuthPreference ctx;
                EvCheckAccess (database s)
                  {| Verified := negb (String.eqb (MFAVerified (identity s)) EmptyString);
                     AlwaysRequired := GetRequireSessionMFA ap |}
                  (DatabaseRoleMatchers (defaults_ProtocolMySQL w)
                     (DatabaseUser s) (DatabaseName s));
                EvOnSessionStart (e_Context e) s (Some err)],
               Some (trace.Wrap err))).
  { intros ap err Hap Hcheck. unfold HandleConnection.
    rewrite checkAccess_cases, Hap. cbn zeta. rewrite Hcheck.
    cbn [bind ret fst snd app]. now rewrite Wrap_Wrap. }
  assert (Hnopref : forall err,
            GetAuthPreference (e_Auth e) ctx = Err err ->
            HandleConnection w e ctx s
            = ([EvGetAuthPreference ctx], Some (trace.Wrap err))).
  { intros err Hap. unfold HandleConnection.
    rewrite checkAccess_cases, Hap. cbn [bind ret fst snd app].
    now rewrite Wrap_Wrap. }
  split; [ | split; [ | split ] ].
  - destruct (returned (checkAccess w e ctx s)) as [err |] eqn:Hret.
    + revert Hret. rewrite checkAccess_cases.
      destruct (GetAuthPreference (e_Auth e) ctx) as [ap | err'] eqn:Hap.
      * cbn zeta.
        destruct (CheckAccess _ _ _ _) as [err' |] eqn:Hcheck; [ | discriminate ].
        intros _. rewrite (Hdenied ap err' eq_refl Hcheck). cbn. lia.
      * intros _. rewrite (Hnopref err' eq_refl). cbn. lia.
    + rewrite (authorized_sessionStarts w e ctx s Hret).
      destruct (returned (connect w e ctx s)), (WriteOK (proxyConn e)); cbn; lia.
  - intros ap err Hap Hcheck. rewrite (Hdenied ap err Hap Hcheck).
    repeat split; reflexivity.
  - intros err Hap. rewrite (Hnopref err Hap). split; reflexivity.
  - apply authorized_sessionStarts.
Qed.

Lemma session_start_audit_witness :
  sessionStarts
    (events (HandleConnection
               (Sample.world None [] ClientDone) (Sample.engine None) Sample.ctx
               (Sample.session
                  (Sample.db Sample.Generic_ "db.example.com:3306"
                     DatabaseTLSMode_VERIFY_FULL)
                  (Some (trace.AccessDeniedError "access to db denied")))))
  = [Some (trace.AccessDeniedError "access to db denied")]
  /\ returned (HandleConnection
                 (Sample.world None [] ClientDone) (Sample.engine None) Sample.ctx
                 (Sample.session
                    (Sample.db Sample.Generic_ "db.example.com:3306"
                       DatabaseTLSMode_VERIFY_FULL)
                    (Some (trace.AccessDeniedError "access to db denied"))))
     = Some (trace.TraceErr (trace.AccessDeniedError "access to db denied")).
Proof.
  destruct (session_start_audit
              (Sample.world None [] ClientDone) (Sample.engine None) Sample.ctx
              (Sample.session
                 (Sample.db Sample.Generic_ "db.example.com:3306"
                    DatabaseTLSMode_VERIFY_FULL)
                 (Some (trace.AccessDeniedError "access to db denied"))))
    as (_ & Hdenied & _).
  destruct (Hdenied {| GetRequireSessionMFA := false |}
              (trace.AccessDeniedError "access to db denied") eq_refl eq_refl)
    as (Hstarts & Hret & _).
  split; [ exact Hstarts | exact Hret ].
Defined.

(** C2 as stated fails: a session whose backend handshake is refused
    ends without any [OnSessionStart] call. *)
Lemma session_start_not_always_audited :
  List.length
    (sessionStarts
       (events (HandleConnection
                  (Sample.world (Some (trace.PlainError "connection refused"))
                     [] ClientDone)
                  (Sample.engine None) Sample.ctx
                  (Sample.session
                     (Sample.db Sample.Generic_ "db.example.com:3306"
                        DatabaseTLSMode_VERIFY_FULL) None))))
  <> 1%nat.
Proof. cbn. discriminate. Qed.

(** ** C3 and C8: the client-to-backend relay *)

Lemma writesTo_app (dst : Peer) (tr1 tr2 : list Event) :
  writesTo dst (tr1 ++ tr2) = writesTo dst tr1 ++ writesTo dst tr2.
Proof.
  induction tr1 as [| ev tr1 IH]; [ reflexivity | ].
  destruct ev; cbn [app writesTo]; try exact IH.
  destruct dst0, dst; cbn [app]; now rewrite IH.
Qed.

Lemma received_app (ch : Chan) (tr1 tr2 : list Event) :
  received ch tr1 = None -> received ch (tr1 ++ tr2) = received ch tr2.
Proof.
  induction tr1 as [| ev tr1 IH]; [ reflexivity | ].
  destruct ev; cbn [app received]; try exact IH.
  destruct (Chan_eqb ch0 ch); [ discriminate | exact IH ].
Qed.

Lemma writesTo_relayCalls (e : Engine) (s : Session) (units : list Packet) :
  writesTo serverConn (relayCalls e s units) = map Bytes units.
Proof.
  induction units as [| p units IH]; [ reflexivity | ].
  destruct p; cbn [relayCalls writesTo map Bytes]; now rewrite IH.
Qed.

Lemma received_relayCalls (ch : Chan) (e : Engine) (s : Session)
    (units : list Packet) :
  received ch (relayCalls e s units) = None.
Proof.
  induction units as [| p units IH]; [ reflexivity | ].
  destruct p; cbn [relayCalls received]; exact IH.
Qed.

Lemma relayed_decoded_length (w : World) (pre : list (result Packet)) (n : nat) :
  relayed w pre n = true -> List.length (decoded pre) = List.length pre.
Proof.
  revert n. induction pre as [| r pre IH]; intros n H; [ reflexivity | ].
  destruct r as [p | err]; [ | discriminate ].
  cbn [relayed] in H. apply andb_prop in H as [_ H].
  destruct (WritePacket w serverConn n (Bytes p)); [ discriminate | ].
  cbn [decoded List.length]. f_equal. exact (IH _ H).
Qed.

(** The loop gets past a relayed prefix, making exactly the calls that
    forward its units. *)
Lemma receiveFromClient_loop_relayed (w : World) (e : Engine) (s : Session)
    (pre rest : list (result Packet)) :
  forall n : nat,
    relayed w pre n = true ->
    events (receiveFromClient_loop w e s (pre ++ rest) n)
    = relayCalls e s (decoded pre)
        ++ events (receiveFromClient_loop w e s rest (n + List.length pre)).
Proof.
  induction pre as [| r pre IH]; intros n Hpre.
  - cbn [app List.length relayCalls decoded]. now rewrite Nat.add_0_r.
  - destruct r as [p | err]; [ | discriminate ].
    cbn [relayed] in Hpre. apply andb_prop in Hpre as [Hp Hpre].
    destruct (WritePacket w serverConn n (Bytes p)) eqn:Hw; [ discriminate | ].
    specialize (IH (S n) Hpre).
    replace (n + List.length (Ok p :: pre)) with (S n + List.length pre)
      by (cbn [List.length]; lia).
    rewrite <- app_comm_cons.
    cbn [receiveFromClient_loop decoded].
    destruct p; try discriminate;
      unfold call, emit, ret in *; cbn [bind fst snd app Bytes] in *;
      rewrite Hw;
      destruct (receiveFromClient_loop w e s (pre ++ rest) (S n)) as [tr u];
      unfold events in *; cbn [fst snd relayCalls app Bytes] in *;
      now rewrite IH.
Qed.

(** C3.  When the client relay decodes a [ChangeUser] or a [Quit] unit
    (one that is not [passedOn]) after relaying the units before it, the
    writes to the backend are those of the earlier units and no more:
    the unit itself and whatever the client sends after it are never
    written.  The task then ends at once (a rejection is logged for
    [ChangeUser], nothing for [Quit]) by closing its completion channel,
    on which no error was sent. *)
Theorem intercepted_unit_ends_client_relay (w : World) (e : Engine) (s : Session)
    (pre rest : list (result Packet)) (p : Packet) :
  fromClient w = pre ++ Ok p :: rest ->
  relayed w pre 0 = true ->
  passedOn p = false ->
  events (receiveFromClient w e s)
  = relayCalls e s (decoded pre) ++ rejection p
      ++ [EvLog DebugLevel "Stop receiving from client." None; EvClose clientErrCh]
  /\ writesTo serverConn (events (receiveFromClient w e s))
     = map Bytes (decoded pre)
  /\ received clientErrCh (events (receiveFromClient w e s)) = None.
Proof.
  intros Hin Hpre Hp.
  assert (Hrun : events (receiveFromClient w e s)
                 = relayCalls e s (decoded pre) ++ rejection p
                     ++ [EvLog DebugLevel "Stop receiving from client." None;
                         EvClose clientErrCh]).
  { unfold receiveFromClient, defer.
    rewrite !events_bind, Hin, (receiveFromClient_loop_relayed w e s pre _ 0 Hpre).
    rewrite <- app_assoc. f_equal.
    destruct p; try discriminate; reflexivity. }
  rewrite Hrun. split; [ reflexivity | split ].
  - rewrite writesTo_app, writesTo_relayCalls.
    destruct p; try discriminate; cbn; now rewrite app_nil_r.
  - rewrite received_app by apply received_relayCalls.
    destruct p; try discriminate; reflexivity.
Qed.

Lemma intercepted_unit_ends_client_relay_witness :
  events (receiveFromClient
            (Sample.world None
               [Ok (Query Sample.select1 "SELECT 1"); Ok (Generic Sample.ping);
                Ok (ChangeUser Sample.chuser "bob"); Ok (Generic Sample.ping)]
               ClientDone)
            (Sample.engine None)
            (Sample.session
               (Sample.db Sample.Generic_ "db.example.com:3306"
                  DatabaseTLSMode_VERIFY_FULL) None))
  = [EvOnQuery Sample.ctx
       (Sample.session
          (Sample.db Sample.Generic_ "db.example.com:3306"
             DatabaseTLSMode_VERIFY_FULL) None)
       "SELECT 1";
     EvWritePacket serverConn Sample.select1;
     EvWritePacket serverConn Sample.ping;
     EvLog WarnLevel "Rejecting attempt to change user to %q for session %v." None;
     EvLog DebugLevel "Stop receiving from client." None;
     EvClose clientErrCh].
Proof.
  exact (proj1 (intercepted_unit_ends_client_relay
                  (Sample.world None
                     [Ok (Query Sample.select1 "SELECT 1"); Ok (Generic Sample.ping);
                      Ok (ChangeUser Sample.chuser "bob"); Ok (Generic Sample.ping)]
                     ClientDone)
                  (Sample.engine None)
                  (Sample.session
                     (Sample.db Sample.Generic_ "db.example.com:3306"
                        DatabaseTLSMode_VERIFY_FULL) None)
                  [Ok (Query Sample.select1 "SELECT 1"); Ok (Generic Sample.ping)]
                  [Ok (Generic Sample.ping)]
                  (ChangeUser Sample.chuser "bob")
                  eq_refl eq_refl eq_refl)).
Defined.

(** Whatever the client sends and whichever writes fail, the byte
    strings handed to the backend are, in order, the bytes of the first
    units decoded from the client. *)
Lemma client_relay_writes_prefix (w : World) (e : Engine) (s : Session) :
  exists (forwarded later : list Packet),
    decoded (fromClient w) = forwarded ++ later
    /\ writesTo serverConn (events (receiveFromClient w e s))
       = map Bytes forwarded.
Proof.
  assert (Hloop : forall input n,
            exists forwarded later,
              decoded input = forwarded ++ later
              /\ writesTo serverConn (events (receiveFromClient_loop w e s input n))
                 = map Bytes forwarded).
  { induction input as [| r input IH]; intros n.
    - exists [], []. split; [ reflexivity | ].
      cbn [receiveFromClient_loop]. unfold emit.
      destruct (utils_IsOKNetworkError w io_EOF); reflexivity.
    - destruct r as [p | err].
      + destruct (IH (S n)) as (forwarded & later & Hdec & Hwr).
        cbn [receiveFromClient_loop decoded].
        destruct p; unfold call, emit, ret; cbn [bind fst snd app Bytes].
        1, 4: destruct (WritePacket w serverConn n raw);
          [ eexists [_], (decoded input); split; [ reflexivity | ];
            cbn [bind fst snd app]; reflexivity
          | eexists (_ :: forwarded), later; split;
            [ cbn [app]; now rewrite Hdec
            | destruct (receiveFromClient_loop w e s input (S n)) as [tr u];
              unfold events in *; cbn [fst snd app writesTo map Bytes] in *;
              now rewrite Hwr ] ].
        all: eexists [], (_ :: decoded input); split; reflexivity.
      + exists [], []. split; [ reflexivity | ].
        cbn [receiveFromClient_loop]. unfold emit.
        destruct (utils_IsOKNetworkError w err); reflexivity. }
  destruct (Hloop (fromClient w) 0) as (forwarded & later & Hdec & Hwr).
  exists forwarded, later. split; [ exact Hdec | ].
  unfold receiveFromClient, defer. rewrite !events_bind, writesTo_app, Hwr.
  cbn. now rewrite app_nil_r.
Qed.

(** C8.  A [Query] unit the client relay decodes after relaying the
    units before it is audited and then written to the backend with
    exactly the bytes it was decoded from: that write is the relay's
    next call, and the next byte string the backend receives. *)
Theorem query_forwarded_unchanged (w : World) (e : Engine) (s : Session)
    (pre rest : list (result Packet)) (raw : bytes) (query : string) :
  fromClient w = pre ++ Ok (Query raw query) :: rest ->
  relayed w pre 0 = true ->
  exists tail : list Event,
    events (receiveFromClient w e s)
    = relayCalls e s (decoded pre)
        ++ EvOnQuery (e_Context e) s query
        :: EvWritePacket serverConn (Bytes (Query raw query)) :: tail
    /\ nth_error (writesTo serverConn (events (receiveFromClient w e s)))
         (List.length pre)
       = Some raw.
Proof.
  intros Hin Hpre.
  assert (Hrun : exists tail,
            events (receiveFromClient w e s)
            = relayCalls e s (decoded pre)
                ++ EvOnQuery (e_Context e) s query
                :: EvWritePacket serverConn raw :: tail).
  { unfold receiveFromClient, defer.
    rewrite !events_bind, Hin, (receiveFromClient_loop_relayed w e s pre _ 0 Hpre).
    cbn [receiveFromClient_loop]. unfold call, emit, ret at 1.
    cbn [bind fst snd app Bytes Nat.add].
    destruct (match WritePacket w serverConn (List.length pre) raw with
              | Some err => _ | None => _ end) as [tr u].
    cbn [events fst snd app]. rewrite <- app_assoc. cbn [app].
    eexists. reflexivity. }
  destruct Hrun as (tail & Hrun). exists tail. split; [ exact Hrun | ].
  rewrite Hrun, writesTo_app, writesTo_relayCalls.
  rewrite nth_error_app2; rewrite length_map, (relayed_decoded_length w pre 0 Hpre);
    [ | lia ].
  now rewrite Nat.sub_diag.
Qed.

Lemma query_forwarded_unchanged_witness :
  nth_error
    (writesTo serverConn
       (events (receiveFromClient
                  (Sample.world None
                     [Ok (Generic Sample.ping); Ok (Query Sample.select1 "SELECT 1");
                      Ok (Quit Sample.quit)]
                     ClientDone)
                  (Sample.engine None)
                  (Sample.session
                     (Sample.db Sample.Generic_ "db.example.com:3306"
                        DatabaseTLSMode_VERIFY_FULL) None))))
    1
  = Some Sample.select1.
Proof.
  destruct (query_forwarded_unchanged
              (Sample.world None
                 [Ok (Generic Sample.ping); Ok (Query Sample.select1 "SELECT 1");
                  Ok (Quit Sample.quit)]
                 ClientDone)
              (Sample.engine None)
              (Sample.session
                 (Sample.db Sample.Generic_ "db.example.com:3306"
                    DatabaseTLSMode_VERIFY_FULL) None)
              [Ok (Generic Sample.ping)] [Ok (Quit Sample.quit)]
              Sample.select1 "SELECT 1" eq_refl eq_refl)
    as (tail & _ & Hnth).
  exact Hnth.
Defined.

(** ** C4: the Cloud SQL lease request *)

(** C4, as amended.  On the Cloud SQL path (the database is not RDS, is
    Cloud SQL, and the TLS configuration was obtained) [connect] makes
    one lease request: kind ["gcp-mysql-token"], name the database's
    name, a hyphen and the database user, one lease at most, expiring a
    minute after the engine clock's time, retried in steps of one second
    with a wait of at most one second, under a context whose deadline is
    no later than [DatabaseConnectTimeout] from now and no later than the
    caller's. *)
Theorem cloudsql_lease_request (w : World) (e : Engine) (ctx : Context)
    (s : Session) (config : TLSConfig) :
  IsRDS (database s) = false ->
  IsCloudSQL (database s) = true ->
  GetTLSConfig (e_Auth e) ctx s = Ok config ->
  exists (retryCtx : Context) (cfg : AcquireSemaphoreWithRetryConfig)
         (deadline : time.Time),
    acquisitions (events (connect w e ctx s)) = [(retryCtx, cfg)]
    /\ SemaphoreKind (Request cfg) = "gcp-mysql-token"
    /\ SemaphoreName (Request cfg)
       = (GetName (database s) ++ "-" ++ DatabaseUser s)%string
    /\ MaxLeases (Request cfg) = 1%Z
    /\ Expires (Request cfg) = (Now (e_Clock e) + 60 * 1000000000)%Z
    /\ Step (Retry cfg) = 1000000000%Z
    /\ Max (Retry cfg) = 1000000000%Z
    /\ retryCtx
       = context.WithTimeout (time_Now w) ctx (defaults_DatabaseConnectTimeout w)
    /\ context.Deadline retryCtx = Some deadline
    /\ (deadline <= time_Now w + defaults_DatabaseConnectTimeout w)%Z
    /\ (forall outer : time.Time,
          context.Deadline ctx = Some outer -> (deadline <= outer)%Z).
Proof.
  intros Hrds Hcloud Htls.
  assert (Hdeadline : exists deadline,
            context.Deadline
              (context.WithTimeout (time_Now w) ctx
                 (defaults_DatabaseConnectTimeout w)) = Some deadline
            /\ (deadline <= time_Now w + defaults_DatabaseConnectTimeout w)%Z
            /\ (forall outer, context.Deadline ctx = Some outer ->
                              (deadline <= outer)%Z)).
  { unfold context.WithTimeout, time.Add, time.Before.
    destruct (context.Deadline ctx) as [cur |] eqn:Hcur.
    - destruct (cur <? time_Now w + defaults_DatabaseConnectTimeout w)%Z eqn:Hlt.
      + exists cur. rewrite Hcur. apply Z.ltb_lt in Hlt.
        repeat split; [ lia | ]. intros outer [= <-]. lia.
      + eexists. cbn. apply Z.ltb_ge in Hlt.
        repeat split; [ lia | ]. intros outer [= <-]. lia.
    - eexists. cbn. repeat split; [ lia | ]. discriminate. }
  destruct Hdeadline as (deadline & Hd & Hle & Houter).
  exists (context.WithTimeout (time_Now w) ctx (defaults_DatabaseConnectTimeout w)),
         (makeAcquireSemaphoreConfig e s), deadline.
  split.
  - run_connect. rewrite Htls, Hrds, Hcloud. cbn [bind fst snd app].
    repeat (branch; cbn [bind fst snd app]); reflexivity.
  - repeat split; try reflexivity; assumption.
Qed.

Lemma cloudsql_lease_request_witness :
  exists (retryCtx : Context) (cfg : AcquireSemaphoreWithRetryConfig),
    acquisitions
      (events (connect (Sample.world None [] ClientDone) (Sample.engine None)
                 Sample.ctx
                 (Sample.session
                    (Sample.db Sample.CloudSQL "db.example.com:3306"
                       DatabaseTLSMode_VERIFY_FULL) None)))
    = [(retryCtx, cfg)]
    /\ SemaphoreKind (Request cfg) = "gcp-mysql-token"
    /\ SemaphoreName (Request cfg) = "orders-alice"
    /\ Expires (Request cfg) = 65000000000%Z
    /\ context.Deadline retryCtx = Some 67000000000%Z.
Proof.
  destruct (cloudsql_lease_request
              (Sample.world None [] ClientDone) (Sample.engine None) Sample.ctx
              (Sample.session
                 (Sample.db Sample.CloudSQL "db.example.com:3306"
                    DatabaseTLSMode_VERIFY_FULL) None)
              Sample.tlsConfig eq_refl eq_refl eq_refl)
    as (retryCtx & cfg & deadline & Hacq & Hkind & Hname & _ & Hexp & _ & _
        & Hctx & _).
  exists retryCtx, cfg. subst retryCtx.
  split; [ exact Hacq | ]. split; [ exact Hkind | ]. split; [ exact Hname | ].
  split; [ exact Hexp | reflexivity ].
Defined.

(** C4 as stated fails: the lease a Cloud SQL session asks for is not of
    kind ["provider-token"]. *)
Lemma lease_kind_is_not_provider_token :
  ~ (exists (retryCtx : Context) (cfg : AcquireSemaphoreWithRetryConfig),
       In (retryCtx, cfg)
          (acquisitions
             (events (connect (Sample.world None [] ClientDone)
                        (Sample.engine None) Sample.ctx
                        (Sample.session
                           (Sample.db Sample.CloudSQL "db.example.com:3306"
                              DatabaseTLSMode_VERIFY_FULL) None))))
       /\ SemaphoreKind (Request cfg) = "provider-token").
Proof.
  intros (retryCtx & cfg & Hin & Hkind).
  cbn in Hin. destruct Hin as [Heq | []].
  injection Heq as _ <-. discriminate Hkind.
Qed.

(** ** C5: rate-limited connection failures *)

(** C5.  When the session is authorized and [connect] fails with [err],
    [HandleConnection] returns an error that is limit-exceeded exactly
    when [err] is: for a limit-exceeded [err] it is the fixed
    try-again-later error, for any other [err] it is [err] wrapped. *)
Theorem limit_exceeded_is_told_apart (w : World) (e : Engine) (ctx : Context)
    (s : Session) (err : error) :
  returned (checkAccess w e ctx s) = None ->
  returned (connect w e ctx s) = Err err ->
  exists out : error,
    returned (HandleConnection w e ctx s) = Some out
    /\ trace.IsLimitExceeded out = trace.IsLimitExceeded err
    /\ (trace.IsLimitExceeded err = true ->
        out = trace.LimitExceeded
                "could not connect to the database, please try again later"
        /\ trace.Error out
           = "could not connect to the database, please try again later")
    /\ (trace.IsLimitExceeded err = false -> out = trace.Wrap err).
Proof.
  intros Hauth Hconn.
  unfold HandleConnection.
  destruct (checkAccess w e ctx s) as [tr_a r_a].
  destruct (connect w e ctx s) as [tr_c r_c].
  unfold returned in *; cbn [fst snd] in *. subst r_a r_c.
  cbn [bind fst snd].
  destruct (trace.IsLimitExceeded err) eqn:Hlim; unfold ret; cbn [fst snd];
    eexists; (split; [ reflexivity | ]).
  - repeat split; try reflexivity; discriminate.
  - rewrite IsLimitExceeded_Wrap.
    repeat split; try assumption; try reflexivity; discriminate.
Qed.

Lemma limit_exceeded_is_told_apart_witness :
  returned (HandleConnection
              (Sample.world (Some (trace.LimitExceededError "quota exhausted"))
                 [] ClientDone)
              (Sample.engine None) Sample.ctx
              (Sample.session
                 (Sample.db Sample.Generic_ "db.example.com:3306"
                    DatabaseTLSMode_VERIFY_FULL) None))
  = Some (trace.LimitExceeded
            "could not connect to the database, please try again later").
Proof.
  destruct (limit_exceeded_is_told_apart
              (Sample.world (Some (trace.LimitExceededError "quota exhausted"))
                 [] ClientDone)
              (Sample.engine None) Sample.ctx
              (Sample.session
                 (Sample.db Sample.Generic_ "db.example.com:3306"
                    DatabaseTLSMode_VERIFY_FULL) None)
              (trace.TraceErr (trace.LimitExceededError "quota exhausted"))
              eq_refl eq_refl)
    as (out & Hret & _ & Hlim & _).
  destruct (Hlim eq_refl) as (-> & _). exact Hret.
Defined.

(** ** C6: access denied by an RDS backend *)










(** ** C7 and C9: after the backend connection is established *)

Lemma checkAccess_no_relay (w : World) (e : Engine) (ctx : Context) (s : Session) :
  existsb isSessionEnd (events (checkAccess w e ctx s)) = false
  /\ existsb isGo (events (checkAccess w e ctx s)) = false
  /\ existsb isServerConnClose (events (checkAccess w e ctx s)) = false.
Proof.
  rewrite checkAccess_cases.
  repeat (branch; cbn [events fst]); repeat split; reflexivity.
Qed.

(** How [HandleConnection] runs once [connect] has returned a
    connection. *)
Lemma HandleConnection_connected (w : World) (e : Engine) (ctx : Context)
    (s : Session) (conn : ClientConn) :
  returned (checkAccess w e ctx s) = None ->
  returned (connect w e ctx s) = Ok conn ->
  HandleConnection w e ctx s
  = match WriteOK (proxyConn e) with
    | Some err =>
        (events (checkAccess w e ctx s) ++ events (connect w e ctx s)
           ++ [EvWriteOK; EvServerConnClose conn] ++ closeFailure w conn,
         Some (trace.Wrap err))
    | None =>
        (events (checkAccess w e ctx s) ++ events (connect w e ctx s)
           ++ [EvWriteOK; EvOnSessionStart (e_Context e) s None;
               EvGo clientErrCh; EvGo serverErrCh; sessionOver w e s;
               EvOnSessionEnd (e_Context e) s; EvServerConnClose conn]
           ++ closeFailure w conn,
         None)
    end.
Proof.
  intros Hauth Hconn.
  unfold HandleConnection, closeFailure, sessionOver.
  destruct (checkAccess w e ctx s) as [tr_a r_a].
  destruct (connect w e ctx s) as [tr_c r_c].
  unfold events, returned in *; cbn [fst snd] in *. subst r_a r_c.
  unfold defer, call, emit, ret; cbn [bind fst snd app].
  destruct (WriteOK (proxyConn e)); cbn [bind fst snd app];
    [ destruct (Conn_Close w conn) | destruct (selected w), (Conn_Close w conn) ];
    cbn [bind fst snd app]; reflexivity.
Qed.

(** C7.  Once [connect] has returned a connection, that connection is
    closed exactly once, as the last call [HandleConnection] makes (but
    for logging a failure to close), whether or not the OK reply could
    be written.  Once the OK reply is written and the relay tasks are
    started, [HandleConnection] returns [nil] whichever [select] case
    fires; an error a relay task sent on its channel is logged and not
    returned, and the session-end audit and the close follow. *)
Theorem relay_end_is_not_an_error (w : World) (e : Engine) (ctx : Context)
    (s : Session) (conn : ClientConn) :
  returned (checkAccess w e ctx s) = None ->
  returned (connect w e ctx s) = Ok conn ->
  (exists before : list Event,
     events (HandleConnection w e ctx s)
     = before ++ EvServerConnClose conn :: closeFailure w conn
     /\ existsb isServerConnClose before = false)
  /\ (WriteOK (proxyConn e) = None ->
      returned (HandleConnection w e ctx s) = None
      /\ events (HandleConnection w e ctx s)
         = events (checkAccess w e ctx s) ++ events (connect w e ctx s)
             ++ [EvWriteOK; EvOnSessionStart (e_Context e) s None;
                 EvGo clientErrCh; EvGo serverErrCh; sessionOver w e s;
                 EvOnSessionEnd (e_Context e) s; EvServerConnClose conn]
             ++ closeFailure w conn).
Proof.
  intros Hauth Hconn.
  rewrite (HandleConnection_connected w e ctx s conn Hauth Hconn).
  destruct (checkAccess_no_relay w e ctx s) as (_ & _ & Ha).
  destruct (connect_no_audit w e ctx s) as (_ & _ & _ & Hc).
  split.
  - destruct (WriteOK (proxyConn e)) as [err |]; cbn [events fst].
    + exists (events (checkAccess w e ctx s) ++ events (connect w e ctx s)
              ++ [EvWriteOK]).
      split; [ now rewrite <- !app_assoc | ].
      rewrite !existsb_app, Ha, Hc. reflexivity.
    + exists (events (checkAccess w e ctx s) ++ events (connect w e ctx s)
              ++ [EvWriteOK; EvOnSessionStart (e_Context e) s None;
                  EvGo clientErrCh; EvGo serverErrCh; sessionOver w e s;
                  EvOnSessionEnd (e_Context e) s]).
      split; [ now rewrite <- !app_assoc | ].
      rewrite !existsb_app, Ha, Hc. unfold sessionOver.
      destruct (selected w); reflexivity.
  - intros ->. split; reflexivity.
Qed.

Lemma relay_end_is_not_an_error_witness :
  returned (HandleConnection
              (Sample.world None [Err (trace.PlainError "connection reset by peer")]
                 ClientDone)
              (Sample.engine None) Sample.ctx
              (Sample.session
                 (Sample.db Sample.Generic_ "db.example.com:3306"
                    DatabaseTLSMode_VERIFY_FULL) None))
  = None
  /\ sessionOver
       (Sample.world None [Err (trace.PlainError "connection reset by peer")]
          ClientDone)
       (Sample.engine None)
       (Sample.session
          (Sample.db Sample.Generic_ "db.example.com:3306"
             DatabaseTLSMode_VERIFY_FULL) None)
     = EvLog DebugLevel "Client done."
         (Some (trace.PlainError "connection reset by peer")).
Proof.
  destruct (relay_end_is_not_an_error
              (Sample.world None [Err (trace.PlainError "connection reset by peer")]
                 ClientDone)
              (Sample.engine None) Sample.ctx
              (Sample.session
                 (Sample.db Sample.Generic_ "db.example.com:3306"
                    DatabaseTLSMode_VERIFY_FULL) None)
              {| Conn := packet_NewConn "db.example.com:3306";
                 tlsConfig := Some Sample.tlsConfig |}
              eq_refl eq_refl)
    as (_ & Hrelay).
  destruct (Hrelay eq_refl) as (Hret & _).
  split; [ exact Hret | reflexivity ].
Defined.

(** C9.  When [connect] has returned a connection and writing the OK
    reply fails with [err], [HandleConnection] returns [err] wrapped; it
    makes no call after [WriteOK] but the close of the backend
    connection, so the session is audited neither as started nor as
    ended and no relay task is started. *)
Theorem ready_reply_failure (w : World) (e : Engine) (ctx : Context)
    (s : Session) (conn : ClientConn) (err : error) :
  returned (checkAccess w e ctx s) = None ->
  returned (connect w e ctx s) = Ok conn ->
  WriteOK (proxyConn e) = Some err ->
  returned (HandleConnection w e ctx s) = Some (trace.Wrap err)
  /\ trace.Unwrap (trace.Wrap err) = trace.Unwrap err
  /\ events (HandleConnection w e ctx s)
     = events (checkAccess w e ctx s) ++ events (connect w e ctx s)
         ++ [EvWriteOK; EvServerConnClose conn] ++ closeFailure w conn
  /\ sessionStarts (events (HandleConnection w e ctx s)) = []
  /\ existsb isSessionEnd (events (HandleConnection w e ctx s)) = false
  /\ existsb isGo (events (HandleConnection w e ctx s)) = false.
Proof.
  intros Hauth Hconn Hwrite.
  rewrite (HandleConnection_connected w e ctx s conn Hauth Hconn), Hwrite.
  destruct (checkAccess_no_relay w e ctx s) as (Hae & Hag & _).
  destruct (connect_no_audit w e ctx s) as (Hcs & Hce & Hcg & _).
  pose proof (checkAccess_None_no_sessionStart w e ctx s Hauth) as Has.
  cbn [events returned fst snd].
  split; [ reflexivity | ]. split; [ apply Unwrap_Wrap | ].
  split; [ reflexivity | ].
  unfold closeFailure.
  rewrite !sessionStarts_app, !existsb_app, Has, Hcs, Hae, Hce, Hag, Hcg.
  destruct (Conn_Close w conn); repeat split; reflexivity.
Qed.

Lemma ready_reply_failure_witness :
  returned (HandleConnection
              (Sample.world None [] ClientDone)
              (Sample.engine (Some (trace.PlainError "broken pipe"))) Sample.ctx
              (Sample.session
                 (Sample.db Sample.Generic_ "db.example.com:3306"
                    DatabaseTLSMode_VERIFY_FULL) None))
  = Some (trace.TraceErr (trace.PlainError "broken pipe"))
  /\ sessionStarts
       (events (HandleConnection
                  (Sample.world None [] ClientDone)
                  (Sample.engine (Some (trace.PlainError "broken pipe"))) Sample.ctx
                  (Sample.session
                     (Sample.db Sample.Generic_ "db.example.com:3306"
                        DatabaseTLSMode_VERIFY_FULL) None)))
     = [].
Proof.
  destruct (ready_reply_failure
              (Sample.world None [] ClientDone)
              (Sample.engine (Some (trace.PlainError "broken pipe"))) Sample.ctx
              (Sample.session
                 (Sample.db Sample.Generic_ "db.example.com:3306"
                    DatabaseTLSMode_VERIFY_FULL) None)
              {| Conn := packet_NewConn "db.example.com:3306";
                 tlsConfig := Some Sample.tlsConfig |}
              (trace.PlainError "broken pipe")
              eq_refl eq_refl eq_refl)
    as (Hret & _ & _ & Hstarts & _).
  split; [ exact Hret | exact Hstarts ].
Defined.

(** ** C10: the Cloud SQL side-channel TLS handshake *)

Lemma tlsDials_app (tr1 tr2 : list Event) :
  tlsDials (tr1 ++ tr2) = tlsDials tr1 ++ tlsDials tr2.
Proof.
  induction tr1 as [| ev tr1 IH]; [ reflexivity | ].
  destruct ev; cbn [app tlsDials]; now rewrite IH.
Qed.

Lemma tlsDials_client_Connect (w : World) (addr user password dbName : string)
    (opt : ClientOption) :
  tlsDials (events (client_Connect w addr user password dbName opt)) = [].
Proof.
  unfold client_Connect, runClientOption, call, emit, ret, events;
    cbn [bind fst snd app].
  repeat (branch; cbn [bind fst snd app]); reflexivity.
Qed.

(** The address [cloudSQLDialURI] picks, in the claim's terms. *)
Lemma cloudSQLDialURI_port (uri : string) :
  (forall host : string,
     net.SplitHostPort uri = Ok (host, "3306") ->
     returned (cloudSQLDialURI uri) = net.JoinHostPort host "3307")
  /\ (forall host port : string,
        net.SplitHostPort uri = Ok (host, port) ->
        port <> "3306" ->
        returned (cloudSQLDialURI uri) = uri)
  /\ (forall err : error,
        net.SplitHostPort uri = Err err ->
        returned (cloudSQLDialURI uri) = uri).
Proof.
  unfold cloudSQLDialURI.
  repeat split.
  - intros host ->. reflexivity.
  - intros host port -> Hport. apply String.eqb_neq in Hport. now rewrite Hport.
  - intros err ->. reflexivity.
Qed.

(** What the [overrideConnOpt] closure does to the connection the client
    library made: it closes that connection's socket and puts the TLS
    connection in its place. *)
Lemma overrideConnOpt_replaces (tlsconn : TLSConn) (c : ClientConn) :
  events (runClientOption (overrideConnOpt tlsconn) c) = [EvPacketConnClose (Conn c)]
  /\ Conn (returned (runClientOption (overrideConnOpt tlsconn) c))
     = packet_NewTLSConn tlsconn.
Proof. split; reflexivity. Qed.

(** C10.  On the secure Cloud SQL path (lease and one-time password
    obtained, TLS mode not insecure) [connect] calls [tls.Dial] once.
    It dials the host at port 3307 when the URI splits into a host and
    the port 3306, and the URI itself when the port is any other or the
    URI does not split.  When that dial succeeds, [client.Connect] is
    called on the unchanged URI with the closure that closes the socket
    the library opened and installs the TLS connection, which is the
    socket of the connection [connect] returns. *)
Theorem cloudsql_side_channel_port (w : World) (e : Engine) (ctx : Context)
    (s : Session) (config : TLSConfig) (lease : SemaphoreLease)
    (password : string) :
  IsRDS (database s) = false ->
  IsCloudSQL (database s) = true ->
  GetTLSConfig (e_Auth e) ctx s = Ok config ->
  services_AcquireSemaphoreWithRetry w
    (context.WithTimeout (time_Now w) ctx (defaults_DatabaseConnectTimeout w))
    (makeAcquireSemaphoreConfig e s) = Ok lease ->
  GetCloudSQLPassword (e_Auth e) ctx s = Ok password ->
  Mode (GetTLS (database s)) <> DatabaseTLSMode_INSECURE ->
  exists target : string,
    tlsDials (events (connect w e ctx s)) = [target]
    /\ (forall host : string,
          net.SplitHostPort (GetURI (database s)) = Ok (host, "3306") ->
          target = net.JoinHostPort host "3307")
    /\ (forall host port : string,
          net.SplitHostPort (GetURI (database s)) = Ok (host, port) ->
          port <> "3306" ->
          target = GetURI (database s))
    /\ (forall err : error,
          net.SplitHostPort (GetURI (database s)) = Err err ->
          target = GetURI (database s))
    /\ (tls_Dial w "tcp" target config = None ->
        let tlsconn :=
          {| tlsNetwork := "tcp"; tlsAddr := target; tlsConfigOf := config |} in
        clientConnects (events (connect w e ctx s))
        = [(GetURI (database s), DatabaseUser s, password, DatabaseName s,
            overrideConnOpt tlsconn)]
        /\ (forall c : ClientConn,
              events (runClientOption (overrideConnOpt tlsconn) c)
              = [EvPacketConnClose (Conn c)]
              /\ Conn (returned (runClientOption (overrideConnOpt tlsconn) c))
                 = packet_NewTLSConn tlsconn)
        /\ (forall conn : ClientConn,
              returned (connect w e ctx s) = Ok conn ->
              Conn conn = packet_NewTLSConn tlsconn
              /\ In (EvPacketConnClose (packet_NewConn (GetURI (database s))))
                    (events (connect w e ctx s)))).
Proof.
  intros Hrds Hcloud Htls Hlease Hpw Hmode.
  assert (Hsecure : negb (DatabaseTLSMode_eqb (Mode (GetTLS (database s)))
                            DatabaseTLSMode_INSECURE) = true).
  { destruct (Mode (GetTLS (database s))); [ reflexivity | | reflexivity ].
    now contradiction Hmode. }
  destruct (cloudSQLDialURI_port (GetURI (database s))) as (H3306 & Hother & Hnosplit).
  exists (returned (cloudSQLDialURI (GetURI (database s)))).
  split; [ | split; [ exact H3306 | split; [ exact Hother | split; [ exact Hnosplit | ] ] ] ].
  all: unfold connect, client_Connect, runClientOption, cloudSQLDialURI, defer,
         call, emit, ret, events, returned;
       rewrite Htls; cbn [bind fst snd app]; rewrite Hrds, Hcloud;
       cbn [bind fst snd app]; rewrite Hlease; cbn [bind fst snd app];
       rewrite Hpw; cbn [bind fst snd app]; rewrite Hsecure;
       repeat (branch; cbn [bind fst snd app]);
       try reflexivity;
       intros Hdial; try discriminate Hdial;
       (split; [ reflexivity | split; [ intros c; split; reflexivity | ] ]);
       intros conn Hconn; try discriminate Hconn;
       injection Hconn as <-; (split; [ reflexivity | in_list ]).
Qed.

Lemma cloudsql_side_channel_port_witness :
  tlsDials
    (events (connect (Sample.world None [] ClientDone) (Sample.engine None)
               Sample.ctx
               (Sample.session
                  (Sample.db Sample.CloudSQL "db.example.com:3306"
                     DatabaseTLSMode_VERIFY_FULL) None)))
  = ["db.example.com:3307"]
  /\ tlsDials
       (events (connect (Sample.world None [] ClientDone) (Sample.engine None)
                  Sample.ctx
                  (Sample.session
                     (Sample.db Sample.CloudSQL "db.example.com:5432"
                        DatabaseTLSMode_VERIFY_CA) None)))
     = ["db.example.com:5432"].
Proof.
  split.
  - destruct (cloudsql_side_channel_port
                (Sample.world None [] ClientDone) (Sample.engine None) Sample.ctx
                (Sample.session
                   (Sample.db Sample.CloudSQL "db.example.com:3306"
                      DatabaseTLSMode_VERIFY_FULL) None)
                Sample.tlsConfig Sample.lease "one-time-password"
                eq_refl eq_refl eq_refl eq_refl eq_refl
                ltac:(discriminate))
      as (target & Hdials & H3306 & _).
    rewrite Hdials, (H3306 "db.example.com" eq_refl). reflexivity.
  - reflexivity.
Defined.

(** [net.SplitHostPort] and [net.JoinHostPort] on sample addresses. *)
Example SplitHostPort_name : net.SplitHostPort "db.example.com:3306"
                             = Ok ("db.example.com", "3306").
Proof. reflexivity. Qed.

Example SplitHostPort_ipv6 : net.SplitHostPort "[::1]:3306" = Ok ("::1", "3306").
Proof. reflexivity. Qed.

Example SplitHostPort_no_port :
  net.SplitHostPort "db.example.com"
  = Err (trace.PlainError "address db.example.com: missing port in address").
Proof. reflexivity. Qed.

Example JoinHostPort_ipv6 : net.JoinHostPort "::1" "3307" = "[::1]:3307".
Proof. reflexivity. Qed.

(** An Azure session logs in to the backend as [user@server-name]. *)
Example azure_login_principal :
  clientConnects
    (events (connect (Sample.world None [] ClientDone) (Sample.engine None)
               Sample.ctx
               (Sample.session
                  (Sample.db Sample.AzureDB "db.example.com:3306"
                     DatabaseTLSMode_VERIFY_FULL) None)))
  = [("db.example.com:3306", "alice@my-server", "azure-token", "sales",
      setTLSConfigOpt Sample.tlsConfig)].
Proof. reflexivity. Qed.

(** * Further properties of the engine *)

(** ** The two relay tasks *)

Lemma sends_app (tr1 tr2 : list Event) : sends (tr1 ++ tr2) = sends tr1 ++ sends tr2.
Proof.
  induction tr1 as [| ev tr1 IH]; [ reflexivity | ].
  destruct ev; cbn [app sends]; now rewrite IH.
Qed.

Lemma closes_app (tr1 tr2 : list Event) :
  closes (tr1 ++ tr2) = closes tr1 ++ closes tr2.
Proof.
  induction tr1 as [| ev tr1 IH]; [ reflexivity | ].
  destruct ev; cbn [app closes]; now rewrite IH.
Qed.

(** The server relay hands the client, in order and unchanged, the first
    packets read from the server, and writes nothing to the server. *)
Theorem server_relay_writes_prefix (w : World) :
  exists (forwarded later : list bytes),
    readOk (fromServer w) = forwarded ++ later
    /\ writesTo clientConn (events (receiveFromServer w)) = forwarded
    /\ writesTo serverConn (events (receiveFromServer w)) = [].
Proof.
  assert (Hloop : forall input n,
            exists forwarded later,
              readOk input = forwarded ++ later
              /\ writesTo clientConn (events (receiveFromServer_loop w input n))
                 = forwarded
              /\ writesTo serverConn (events (receiveFromServer_loop w input n)) = []).
  { induction input as [| r input IH]; intros n.
    - exists [], []. cbn [receiveFromServer_loop]. unfold emit.
      destruct (utils_IsOKNetworkError w io_EOF); repeat split; reflexivity.
    - destruct r as [packet | err].
      + destruct (IH (S n)) as (forwarded & later & Hread & Hwr & Hnone).
        cbn [receiveFromServer_loop readOk]. unfold call, emit, ret.
        cbn [bind fst snd app].
        destruct (WritePacket w clientConn n packet).
        * exists [packet], (readOk input). repeat split; reflexivity.
        * exists (packet :: forwarded), later.
          destruct (receiveFromServer_loop w input (S n)) as [tr u].
          unfold events in *; cbn [fst snd app writesTo] in *.
          rewrite Hread, Hwr, Hnone. repeat split; reflexivity.
      + exists [], []. cbn [receiveFromServer_loop]. unfold emit.
        destruct (utils_IsOKNetworkError w err); repeat split; reflexivity. }
  destruct (Hloop (fromServer w) 0) as (forwarded & later & Hread & Hwr & Hnone).
  exists forwarded, later. split; [ exact Hread | ].
  unfold receiveFromServer, defer. rewrite !events_bind, !writesTo_app, Hwr, Hnone.
  cbn. now rewrite app_nil_r.
Qed.

Lemma sendsLast_cons (ch : Chan) (ev : Event) (body : list Event) :
  sends [ev] = [] -> sendsLast ch body -> sendsLast ch (ev :: body).
Proof.
  intros Hev [Hnone | (before & err & -> & Hnone)].
  - left. change (ev :: body) with ([ev] ++ body). now rewrite sends_app, Hev, Hnone.
  - right. exists (ev :: before), err. split; [ reflexivity | ].
    change (ev :: before) with ([ev] ++ before). now rewrite sends_app, Hev, Hnone.
Qed.

Lemma readFailure_signal (w : World) (ch : Chan) (closed failed : string)
    (err : error) :
  closes (readFailure w ch closed failed err) = []
  /\ sendsLast ch (readFailure w ch closed failed err).
Proof.
  unfold readFailure. destruct (utils_IsOKNetworkError w err).
  - split; [ reflexivity | left; reflexivity ].
  - split; [ reflexivity | right ].
    exists [EvLog ErrorLevel failed (Some err)], err. split; reflexivity.
Qed.

(** The client relay never blocks on its completion channel and signals
    its end exactly once: whatever the client sends and whichever writes
    fail, it sends at most one error, on [clientErrCh], and then closes
    [clientErrCh], once, as its last call. *)
Theorem client_relay_completion_signal (w : World) (e : Engine) (s : Session) :
  exists body : list Event,
    events (receiveFromClient w e s)
    = body ++ [EvLog DebugLevel "Stop receiving from client." None;
               EvClose clientErrCh]
    /\ closes body = []
    /\ sendsLast clientErrCh body.
Proof.
  assert (Hloop : forall input n,
            closes (events (receiveFromClient_loop w e s input n)) = []
            /\ sendsLast clientErrCh (events (receiveFromClient_loop w e s input n))).
  { assert (Hfail : forall err,
              events (if utils_IsOKNetworkError w err
                      then emit (EvLog DebugLevel "Client connection closed." None)
                      else emit (EvLog ErrorLevel "Failed to read client packet."
                                   (Some err)) ;;
                           emit (EvSend clientErrCh err))%run
              = readFailure w clientErrCh "Client connection closed."
                  "Failed to read client packet." err).
    { intros err. unfold readFailure.
      now destruct (utils_IsOKNetworkError w err). }
    induction input as [| r input IH]; intros n.
    - cbn [receiveFromClient_loop]. rewrite Hfail. apply readFailure_signal.
    - destruct r as [p | err];
        [ | cbn [receiveFromClient_loop]; rewrite Hfail; apply readFailure_signal ].
      destruct (IH (S n)) as (Hc & Hs).
      cbn [receiveFromClient_loop].
      destruct p; unfold call, emit, ret; cbn [bind fst snd app Bytes].
      1, 4: destruct (WritePacket w serverConn n raw) as [err |];
        [ cbn [bind fst snd app events closes];
          split; [ reflexivity | ];
          repeat (apply sendsLast_cons; [ reflexivity | ]);
          right; exists [], err; split; reflexivity
        | destruct (receiveFromClient_loop w e s input (S n)) as [tr u];
          unfold events in *; cbn [fst snd app closes] in *;
          split; [ exact Hc | ];
          repeat (apply sendsLast_cons; [ reflexivity | ]); exact Hs ].
      all: cbn [events fst closes]; split; [ reflexivity | left; reflexivity ]. }
  destruct (Hloop (fromClient w) 0) as (Hc & Hs).
  exists (events (receiveFromClient_loop w e s (fromClient w) 0)).
  split; [ | split; [ exact Hc | exact Hs ] ].
  unfold receiveFromClient, defer. rewrite !events_bind. reflexivity.
Qed.

(** The server relay signals its end in the same way on
    [serverErrCh]. *)
Theorem server_relay_completion_signal (w : World) :
  exists body : list Event,
    events (receiveFromServer w)
    = body ++ [EvLog DebugLevel "Stop receiving from server." None;
               EvClose serverErrCh]
    /\ closes body = []
    /\ sendsLast serverErrCh body.
Proof.
  assert (Hloop : forall input n,
            closes (events (receiveFromServer_loop w input n)) = []
            /\ sendsLast serverErrCh (events (receiveFromServer_loop w input n))).
  { assert (Hfail : forall err,
              events (if utils_IsOKNetworkError w err
                      then emit (EvLog DebugLevel "Server connection closed." None)
                      else emit (EvLog ErrorLevel "Failed to read server packet."
                                   (Some err)) ;;
                           emit (EvSend serverErrCh err))%run
              = readFailure w serverErrCh "Server connection closed."
                  "Failed to read server packet." err).
    { intros err. unfold readFailure.
      now destruct (utils_IsOKNetworkError w err). }
    induction input as [| r input IH]; intros n.
    - cbn [receiveFromServer_loop]. rewrite Hfail. apply readFailure_signal.
    - destruct r as [packet | err];
        [ | cbn [receiveFromServer_loop]; rewrite Hfail; apply readFailure_signal ].
      destruct (IH (S n)) as (Hc & Hs).
      cbn [receiveFromServer_loop].
      unfold call, emit, ret; cbn [bind fst snd app].
      destruct (WritePacket w clientConn n packet) as [err |].
      + cbn [bind fst snd app events closes]. split; [ reflexivity | ].
        repeat (apply sendsLast_cons; [ reflexivity | ]).
        right. exists [], err. split; reflexivity.
      + destruct (receiveFromServer_loop w input (S n)) as [tr u].
        unfold events in *; cbn [fst snd app closes] in *.
        split; [ exact Hc | ].
        apply sendsLast_cons; [ reflexivity | exact Hs ]. }
  destruct (Hloop (fromServer w) 0) as (Hc & Hs).
  exists (events (receiveFromServer_loop w (fromServer w) 0)).
  split; [ | split; [ exact Hc | exact Hs ] ].
  unfold receiveFromServer, defer. rewrite !events_bind. reflexivity.
Qed.

Lemma received_sends_nil (ch : Chan) (tr : list Event) :
  sends tr = [] -> received ch tr = None.
Proof.
  induction tr as [| ev tr IH]; [ reflexivity | ].
  destruct ev; cbn [sends received]; try exact IH. discriminate.
Qed.

Lemma readFailure_effect (w : World) (ch : Chan) (closed failed : string)
    (err : error) (tr : list Event) :
  sends tr = [] ->
  received ch (readFailure w ch closed failed err ++ tr)
  = (if utils_IsOKNetworkError w err then None else Some err)
  /\ forall dst : Peer,
       writesTo dst (readFailure w ch closed failed err ++ tr) = writesTo dst tr.
Proof.
  intros Htr. unfold readFailure.
  destruct (utils_IsOKNetworkError w err); cbn [app received writesTo].
  - split; [ now apply received_sends_nil | reflexivity ].
  - destruct ch; cbn [Chan_eqb]; split; reflexivity.
Qed.

Lemma client_loop_failedRead (w : World) (e : Engine) (s : Session)
    (tail : list (result Packet)) (n : nat) (err : error) :
  failedRead tail = Some err ->
  events (receiveFromClient_loop w e s tail n)
  = readFailure w clientErrCh "Client connection closed."
      "Failed to read client packet." err.
Proof.
  unfold readFailure.
  destruct tail as [| [p | err'] rest]; cbn [failedRead]; intros Hfail;
    try discriminate Hfail; injection Hfail as <-;
    cbn [receiveFromClient_loop]; unfold emit;
    now destruct (utils_IsOKNetworkError w _).
Qed.

(** When a read from the client fails after the relay got past the
    units before it (the client's traffic is over, or the read returns
    an error), the task ends without reading or writing anything more.
    A closed connection is an ordinary end: nothing is sent on the
    completion channel.  Any other error is sent on it, once. *)
Theorem client_read_failure_outcome (w : World) (e : Engine) (s : Session)
    (pre tail : list (result Packet)) (err : error) :
  fromClient w = pre ++ tail ->
  relayed w pre 0 = true ->
  failedRead tail = Some err ->
  events (receiveFromClient w e s)
  = relayCalls e s (decoded pre)
      ++ readFailure w clientErrCh "Client connection closed."
           "Failed to read client packet." err
      ++ [EvLog DebugLevel "Stop receiving from client." None; EvClose clientErrCh]
  /\ received clientErrCh (events (receiveFromClient w e s))
     = (if utils_IsOKNetworkError w err then None else Some err)
  /\ writesTo serverConn (events (receiveFromClient w e s))
     = map Bytes (decoded pre).
Proof.
  intros Hin Hpre Hfail.
  assert (Hrun : events (receiveFromClient w e s)
                 = relayCalls e s (decoded pre)
                     ++ readFailure w clientErrCh "Client connection closed."
                          "Failed to read client packet." err
                     ++ [EvLog DebugLevel "Stop receiving from client." None;
                         EvClose clientErrCh]).
  { unfold receiveFromClient, defer.
    rewrite !events_bind, Hin, (receiveFromClient_loop_relayed w e s pre _ 0 Hpre).
    rewrite (client_loop_failedRead w e s tail _ err Hfail).
    now rewrite <- app_assoc. }
  destruct (readFailure_effect w clientErrCh "Client connection closed."
              "Failed to read client packet." err
              [EvLog DebugLevel "Stop receiving from client." None;
               EvClose clientErrCh] eq_refl) as (Hrecv & Hwrites).
  rewrite Hrun. split; [ reflexivity | split ].
  - rewrite received_app by apply received_relayCalls. exact Hrecv.
  - rewrite writesTo_app, writesTo_relayCalls, Hwrites. cbn [writesTo]. apply app_nil_r.
Qed.

Lemma client_read_failure_outcome_witness :
  received clientErrCh
    (events (receiveFromClient
               (Sample.world None
                  [Ok (Generic Sample.ping);
                   Err (trace.PlainError "connection reset by peer");
                   Ok (Generic Sample.ping)]
                  ClientDone)
               (Sample.engine None)
               (Sample.session
                  (Sample.db Sample.Generic_ "db.example.com:3306"
                     DatabaseTLSMode_VERIFY_FULL) None)))
  = Some (trace.PlainError "connection reset by peer")
  /\ received clientErrCh
       (events (receiveFromClient
                  (Sample.world None [Ok (Generic Sample.ping)] ClientDone)
                  (Sample.engine None)
                  (Sample.session
                     (Sample.db Sample.Generic_ "db.example.com:3306"
                        DatabaseTLSMode_VERIFY_FULL) None)))
     = None.
Proof.
  split.
  - exact (proj1 (proj2 (client_read_failure_outcome
                           (Sample.world None
                              [Ok (Generic Sample.ping);
                               Err (trace.PlainError "connection reset by peer");
                               Ok (Generic Sample.ping)]
                              ClientDone)
                           (Sample.engine None)
                           (Sample.session
                              (Sample.db Sample.Generic_ "db.example.com:3306"
                                 DatabaseTLSMode_VERIFY_FULL) None)
                           [Ok (Generic Sample.ping)]
                           [Err (trace.PlainError "connection reset by peer");
                            Ok (Generic Sample.ping)]
                           (trace.PlainError "connection reset by peer")
                           eq_refl eq_refl eq_refl))).
  - exact (proj1 (proj2 (client_read_failure_outcome
                           (Sample.world None [Ok (Generic Sample.ping)] ClientDone)
                           (Sample.engine None)
                           (Sample.session
                              (Sample.db Sample.Generic_ "db.example.com:3306"
                                 DatabaseTLSMode_VERIFY_FULL) None)
                           [Ok (Generic Sample.ping)] [] io_EOF
                           eq_refl eq_refl eq_refl))).
Defined.

(** When the write that forwards a unit to the backend fails, the
    client relay sends the write's error on its completion channel and
    ends: the units the client sent after it are neither audited nor
    written. *)
Theorem client_write_failure_outcome (w : World) (e : Engine) (s : Session)
    (pre rest : list (result Packet)) (p : Packet) (err : error) :
  fromClient w = pre ++ Ok p :: rest ->
  relayed w pre 0 = true ->
  passedOn p = true ->
  WritePacket w serverConn (List.length pre) (Bytes p) = Some err ->
  events (receiveFromClient w e s)
  = relayCalls e s (decoded pre ++ [p])
      ++ [EvLog ErrorLevel "Failed to write server packet." (Some err);
          EvSend clientErrCh err;
          EvLog DebugLevel "Stop receiving from client." None;
          EvClose clientErrCh]
  /\ received clientErrCh (events (receiveFromClient w e s)) = Some err
  /\ writesTo serverConn (events (receiveFromClient w e s))
     = map Bytes (decoded pre) ++ [Bytes p].
Proof.
  intros Hin Hpre Hp Hw.
  assert (Hcalls : forall units : list Packet,
            relayCalls e s (units ++ [p]) = relayCalls e s units ++ relayCalls e s [p]).
  { induction units as [| q units IH]; [ reflexivity | ].
    destruct q; cbn [app relayCalls]; now rewrite IH. }
  assert (Hrun : events (receiveFromClient w e s)
                 = relayCalls e s (decoded pre ++ [p])
                     ++ [EvLog ErrorLevel "Failed to write server packet." (Some err);
                         EvSend clientErrCh err;
                         EvLog DebugLevel "Stop receiving from client." None;
                         EvClose clientErrCh]).
  { unfold receiveFromClient, defer.
    rewrite !events_bind, Hin, (receiveFromClient_loop_relayed w e s pre _ 0 Hpre).
    rewrite Hcalls, <- !app_assoc. f_equal.
    cbn [receiveFromClient_loop Nat.add].
    destruct p; try discriminate;
      unfold call, emit, ret; cbn [bind fst snd app Bytes] in *;
      rewrite Hw; reflexivity. }
  rewrite Hrun. split; [ reflexivity | split ].
  - rewrite received_app by apply received_relayCalls. reflexivity.
  - rewrite writesTo_app, writesTo_relayCalls, map_app. cbn [writesTo map].
    now rewrite app_nil_r.
Qed.

Lemma client_write_failure_outcome_witness :
  writesTo serverConn
    (events (receiveFromClient
               {| defaults_DatabaseConnectTimeout := time.Minute;
                  defaults_ProtocolMySQL := "mysql";
                  common_ConvertError := fun err => err;
                  utils_IsOKNetworkError := fun _ => false;
                  strconv_Quote := fun s => s;
                  time_Now := 0%Z;
                  services_AcquireSemaphoreWithRetry := fun _ _ => Ok Sample.lease;
                  tls_Dial := fun _ _ _ => None;
                  net_DialTimeout := fun _ => None;
                  Conn_handshake := fun _ _ _ _ => None;
                  Conn_Close := fun _ => None;
                  fromClient :=
                    [Ok (Generic Sample.ping); Ok (Query Sample.select1 "SELECT 1");
                     Ok (Generic Sample.ping)];
                  fromServer := [];
                  WritePacket :=
                    fun _ n _ =>
                      if Nat.eqb n 1 then Some (trace.PlainError "broken pipe")
                      else None;
                  selected := ClientDone |}
               (Sample.engine None)
               (Sample.session
                  (Sample.db Sample.Generic_ "db.example.com:3306"
                     DatabaseTLSMode_VERIFY_FULL) None)))
  = [Sample.ping; Sample.select1].
Proof.
  exact (proj2 (proj2 (client_write_failure_outcome
                         {| defaults_DatabaseConnectTimeout := time.Minute;
                            defaults_ProtocolMySQL := "mysql";
                            common_ConvertError := fun err => err;
                            utils_IsOKNetworkError := fun _ => false;
                            strconv_Quote := fun s => s;
                            time_Now := 0%Z;
                            services_AcquireSemaphoreWithRetry :=
                              fun _ _ => Ok Sample.lease;
                            tls_Dial := fun _ _ _ => None;
                            net_DialTimeout := fun _ => None;
                            Conn_handshake := fun _ _ _ _ => None;
                            Conn_Close := fun _ => None;
                            fromClient :=
                              [Ok (Generic Sample.ping);
                               Ok (Query Sample.select1 "SELECT 1");
                               Ok (Generic Sample.ping)];
                            fromServer := [];
                            WritePacket :=
                              fun _ n _ =>
                                if Nat.eqb n 1
                                then Some (trace.PlainError "broken pipe")
                                else None;
                            selected := ClientDone |}
                         (Sample.engine None)
                         (Sample.session
                            (Sample.db Sample.Generic_ "db.example.com:3306"
                               DatabaseTLSMode_VERIFY_FULL) None)
                         [Ok (Generic Sample.ping)] [Ok (Generic Sample.ping)]
                         (Query Sample.select1 "SELECT 1")
                         (trace.PlainError "broken pipe")
                         eq_refl eq_refl eq_refl eq_refl))).
Defined.

Lemma receiveFromServer_loop_relayedBack (w : World) (pre rest : list (result bytes)) :
  forall n : nat,
    relayedBack w pre n = true ->
    events (receiveFromServer_loop w (pre ++ rest) n)
    = relayBackCalls (readOk pre)
        ++ events (receiveFromServer_loop w rest (n + List.length pre)).
Proof.
  induction pre as [| r pre IH]; intros n Hpre.
  - cbn [app List.length relayBackCalls readOk map]. now rewrite Nat.add_0_r.
  - destruct r as [packet | err]; [ | discriminate ].
    cbn [relayedBack] in Hpre.
    destruct (WritePacket w clientConn n packet) eqn:Hw; [ discriminate | ].
    specialize (IH (S n) Hpre).
    replace (n + List.length (Ok packet :: pre)) with (S n + List.length pre)
      by (cbn [List.length]; lia).
    rewrite <- app_comm_cons.
    cbn [receiveFromServer_loop readOk].
    unfold call, emit, ret, relayBackCalls in *; cbn [bind fst snd app map] in *.
    rewrite Hw.
    destruct (receiveFromServer_loop w (pre ++ rest) (S n)) as [tr u].
    unfold events in *; cbn [fst snd] in *. now rewrite IH.
Qed.

(** The server relay ends in the same two ways.  After passing on the
    packets before it, a failed read from the server ends the task,
    with the error sent on [serverErrCh] unless the connection was just
    closed; a failed write to the client ends it with the write's error
    sent.  In both cases nothing read later reaches the client. *)
Theorem server_relay_failure_outcome (w : World)
    (pre tail : list (result bytes)) :
  fromServer w = pre ++ tail ->
  relayedBack w pre 0 = true ->
  (forall err : error,
     failedRead tail = Some err ->
     received serverErrCh (events (receiveFromServer w))
     = (if utils_IsOKNetworkError w err then None else Some err)
     /\ writesTo clientConn (events (receiveFromServer w)) = readOk pre)
  /\ (forall (packet : bytes) (rest : list (result bytes)) (err : error),
        tail = Ok packet :: rest ->
        WritePacket w clientConn (List.length pre) packet = Some err ->
        received serverErrCh (events (receiveFromServer w)) = Some err
        /\ writesTo clientConn (events (receiveFromServer w))
           = readOk pre ++ [packet]).
Proof.
  intros Hin Hpre.
  assert (Hback : forall packets, writesTo clientConn (relayBackCalls packets) = packets).
  { induction packets as [| q packets IH]; [ reflexivity | ].
    cbn [relayBackCalls map writesTo]. f_equal. exact IH. }
  assert (Hnone : forall packets, received serverErrCh (relayBackCalls packets) = None).
  { induction packets as [| q packets IH]; [ reflexivity | exact IH ]. }
  assert (Hrun : events (receiveFromServer w)
                 = relayBackCalls (readOk pre)
                     ++ events (receiveFromServer_loop w tail (List.length pre))
                     ++ [EvLog DebugLevel "Stop receiving from server." None;
                         EvClose serverErrCh]).
  { unfold receiveFromServer, defer.
    rewrite !events_bind, Hin, (receiveFromServer_loop_relayedBack w pre _ 0 Hpre).
    now rewrite <- app_assoc. }
  rewrite Hrun. split.
  - intros err Hfail.
    assert (Hloop : events (receiveFromServer_loop w tail (List.length pre))
                    = readFailure w serverErrCh "Server connection closed."
                        "Failed to read server packet." err).
    { unfold readFailure.
      destruct tail as [| [p | err'] rest]; cbn [failedRead] in Hfail;
        try discriminate Hfail;
        injection Hfail as <-; cbn [receiveFromServer_loop]; unfold emit;
        now destruct (utils_IsOKNetworkError w _). }
    rewrite Hloop.
    destruct (readFailure_effect w serverErrCh "Server connection closed."
                "Failed to read server packet." err
                [EvLog DebugLevel "Stop receiving from server." None;
                 EvClose serverErrCh] eq_refl) as (Hrecv & Hwrites).
    split.
    + rewrite received_app by apply Hnone. exact Hrecv.
    + rewrite writesTo_app, Hback, Hwrites. cbn [writesTo]. apply app_nil_r.
  - intros packet rest err -> Hw.
    cbn [receiveFromServer_loop]. unfold call, emit, ret.
    cbn [bind fst snd app]. rewrite Hw. cbn [bind fst snd app events].
    split.
    + rewrite received_app by apply Hnone. reflexivity.
    + rewrite writesTo_app, Hback. reflexivity.
Qed.

Lemma server_relay_failure_outcome_witness :
  received serverErrCh
    (events (receiveFromServer (Sample.world None [] ClientDone)))
  = None
  /\ writesTo clientConn
       (events (receiveFromServer (Sample.world None [] ClientDone)))
     = [[Byte.x07; Byte.x00]].
Proof.
  exact (proj1 (server_relay_failure_outcome
                  (Sample.world None [] ClientDone)
                  [Ok [Byte.x07; Byte.x00]] [] eq_refl eq_refl)
           io_EOF eq_refl).
Defined.

(** ** More on [connect] *)

Lemma leaseCancels_app (tr1 tr2 : list Event) :
  leaseCancels (tr1 ++ tr2) = leaseCancels tr1 ++ leaseCancels tr2.
Proof.
  induction tr1 as [| ev tr1 IH]; [ reflexivity | ].
  destruct ev; cbn [app leaseCancels]; now rewrite IH.
Qed.

(** Splits a written-out list of calls in front of a given suffix. *)
Ltac split_before :=
  match goal with
  | |- exists body, ?l = body ++ ?suffix /\ _ =>
      exists (firstn (List.length l - List.length suffix) l);
      cbn [List.length Nat.sub firstn app]; split; [ reflexivity | ]
  end.

(** On the Cloud SQL path the lease, once acquired, is released on
    every way out of [connect]: whether the one-time password, the TLS
    dial or the connection to the database fail or succeed, the last
    calls of [connect] are the one [CancelSemaphoreLease] of that lease,
    the log of its failure if it fails, and the cancel of the retry
    context. *)
Theorem cloudsql_lease_released (w : World) (e : Engine) (ctx : Context)
    (s : Session) (config : TLSConfig) (lease : SemaphoreLease) :
  IsRDS (database s) = false ->
  IsCloudSQL (database s) = true ->
  GetTLSConfig (e_Auth e) ctx s = Ok config ->
  services_AcquireSemaphoreWithRetry w
    (context.WithTimeout (time_Now w) ctx (defaults_DatabaseConnectTimeout w))
    (makeAcquireSemaphoreConfig e s) = Ok lease ->
  exists body : list Event,
    events (connect w e ctx s)
    = body
        ++ EvCancelSemaphoreLease ctx lease
        :: releaseFailure e ctx lease
        ++ [EvCancel (context.WithTimeout (time_Now w) ctx
                        (defaults_DatabaseConnectTimeout w))]
    /\ leaseCancels body = []
    /\ clientConnects body = clientConnects (events (connect w e ctx s))
    /\ tlsDials body = tlsDials (events (connect w e ctx s)).
Proof.
  intros Hrds Hcloud Htls Hlease.
  unfold releaseFailure. run_connect.
  rewrite Htls; cbn [bind fst snd app]; rewrite Hrds, Hcloud;
    cbn [bind fst snd app]; rewrite Hlease; cbn [bind fst snd app].
  repeat (branch; cbn [bind fst snd app]);
    split_before; repeat split; reflexivity.
Qed.

Lemma cloudsql_lease_released_witness :
  leaseCancels
    (events (connect
               (Sample.world (Some (trace.PlainError "handshake failed")) [] ClientDone)
               (Sample.engine None) Sample.ctx
               (Sample.session
                  (Sample.db Sample.CloudSQL "db.example.com:3306"
                     DatabaseTLSMode_VERIFY_FULL) None)))
  = [Sample.lease].
Proof.
  destruct (cloudsql_lease_released
              (Sample.world (Some (trace.PlainError "handshake failed")) [] ClientDone)
              (Sample.engine None) Sample.ctx
              (Sample.session
                 (Sample.db Sample.CloudSQL "db.example.com:3306"
                    DatabaseTLSMode_VERIFY_FULL) None)
              Sample.tlsConfig Sample.lease eq_refl eq_refl eq_refl eq_refl)
    as (body & Hrun & Hnone & _).
  rewrite Hrun, leaseCancels_app, Hnone. reflexivity.
Defined.

(** When the lease cannot be acquired, [connect] fails with the
    acquisition's error wrapped: no password is reset, nothing is
    dialed and no lease is cancelled; only the retry context is. *)
Theorem cloudsql_lease_unavailable (w : World) (e : Engine) (ctx : Context)
    (s : Session) (config : TLSConfig) (err : error) :
  IsRDS (database s) = false ->
  IsCloudSQL (database s) = true ->
  GetTLSConfig (e_Auth e) ctx s = Ok config ->
  services_AcquireSemaphoreWithRetry w
    (context.WithTimeout (time_Now w) ctx (defaults_DatabaseConnectTimeout w))
    (makeAcquireSemaphoreConfig e s) = Err err ->
  connect w e ctx s
  = ([EvGetTLSConfig ctx;
      EvAcquireSemaphoreWithRetry
        (context.WithTimeout (time_Now w) ctx (defaults_DatabaseConnectTimeout w))
        (makeAcquireSemaphoreConfig e s);
      EvCancel (context.WithTimeout (time_Now w) ctx
                  (defaults_DatabaseConnectTimeout w))],
     Err (trace.Wrap err)).
Proof.
  intros Hrds Hcloud Htls Hlease.
  unfold connect, defer, call, emit, ret.
  rewrite Htls; cbn [bind fst snd app]; rewrite Hrds, Hcloud;
    cbn [bind fst snd app]; rewrite Hlease; reflexivity.
Qed.

Lemma cloudsql_lease_unavailable_witness :
  returned
    (connect
       {| defaults_DatabaseConnectTimeout := time.Minute;
          defaults_ProtocolMySQL := "mysql";
          common_ConvertError := fun err => err;
          utils_IsOKNetworkError := fun _ => false;
          strconv_Quote := fun s => s;
          time_Now := 0%Z;
          services_AcquireSemaphoreWithRetry :=
            fun _ _ => Err (trace.LimitExceededError "too many leases");
          tls_Dial := fun _ _ _ => None;
          net_DialTimeout := fun _ => None;
          Conn_handshake := fun _ _ _ _ => None;
          Conn_Close := fun _ => None;
          fromClient := [];
          fromServer := [];
          WritePacket := fun _ _ _ => None;
          selected := ClientDone |}
       (Sample.engine None) Sample.ctx
       (Sample.session
          (Sample.db Sample.CloudSQL "db.example.com:3306"
             DatabaseTLSMode_VERIFY_FULL) None))
  = Err (trace.TraceErr (trace.LimitExceededError "too many leases")).
Proof.
  exact (f_equal returned
           (cloudsql_lease_unavailable
              {| defaults_DatabaseConnectTimeout := time.Minute;
                 defaults_ProtocolMySQL := "mysql";
                 common_ConvertError := fun err => err;
                 utils_IsOKNetworkError := fun _ => false;
                 strconv_Quote := fun s => s;
                 time_Now := 0%Z;
                 services_AcquireSemaphoreWithRetry :=
                   fun _ _ => Err (trace.LimitExceededError "too many leases");
                 tls_Dial := fun _ _ _ => None;
                 net_DialTimeout := fun _ => None;
                 Conn_handshake := fun _ _ _ _ => None;
                 Conn_Close := fun _ => None;
                 fromClient := [];
                 fromServer := [];
                 WritePacket := fun _ _ _ => None;
                 selected := ClientDone |}
              (Sample.engine None) Sample.ctx
              (Sample.session
                 (Sample.db Sample.CloudSQL "db.example.com:3306"
                    DatabaseTLSMode_VERIFY_FULL) None)
              Sample.tlsConfig (trace.LimitExceededError "too many leases")
              eq_refl eq_refl eq_refl eq_refl)).
Defined.

(** For an Azure database (one that is neither RDS nor Cloud SQL)
    [connect] logs in as [user@server-name] with the access token as
    the password; it acquires no lease and makes no TLS dial of its
    own. *)
Theorem azure_login_as_user_at_server (w : World) (e : Engine) (ctx : Context)
    (s : Session) (config : TLSConfig) (token : string) :
  IsRDS (database s) = false ->
  IsCloudSQL (database s) = false ->
  IsAzure (database s) = true ->
  GetTLSConfig (e_Auth e) ctx s = Ok config ->
  GetAzureAccessToken (e_Auth e) ctx s = Ok token ->
  clientConnects (events (connect w e ctx s))
  = [(GetURI (database s),
      (DatabaseUser s ++ "@" ++ Name (GetAzure (database s)))%string,
      token, DatabaseName s, setTLSConfigOpt config)]
  /\ acquisitions (events (connect w e ctx s)) = []
  /\ tlsDials (events (connect w e ctx s)) = [].
Proof.
  intros Hrds Hcloud Hazure Htls Htoken.
  run_connect.
  rewrite Htls; cbn [bind fst snd app]; rewrite Hrds, Hcloud, Hazure;
    cbn [bind fst snd app]; rewrite Htoken; cbn [bind fst snd app].
  repeat (branch; cbn [bind fst snd app]); repeat split; reflexivity.
Qed.

Lemma azure_login_as_user_at_server_witness :
  clientConnects
    (events (connect (Sample.world None [] ClientDone) (Sample.engine None)
               Sample.ctx
               (Sample.session
                  (Sample.db Sample.AzureDB "db.example.com:3306"
                     DatabaseTLSMode_VERIFY_FULL) None)))
  = [("db.example.com:3306", "alice@my-server", "azure-token", "sales",
      setTLSConfigOpt Sample.tlsConfig)].
Proof.
  exact (proj1 (azure_login_as_user_at_server
                  (Sample.world None [] ClientDone) (Sample.engine None) Sample.ctx
                  (Sample.session
                     (Sample.db Sample.AzureDB "db.example.com:3306"
                        DatabaseTLSMode_VERIFY_FULL) None)
                  Sample.tlsConfig "azure-token"
                  eq_refl eq_refl eq_refl eq_refl eq_refl)).
Defined.

(** With TLS mode insecure, the Cloud SQL path makes no side-channel
    TLS dial: the client library is left to open the socket itself with
    the TLS configuration set, still under the lease. *)
Theorem cloudsql_insecure_has_no_side_channel (w : World) (e : Engine)
    (ctx : Context) (s : Session) (config : TLSConfig) (lease : SemaphoreLease)
    (password : string) :
  IsRDS (database s) = false ->
  IsCloudSQL (database s) = true ->
  GetTLSConfig (e_Auth e) ctx s = Ok config ->
  services_AcquireSemaphoreWithRetry w
    (context.WithTimeout (time_Now w) ctx (defaults_DatabaseConnectTimeout w))
    (makeAcquireSemaphoreConfig e s) = Ok lease ->
  GetCloudSQLPassword (e_Auth e) ctx s = Ok password ->
  Mode (GetTLS (database s)) = DatabaseTLSMode_INSECURE ->
  tlsDials (events (connect w e ctx s)) = []
  /\ clientConnects (events (connect w e ctx s))
     = [(GetURI (database s), DatabaseUser s, password, DatabaseName s,
         setTLSConfigOpt config)]
  /\ leaseCancels (events (connect w e ctx s)) = [lease].
Proof.
  intros Hrds Hcloud Htls Hlease Hpw Hmode.
  run_connect.
  rewrite Htls; cbn [bind fst snd app]; rewrite Hrds, Hcloud;
    cbn [bind fst snd app]; rewrite Hlease; cbn [bind fst snd app];
    rewrite Hpw, Hmode; cbn [bind fst snd app negb DatabaseTLSMode_eqb].
  repeat (branch; cbn [bind fst snd app]); repeat split; reflexivity.
Qed.

Lemma cloudsql_insecure_has_no_side_channel_witness :
  tlsDials
    (events (connect (Sample.world None [] ClientDone) (Sample.engine None)
               Sample.ctx
               (Sample.session
                  (Sample.db Sample.CloudSQL "db.example.com:3306"
                     DatabaseTLSMode_INSECURE) None)))
  = [].
Proof.
  exact (proj1 (cloudsql_insecure_has_no_side_channel
                  (Sample.world None [] ClientDone) (Sample.engine None) Sample.ctx
                  (Sample.session
                     (Sample.db Sample.CloudSQL "db.example.com:3306"
                        DatabaseTLSMode_INSECURE) None)
                  Sample.tlsConfig Sample.lease "one-time-password"
                  eq_refl eq_refl eq_refl eq_refl eq_refl eq_refl)).
Defined.



(** Every connection [connect] returns is set up with the TLS
    configuration the credential provider gave: it is either installed
    on the connection whose socket the client library opened, or (on
    the secure Cloud SQL path) it is the configuration of the TLS
    connection that replaced that socket. *)
Theorem connect_uses_provider_tls (w : World) (e : Engine) (ctx : Context)
    (s : Session) (conn : ClientConn) :
  returned (connect w e ctx s) = Ok conn ->
  exists config : TLSConfig,
    GetTLSConfig (e_Auth e) ctx s = Ok config
    /\ ((Conn conn = packet_NewConn (GetURI (database s))
         /\ tlsConfig conn = Some config)
        \/ exists tlsconn : TLSConn,
             Conn conn = packet_NewTLSConn tlsconn
             /\ tlsConfigOf tlsconn = config
             /\ tls_Dial w (tlsNetwork tlsconn) (tlsAddr tlsconn) config = None).
Proof.
  run_connect.
  repeat (branch; cbn [bind fst snd app]);
    intros Hconn; try discriminate Hconn; injection Hconn as <-;
    eexists; (split; [ reflexivity | ]);
    first
      [ left; split; reflexivity
      | right; eexists; split; [ reflexivity | split; [ reflexivity | eassumption ] ] ].
Qed.

Lemma connect_uses_provider_tls_witness :
  exists config : TLSConfig,
    GetTLSConfig (e_Auth (Sample.engine None)) Sample.ctx
      (Sample.session
         (Sample.db Sample.RDS "db.example.com:3306" DatabaseTLSMode_VERIFY_FULL)
         None)
    = Ok config
    /\ config = Sample.tlsConfig.
Proof.
  destruct (connect_uses_provider_tls
              (Sample.world None [] ClientDone) (Sample.engine None) Sample.ctx
              (Sample.session
                 (Sample.db Sample.RDS "db.example.com:3306"
                    DatabaseTLSMode_VERIFY_FULL) None)
              {| Conn := packet_NewConn "db.example.com:3306";
                 tlsConfig := Some Sample.tlsConfig |}
              eq_refl)
    as (config & Hcfg & _).
  exists config. split; [ exact Hcfg | ]. now injection Hcfg as <-.
Defined.

(** ** More on [HandleConnection] *)

Lemma sessionEnds_app (tr1 tr2 : list Event) :
  sessionEnds (tr1 ++ tr2) = sessionEnds tr1 + sessionEnds tr2.
Proof.
  induction tr1 as [| ev tr1 IH]; [ reflexivity | ].
  destruct ev; cbn [app sessionEnds]; rewrite IH; reflexivity.
Qed.

Lemma started_app (tr1 tr2 : list Event) :
  started (tr1 ++ tr2) = started tr1 ++ started tr2.
Proof.
  induction tr1 as [| ev tr1 IH]; [ reflexivity | ].
  destruct ev; cbn [app started]; now rewrite IH.
Qed.

Lemma checkAccess_quiet (w : World) (e : Engine) (ctx : Context) (s : Session) :
  sessionEnds (events (checkAccess w e ctx s)) = 0
  /\ started (events (checkAccess w e ctx s)) = []
  /\ match returned (checkAccess w e ctx s) with
     | None => sessionStarts (events (checkAccess w e ctx s)) = []
     | Some _ =>
         sessionStarts (events (checkAccess w e ctx s)) = []
         \/ exists denial : error,
              sessionStarts (events (checkAccess w e ctx s)) = [Some denial]
     end.
Proof.
  rewrite checkAccess_cases.
  repeat (branch; cbn [events returned fst snd]);
    repeat split; try reflexivity; try (left; reflexivity).
  right. eexists. reflexivity.
Qed.

Lemma connect_quiet (w : World) (e : Engine) (ctx : Context) (s : Session) :
  sessionEnds (events (connect w e ctx s)) = 0
  /\ started (events (connect w e ctx s)) = [].
Proof.
  run_connect.
  repeat (branch; cbn [bind fst snd app]); split; reflexivity.
Qed.

(** [HandleConnection] returns [nil] exactly for the sessions it
    relayed.  When it returns [nil], the session start was audited once
    with no error, both relay tasks were started, and the session end
    was audited once.  When it returns an error, no relay task was
    started and no session end was audited; the session start was
    audited only for a denial. *)
Theorem error_return_means_no_relay (w : World) (e : Engine) (ctx : Context)
    (s : Session) :
  match returned (HandleConnection w e ctx s) with
  | None =>
      sessionStarts (events (HandleConnection w e ctx s)) = [None]
      /\ started (events (HandleConnection w e ctx s)) = [clientErrCh; serverErrCh]
      /\ sessionEnds (events (HandleConnection w e ctx s)) = 1
  | Some _ =>
      started (events (HandleConnection w e ctx s)) = []
      /\ sessionEnds (events (HandleConnection w e ctx s)) = 0
      /\ (sessionStarts (events (HandleConnection w e ctx s)) = []
          \/ exists denial : error,
               sessionStarts (events (HandleConnection w e ctx s)) = [Some denial])
  end.
Proof.
  destruct (checkAccess_quiet w e ctx s) as (Hae & Hag & Has).
  destruct (connect_quiet w e ctx s) as (Hce & Hcg).
  destruct (connect_no_audit w e ctx s) as (Hcs & _).
  destruct (returned (checkAccess w e ctx s)) as [denied |] eqn:Hauth.
  - assert (Hrun : HandleConnection w e ctx s
                   = (events (checkAccess w e ctx s), Some (trace.Wrap denied))).
    { unfold HandleConnection. destruct (checkAccess w e ctx s) as [tr_a r_a].
      unfold returned in Hauth; cbn [snd] in Hauth. subst r_a.
      cbn [bind ret fst snd events]. now rewrite app_nil_r. }
    rewrite Hrun. cbn [returned events fst snd]. auto.
  - destruct (returned (connect w e ctx s)) as [conn | err] eqn:Hconn.
    + rewrite (HandleConnection_connected w e ctx s conn Hauth Hconn).
      unfold closeFailure, sessionOver.
      destruct (WriteOK (proxyConn e)); cbn [returned events fst snd];
        rewrite !sessionStarts_app, !started_app, !sessionEnds_app,
          Has, Hcs, Hag, Hcg, Hae, Hce;
        destruct (Conn_Close w conn); try destruct (selected w);
        cbn; auto.
    + assert (Hrun : exists out,
                HandleConnection w e ctx s
                = (events (checkAccess w e ctx s) ++ events (connect w e ctx s),
                   Some out)).
      { unfold HandleConnection.
        destruct (checkAccess w e ctx s) as [tr_a r_a].
        destruct (connect w e ctx s) as [tr_c r_c].
        unfold returned in *; cbn [snd] in *. subst r_a r_c.
        cbn [bind fst snd events].
        destruct (trace.IsLimitExceeded err); unfold ret; cbn [fst snd];
          rewrite app_nil_r; eexists; reflexivity. }
      destruct Hrun as (out & ->). cbn [returned events fst snd].
      rewrite !sessionStarts_app, !started_app, !sessionEnds_app,
        Has, Hcs, Hag, Hcg, Hae, Hce.
      cbn. auto.
Qed.

(** * Properties of the SQL Server Kerberos authenticator *)

(** [getAuth] makes its calls in the order load keytab, load krb5.conf,
    log in, get the service ticket, build the init token, marshal it,
    and stops at the first that fails: every call but the last one
    succeeded.  It returns an authenticator only after all six, and the
    authenticator's initial bytes are then the marshalled token (its
    [NextBytes] never returns bytes); otherwise it returns, wrapped, the
    error of the last call it made. *)
Theorem getAuth_stops_at_first_failure
    (Keytab Krb5Config Ticket EncryptionKey NegTokenInit : Type)
    (GetAD : Database -> sqlserver.AD)
    (keytab_Load : string -> result Keytab)
    (config_Load : string -> result Krb5Config)
    (client_Login : sqlserver.Client Keytab Krb5Config -> option error)
    (client_GetServiceTicket :
       sqlserver.Client Keytab Krb5Config -> string ->
       result (Ticket * EncryptionKey))
    (spnego_NewNegTokenInitKRB5 :
       sqlserver.Client Keytab Krb5Config -> Ticket -> EncryptionKey ->
       result NegTokenInit)
    (Marshal : NegTokenInit -> result bytes)
    (spnego_UnmarshalNegToken : bytes -> option error)
    (sessionCtx : Session) :
  let run :=
    sqlserver.getAuth Keytab Krb5Config Ticket EncryptionKey NegTokenInit
      GetAD keytab_Load config_Load client_Login
      client_GetServiceTicket spnego_NewNegTokenInitKRB5 Marshal sessionCtx in
  let failure :=
    sqlserver.failure Keytab Krb5Config Ticket EncryptionKey NegTokenInit
      keytab_Load config_Load client_Login
      client_GetServiceTicket spnego_NewNegTokenInitKRB5 Marshal in
  map (sqlserver.stepOf Keytab Krb5Config Ticket EncryptionKey NegTokenInit)
    (fst run)
  = firstn (List.length (fst run)) sqlserver.steps
  /\ Forall (fun call => failure call = None) (removelast (fst run))
  /\ match snd run with
     | Ok a =>
         exists token : NegTokenInit,
           last (fst run)
             (sqlserver.CallMarshal Keytab Krb5Config Ticket EncryptionKey
                NegTokenInit token)
           = sqlserver.CallMarshal Keytab Krb5Config Ticket EncryptionKey
               NegTokenInit token
           /\ List.length (fst run) = 6
           /\ Marshal token = Ok (sqlserver.initToken a)
           /\ sqlserver.InitialBytes a = Ok (sqlserver.initToken a)
           /\ forall (token' next : bytes),
                sqlserver.NextBytes spnego_UnmarshalNegToken a token' = Ok next ->
                next = []
     | Err x =>
         exists (call : sqlserver.Call Keytab Krb5Config Ticket EncryptionKey
                          NegTokenInit)
                (err : error),
           last (fst run) call = call
           /\ In call (fst run)
           /\ failure call = Some err
           /\ x = trace.Wrap err
     end.
Proof.
  cbn zeta. unfold sqlserver.getAuth.
  destruct (keytab_Load _) as [keytab | err1] eqn:H1;
    [ destruct (config_Load _) as [config | err2] eqn:H2;
      [ destruct (client_Login _) as [err3 |] eqn:H3;
        [ | destruct (client_GetServiceTicket _ _) as [[ticket key] | err4] eqn:H4;
            [ destruct (spnego_NewNegTokenInitKRB5 _ _ _) as [token | err5] eqn:H5;
              [ destruct (Marshal token) as [b | err6] eqn:H6 | ] | ] ] | ] | ];
    cbn [fst snd map sqlserver.stepOf List.length firstn sqlserver.steps removelast];
    (split; [ reflexivity | ]);
    (split;
     [ repeat (constructor; [ cbn [sqlserver.failure]; now rewrite ?H1, ?H2, ?H3, ?H4, ?H5 | ]);
       constructor
     | ]);
    lazymatch goal with
       | |- exists token : NegTokenInit, _ =>
           eexists; repeat split; try reflexivity; try assumption;
           intros token' next; unfold sqlserver.NextBytes;
           destruct (spnego_UnmarshalNegToken token'); [ discriminate | ];
           now intros [= <-]
       | |- _ =>
           do 2 eexists; cbn [last];
           split; [ reflexivity | ];
           split; [ in_list | ];
           split; [ | reflexivity ];
           cbn [sqlserver.failure];
           repeat match goal with
                  | H : ?x = _ |- context [?x] => rewrite H
                  end;
           reflexivity
       end.
Qed.

(** * Properties of [SwitchWriter] and [BreakReader] *)

Lemma switch_run_app (outcome : nat -> bytes -> Z * option error)
    (ops1 ops2 : list switch.Op) (w : switch.SwitchWriter) :
  fst (switch.run outcome w (ops1 ++ ops2))
  = fst (switch.run outcome (fst (switch.run outcome w ops1)) ops2).
Proof.
  revert w. induction ops1 as [| op ops1 IH]; intros w; [ reflexivity | ].
  cbn [app switch.run].
  destruct (switch.step outcome w op) as [w1 r].
  specialize (IH w1).
  destruct (switch.run outcome w1 (ops1 ++ ops2)) as [w2 rs2].
  destruct (switch.run outcome w1 ops1) as [w3 rs3].
  exact IH.
Qed.

(** While the writer is off, and until it is turned on again, only
    unconditional writes reach the underlying writer; every [Write]
    reports its whole length written and no error, and its bytes are
    appended to the buffer in order. *)
Theorem switch_off_buffers_writes (outcome : nat -> bytes -> Z * option error)
    (w : switch.SwitchWriter) (ops : list switch.Op) :
  switch.on w = false ->
  existsb switch.isOn ops = false ->
  switch.W (fst (switch.run outcome w ops))
  = switch.W w ++ switch.unconditionalPayloads ops
  /\ switch.buffer (fst (switch.run outcome w ops))
     = switch.buffer w ++ List.concat (switch.writePayloads ops)
  /\ switch.on (fst (switch.run outcome w ops)) = false
  /\ switch.writeReports ops (snd (switch.run outcome w ops))
     = map (fun p => (Z.of_nat (List.length p), None)) (switch.writePayloads ops).
Proof.
  revert w. induction ops as [| op ops IH]; intros w Hoff Hops.
  - cbn. rewrite !app_nil_r. auto.
  - cbn [existsb] in Hops. apply orb_false_elim in Hops as [Hop Hops].
    destruct op as [| | p | p]; try discriminate Hop;
      cbn [switch.run]; unfold switch.step, switch.Off, switch.Write,
        switch.WriteUnconditional, switch.W_Write;
      try rewrite Hoff.
    + specialize (IH {| switch.W := switch.W w; switch.buffer := switch.buffer w;
                        switch.on := false |} eq_refl Hops).
      destruct (switch.run outcome _ ops) as [w' rs]. exact IH.
    + specialize (IH {| switch.W := switch.W w;
                        switch.buffer := switch.buffer w ++ p;
                        switch.on := false |} eq_refl Hops).
      destruct (switch.run outcome _ ops) as [w' rs].
      cbn [fst snd switch.W switch.buffer switch.on switch.writePayloads
           switch.unconditionalPayloads switch.writeReports List.concat map] in *.
      destruct IH as (HW & Hb & Hon & Hr).
      rewrite HW, Hb, Hon, Hr, <- app_assoc. auto.
    + destruct (outcome (List.length (switch.W w)) p) as [n err].
      specialize (IH {| switch.W := switch.W w ++ [p];
                        switch.buffer := switch.buffer w;
                        switch.on := false |} eq_refl Hops).
      destruct (switch.run outcome _ ops) as [w' rs].
      cbn [fst snd switch.W switch.buffer switch.on switch.writePayloads
           switch.unconditionalPayloads switch.writeReports] in *.
      destruct IH as (HW & Hb & Hon & Hr).
      rewrite HW, Hb, Hon, Hr, <- app_assoc. auto.
Qed.

Lemma switch_off_buffers_writes_witness :
  switch.W
    (fst (switch.run (fun _ p => (Z.of_nat (List.length p), None))
            (switch.Off (switch.NewSwitchWriter []))
            [switch.OpWrite [Byte.x68; Byte.x69];
             switch.OpWriteUnconditional [Byte.x21];
             switch.OpWrite [Byte.x0a]]))
  = [[Byte.x21]]
  /\ switch.buffer
       (fst (switch.run (fun _ p => (Z.of_nat (List.length p), None))
               (switch.Off (switch.NewSwitchWriter []))
               [switch.OpWrite [Byte.x68; Byte.x69];
                switch.OpWriteUnconditional [Byte.x21];
                switch.OpWrite [Byte.x0a]]))
     = [Byte.x68; Byte.x69; Byte.x0a].
Proof.
  destruct (switch_off_buffers_writes
              (fun _ p => (Z.of_nat (List.length p), None))
              (switch.Off (switch.NewSwitchWriter []))
              [switch.OpWrite [Byte.x68; Byte.x69];
               switch.OpWriteUnconditional [Byte.x21];
               switch.OpWrite [Byte.x0a]]
              eq_refl eq_refl)
    as (HW & Hb & _).
  split; [ exact HW | exact Hb ].
Defined.

(** No method ever removes bytes from the buffer: whatever calls are
    made, what was buffered stays at the front of the buffer. *)
Lemma switch_buffer_only_grows (outcome : nat -> bytes -> Z * option error)
    (ops : list switch.Op) :
  forall w : switch.SwitchWriter,
    exists more : bytes,
      switch.buffer (fst (switch.run outcome w ops)) = switch.buffer w ++ more.
Proof.
  induction ops as [| op ops IH]; intros w.
  - exists []. cbn. now rewrite app_nil_r.
  - cbn [switch.run].
    destruct (switch.step outcome w op) as [w1 r] eqn:Hstep.
    assert (Hb : exists more, switch.buffer w1 = switch.buffer w ++ more).
    { destruct op as [| | p | p];
        unfold switch.step, switch.On, switch.Off, switch.Write,
          switch.WriteUnconditional, switch.W_Write in Hstep;
        cbn [switch.W switch.buffer switch.on] in Hstep;
        try destruct (switch.on w);
        try destruct (outcome _ _) as [n err];
        injection Hstep as <- _; cbn [switch.buffer];
        first [ exists p; reflexivity | exists []; now rewrite app_nil_r ]. }
    destruct Hb as (more1 & Hb1). destruct (IH w1) as (more2 & Hb2).
    destruct (switch.run outcome w1 ops) as [w2 rs].
    cbn [fst] in *. exists (more1 ++ more2).
    now rewrite Hb2, Hb1, app_assoc.
Qed.

(** [On] hands the underlying writer the whole buffer and leaves the
    buffer as it is.  So the bytes one [On] flushed are flushed again,
    ahead of whatever was buffered since, by every later [On]. *)
Theorem switch_on_flushes_again (outcome : nat -> bytes -> Z * option error)
    (w : switch.SwitchWriter) (ops : list switch.Op) :
  switch.W (fst (switch.On outcome w)) = switch.W w ++ [switch.buffer w]
  /\ switch.buffer (fst (switch.On outcome w)) = switch.buffer w
  /\ exists more : bytes,
       switch.W (fst (switch.run outcome w (switch.OpOn :: ops ++ [switch.OpOn])))
       = switch.W (fst (switch.run outcome w (switch.OpOn :: ops)))
           ++ [switch.buffer w ++ more].
Proof.
  assert (Hon : forall v,
            switch.W (fst (switch.On outcome v)) = switch.W v ++ [switch.buffer v]
            /\ switch.buffer (fst (switch.On outcome v)) = switch.buffer v).
  { intros v. unfold switch.On, switch.W_Write. cbn [switch.W switch.buffer].
    destruct (outcome _ _) as [n err]. split; reflexivity. }
  destruct (Hon w) as (HW & Hb).
  split; [ exact HW | split; [ exact Hb | ] ].
  change (switch.OpOn :: ops ++ [switch.OpOn])
    with ((switch.OpOn :: ops) ++ [switch.OpOn]).
  rewrite switch_run_app.
  assert (Hfirst : fst (switch.run outcome w (switch.OpOn :: ops))
                   = fst (switch.run outcome (fst (switch.On outcome w)) ops)).
  { cbn [switch.run switch.step].
    destruct (switch.On outcome w) as [w1 err]. cbn [fst].
    destruct (switch.run outcome w1 ops) as [w2 rs]. reflexivity. }
  rewrite Hfirst.
  destruct (switch_buffer_only_grows outcome ops (fst (switch.On outcome w)))
    as (more & Hmore).
  rewrite Hb in Hmore. exists more.
  set (v := fst (switch.run outcome (fst (switch.On outcome w)) ops)) in *.
  cbn [switch.run switch.step].
  destruct (Hon v) as (HWv & _).
  destruct (switch.On outcome v) as [v1 err]. cbn [fst] in *.
  now rewrite HWv, Hmore.
Qed.

(** [BreakReader.Read] neither loses, repeats nor reorders bytes,
    however small the caller's buffers are and whether the reader is on
    or off: the bytes the reads returned, then the bytes left over in
    the reader, then the chunks not yet handed over are the stream as it
    was before the reads. *)
Theorem break_reader_keeps_the_stream (sizes : list nat) :
  forall (r : switch.reader.BreakReader) (incoming : list bytes),
    let '(ps, r', incoming') := switch.reader.reads r sizes incoming in
    List.concat ps ++ switch.reader.remaining r' ++ List.concat incoming'
    = switch.reader.remaining r ++ List.concat incoming.
Proof.
  induction sizes as [| size sizes IH]; intros r incoming; [ reflexivity | ].
  cbn [switch.reader.reads]. unfold switch.reader.Read, switch.reader.copyOut.
  destruct (switch.reader.remaining r) as [| b rest] eqn:Hrem.
  - destruct (switch.reader.on r); [ | now rewrite Hrem ].
    destruct incoming as [| chunk incoming]; [ now rewrite Hrem | ].
    specialize (IH {| switch.reader.remaining := skipn size chunk;
                      switch.reader.on := true |} incoming).
    destruct (switch.reader.reads _ sizes incoming) as [[ps r'] incoming'].
    cbn [List.concat switch.reader.remaining app] in *.
    rewrite <- app_assoc, IH, app_assoc, firstn_skipn. reflexivity.
  - specialize (IH {| switch.reader.remaining := skipn size (b :: rest);
                      switch.reader.on := switch.reader.on r |} incoming).
    destruct (switch.reader.reads _ sizes incoming) as [[ps r'] incoming'].
    cbn [List.concat switch.reader.remaining] in *.
    rewrite <- app_assoc, IH, app_assoc, firstn_skipn. reflexivity.
Qed.

(** A [Read] with bytes left over returns at once, even when the reader
    is switched off: it hands out the first of those bytes, as many as
    the caller's buffer holds, keeps the rest, and takes no chunk from
    the channel. *)
Theorem break_reader_serves_leftover_first (r : switch.reader.BreakReader)
    (size : nat) (incoming : list bytes) :
  switch.reader.remaining r <> [] ->
  exists (p : bytes) (r' : switch.reader.BreakReader),
    switch.reader.Read r size incoming = Some (p, r', incoming)
    /\ p ++ switch.reader.remaining r' = switch.reader.remaining r
    /\ List.length p = Nat.min size (List.length (switch.reader.remaining r))
    /\ switch.reader.on r' = switch.reader.on r.
Proof.
  intros Hrem. unfold switch.reader.Read, switch.reader.copyOut.
  destruct (switch.reader.remaining r) as [| b rest]; [ contradiction | ].
  do 2 eexists. split; [ reflexivity | ].
  cbn [switch.reader.remaining switch.reader.on].
  split; [ apply firstn_skipn | split; [ apply length_firstn | reflexivity ] ].
Qed.

Lemma break_reader_serves_leftover_first_witness :
  exists (p : bytes) (r' : switch.reader.BreakReader),
    switch.reader.Read
      (switch.reader.Off
         {| switch.reader.remaining := [Byte.x61; Byte.x62; Byte.x63];
            switch.reader.on := true |})
      2 [[Byte.x64]]
    = Some (p, r', [[Byte.x64]])
    /\ p ++ switch.reader.remaining r' = [Byte.x61; Byte.x62; Byte.x63]
    /\ List.length p = 2
    /\ switch.reader.on r' = false.
Proof.
  exact (break_reader_serves_leftover_first
           (switch.reader.Off
              {| switch.reader.remaining := [Byte.x61; Byte.x62; Byte.x63];
                 switch.reader.on := true |})
           2 [[Byte.x64]] ltac:(discriminate)).
Defined.

(** * Properties of the review assignments *)

Lemma getAdminReviewers_loop_filter (admins : list string) (author : string) :
  forall acc : list string,
    review.getAdminReviewers_loop admins author acc
    = acc ++ filter (fun v => negb (String.eqb v author)) admins.
Proof.
  induction admins as [| v admins IH]; intros acc; cbn.
  - now rewrite app_nil_r.
  - destruct (String.eqb v author); cbn; rewrite IH; [ reflexivity | ].
    now rewrite <- app_assoc.
Qed.

Lemma In_getAdminReviewers (r : review.Assignments) (author u : string) :
  In u (review.getAdminReviewers r author)
  <-> In u (review.Admins (review.c r)) /\ u <> author.
Proof.
  unfold review.getAdminReviewers. rewrite getAdminReviewers_loop_filter.
  cbn [app]. rewrite filter_In, negb_true_iff, String.eqb_neq. reflexivity.
Qed.

Lemma getReviewerSets_loop_filter (author team : string)
    (omit : list (string * bool)) (reviewers : list review.Reviewer) :
  forall setA setB : list string,
    review.getReviewerSets_loop author team reviewers omit setA setB
    = (setA ++ map review.GithubUsername
                 (filter (fun v => review.eligible author team omit v
                                   && review.Owner v) reviewers),
       setB ++ map review.GithubUsername
                 (filter (fun v => review.eligible author team omit v
                                   && negb (review.Owner v)) reviewers)).
Proof.
  induction reviewers as [| v reviewers IH]; intros setA setB.
  - cbn. now rewrite !app_nil_r.
  - cbn [review.getReviewerSets_loop filter].
    assert (He : review.eligible author team omit v
                 = String.eqb (review.Team v) team
                   && negb (review.hasKey omit (review.GithubUsername v))
                   && negb (String.eqb (review.GithubUsername v) author))
      by reflexivity.
    rewrite He. clear He.
    destruct (String.eqb (review.Team v) team); cbn [negb andb];
      [ | apply IH ].
    destruct (review.hasKey omit (review.GithubUsername v)); cbn [negb andb];
      [ apply IH | ].
    destruct (String.eqb (review.GithubUsername v) author); cbn [negb andb];
      [ apply IH | ].
    destruct (review.Owner v); cbn [negb map]; rewrite IH, <- app_assoc;
      reflexivity.
Qed.

Lemma In_getReviewerSets (author team : string)
    (reviewers : list review.Reviewer) (omit leave : list (string * bool))
    (u : string) (owner : bool) :
  In u ((if owner then fst else snd)
          (review.getReviewerSets author team reviewers omit leave))
  <-> exists v : review.Reviewer,
        In v reviewers
        /\ review.GithubUsername v = u
        /\ review.Team v = team
        /\ review.Owner v = owner
        /\ review.hasKey omit u = false
        /\ u <> author.
Proof.
  unfold review.getReviewerSets. rewrite getReviewerSets_loop_filter.
  cbn [app fst snd].
  assert (Hel : forall v,
            review.eligible author team omit v = true
            <-> review.Team v = team
                /\ review.hasKey omit (review.GithubUsername v) = false
                /\ review.GithubUsername v <> author).
  { intros v. unfold review.eligible.
    rewrite !andb_true_iff, !negb_true_iff, String.eqb_eq, String.eqb_neq.
    tauto. }
  destruct owner; cbn [fst snd]; rewrite in_map_iff; split.
  - intros (v & <- & Hin). apply filter_In in Hin as (Hin & Hv).
    apply andb_true_iff in Hv as (Hv & Ho). apply Hel in Hv.
    exists v. tauto.
  - intros (v & Hin & <- & Ht & Ho & Hk & Ha). exists v. split; [ reflexivity | ].
    apply filter_In. split; [ exact Hin | ].
    apply andb_true_iff. split; [ apply Hel; tauto | exact Ho ].
  - intros (v & <- & Hin). apply filter_In in Hin as (Hin & Hv).
    apply andb_true_iff in Hv as (Hv & Ho). apply Hel in Hv.
    apply negb_true_iff in Ho. exists v. tauto.
  - intros (v & Hin & <- & Ht & Ho & Hk & Ha). exists v. split; [ reflexivity | ].
    apply filter_In. split; [ exact Hin | ].
    apply andb_true_iff. split; [ apply Hel; tauto | now rewrite Ho ].
Qed.

(** [getReviewerSets] puts a name in set A exactly when it is the name
    of a reviewer of the team who is an owner, and in set B exactly when
    it is that of one who is not; in both cases the name is not the
    author's and is not a key of the omit map, whatever value the map
    gives it.  This holds in whichever order the map of reviewers is
    ranged over. *)
Theorem reviewer_sets_membership (author team : string)
    (reviewers : list review.Reviewer) (omit leave : list (string * bool))
    (u : string) (owner : bool) :
  In u ((if owner then fst else snd)
          (review.getReviewerSets author team reviewers omit leave))
  <-> exists v : review.Reviewer,
        In v reviewers
        /\ review.GithubUsername v = u
        /\ review.Team v = team
        /\ review.Owner v = owner
        /\ review.hasKey omit u = false
        /\ u <> author.
Proof. apply In_getReviewerSets. Qed.

Lemma reviewer_sets_membership_witness :
  In "carol"
    (fst (review.getReviewerSets "alice" "Core"
            [ {| review.Team := "Core"; review.Owner := true;
                 review.GithubUsername := "alice" |};
              {| review.Team := "Core"; review.Owner := true;
                 review.GithubUsername := "bob" |};
              {| review.Team := "Core"; review.Owner := true;
                 review.GithubUsername := "carol" |} ]
            [("bob", false)] []))
  /\ ~ In "bob"
       (fst (review.getReviewerSets "alice" "Core"
               [ {| review.Team := "Core"; review.Owner := true;
                    review.GithubUsername := "alice" |};
                 {| review.Team := "Core"; review.Owner := true;
                    review.GithubUsername := "bob" |};
                 {| review.Team := "Core"; review.Owner := true;
                    review.GithubUsername := "carol" |} ]
               [("bob", false)] [])).
Proof.
  split.
  - apply (proj2 (reviewer_sets_membership "alice" "Core"
                    [ {| review.Team := "Core"; review.Owner := true;
                         review.GithubUsername := "alice" |};
                      {| review.Team := "Core"; review.Owner := true;
                         review.GithubUsername := "bob" |};
                      {| review.Team := "Core"; review.Owner := true;
                         review.GithubUsername := "carol" |} ]
                    [("bob", false)] [] "carol" true)).
    eexists. split; [ right; right; left; reflexivity | ].
    repeat split. discriminate.
  - cbn. intros [H | []]. discriminate H.
Defined.

Lemma not_In_author_sets (author team : string) (reviewers : list review.Reviewer)
    (omit leave : list (string * bool)) :
  ~ In author (fst (review.getReviewerSets author team reviewers omit leave))
  /\ ~ In author (snd (review.getReviewerSets author team reviewers omit leave)).
Proof.
  split; intros Hin.
  - apply (In_getReviewerSets author team reviewers omit leave author true)
      in Hin as (v & _ & _ & _ & _ & _ & Hne). now apply Hne.
  - apply (In_getReviewerSets author team reviewers omit leave author false)
      in Hin as (v & _ & _ & _ & _ & _ & Hne). now apply Hne.
Qed.

Lemma not_In_author_admins (r : review.Assignments) (author : string) :
  ~ In author (review.getAdminReviewers r author).
Proof. intros Hin. apply In_getAdminReviewers in Hin as (_ & Hne). now apply Hne. Qed.

Lemma not_In_author_codeSets (r : review.Assignments) (author : string) :
  ~ In author (fst (review.getCodeReviewerSets r author))
  /\ ~ In author (snd (review.getCodeReviewerSets r author)).
Proof.
  assert (Hadmins :
            ~ In author
                (firstn (Nat.div (List.length (review.getAdminReviewers r author)) 2)
                   (review.getAdminReviewers r author))
            /\ ~ In author
                 (skipn (Nat.div (List.length (review.getAdminReviewers r author)) 2)
                    (review.getAdminReviewers r author))).
  { pose proof (not_In_author_admins r author) as Hno.
    rewrite <- (firstn_skipn
                  (Nat.div (List.length (review.getAdminReviewers r author)) 2)
                  (review.getAdminReviewers r author)) in Hno at 1.
    rewrite in_app_iff in Hno. tauto. }
  unfold review.getCodeReviewerSets.
  destruct (review.findAuthor _ author) as [githubAuthor |]; [ | exact Hadmins ].
  destruct (String.eqb (review.Team githubAuthor) "Internal"); [ exact Hadmins | ].
  apply not_In_author_sets.
Qed.

Lemma not_In_author_docs (r : review.Assignments) (author : string) :
  ~ In author (review.getDocsReviewers r author).
Proof.
  unfold review.getDocsReviewers.
  destruct (not_In_author_sets author "Core" (review.DocsReviewers (review.c r))
              (review.DocsReviewersOmit (review.c r)) []) as (HA & HB).
  destruct (review.getReviewerSets author "Core" _ _ _) as [setA setB].
  cbn [fst snd] in *.
  destruct (setA ++ setB) as [| x l] eqn:Happ.
  - apply not_In_author_admins.
  - rewrite <- Happ, in_app_iff. tauto.
Qed.

Lemma index_In (s : list string) (i : nat) (v : string) :
  review.index s i = review.Done v -> In v s.
Proof.
  unfold review.index. destruct (nth_error s i) eqn:Hnth; [ | discriminate ].
  intros [= <-]. now apply nth_error_In in Hnth.
Qed.

Lemma getCodeReviewers_cases (draw : review.Rand) (k : nat)
    (r : review.Assignments) (author : string) :
  (forall reviewers : list string,
     review.getCodeReviewers draw k r author = review.Done reviewers ->
     exists a b : string,
       reviewers = [a; b]
       /\ In a (fst (review.getCodeReviewerSets r author))
       /\ In b (snd (review.getCodeReviewerSets r author)))
  /\ (fst (review.getCodeReviewerSets r author) = []
      \/ snd (review.getCodeReviewerSets r author) = [] ->
      exists message : string,
        review.getCodeReviewers draw k r author = review.Panic message)
  /\ (fst (review.getCodeReviewerSets r author) <> [] ->
      snd (review.getCodeReviewerSets r author) <> [] ->
      (forall j n : nat, 0 < n -> draw j n < n) ->
      exists reviewers : list string,
        review.getCodeReviewers draw k r author = review.Done reviewers).
Proof.
  unfold review.getCodeReviewers, review.Intn.
  destruct (review.getCodeReviewerSets r author) as [setA setB]. cbn [fst snd].
  split; [ | split ].
  - intros reviewers.
    destruct (Nat.eqb (List.length setA) 0); [ discriminate | ].
    destruct (review.index setA _) as [a |] eqn:Ha; [ | discriminate ].
    destruct (Nat.eqb (List.length setB) 0); [ discriminate | ].
    destruct (review.index setB _) as [b |] eqn:Hb; [ | discriminate ].
    intros [= <-]. exists a, b.
    split; [ reflexivity | split; eapply index_In; eassumption ].
  - intros [-> | ->]; cbn [List.length Nat.eqb]; [ eexists; reflexivity | ].
    destruct (Nat.eqb (List.length setA) 0); [ eexists; reflexivity | ].
    destruct (review.index setA _); eexists; reflexivity.
  - intros HA HB Hdraw.
    assert (Hidx : forall (s : list string) (j : nat),
              s <> [] ->
              Nat.eqb (List.length s) 0 = false
              /\ exists v, review.index s (draw j (List.length s)) = review.Done v).
    { intros s j Hs. destruct s as [| x s]; [ contradiction | ].
      split; [ reflexivity | ]. unfold review.index.
      destruct (nth_error (x :: s) (draw j (List.length (x :: s)))) eqn:Hnth;
        [ eexists; reflexivity | ].
      apply nth_error_None in Hnth.
      specialize (Hdraw j (List.length (x :: s))). cbn [List.length] in *. lia. }
    destruct (Hidx setA k HA) as (-> & a & ->).
    destruct (Hidx setB (S k) HB) as (-> & b & ->).
    eexists. reflexivity.
Qed.

(** When [getCodeReviewers] returns, it returns two reviewers: first
    one of set A, then one of set B.  It panics when either set is
    empty.  When both sets have members and every draw of [Intn] is
    below its bound, it returns. *)
Theorem code_reviewers_one_of_each_set (draw : review.Rand) (k : nat)
    (r : review.Assignments) (author : string) :
  (forall reviewers : list string,
     review.getCodeReviewers draw k r author = review.Done reviewers ->
     exists a b : string,
       reviewers = [a; b]
       /\ In a (fst (review.getCodeReviewerSets r author))
       /\ In b (snd (review.getCodeReviewerSets r author)))
  /\ (fst (review.getCodeReviewerSets r author) = []
      \/ snd (review.getCodeReviewerSets r author) = [] ->
      exists message : string,
        review.getCodeReviewers draw k r author = review.Panic message)
  /\ (fst (review.getCodeReviewerSets r author) <> [] ->
      snd (review.getCodeReviewerSets r author) <> [] ->
      (forall j n : nat, 0 < n -> draw j n < n) ->
      exists reviewers : list string,
        review.getCodeReviewers draw k r author = review.Done reviewers).
Proof. apply getCodeReviewers_cases. Qed.

Lemma code_reviewers_one_of_each_set_witness :
  exists reviewers : list string,
    review.getCodeReviewers (fun _ n => n - 1) 0
      {| review.c :=
           {| review.CodeReviewers := []; review.CodeReviewersOmit := [];
              review.DocsReviewers := []; review.DocsReviewersOmit := [];
              review.Admins := ["bob"; "carol"; "dave"] |};
         review.leaveRequests := [] |}
      "alice"
    = review.Done reviewers.
Proof.
  refine (proj2 (proj2 (code_reviewers_one_of_each_set (fun _ n => n - 1) 0
                          {| review.c :=
                               {| review.CodeReviewers := [];
                                  review.CodeReviewersOmit := [];
                                  review.DocsReviewers := [];
                                  review.DocsReviewersOmit := [];
                                  review.Admins := ["bob"; "carol"; "dave"] |};
                             review.leaveRequests := [] |}
                          "alice"))
            _ _ _).
  - discriminate.
  - discriminate.
  - intros j n Hn. lia.
Defined.

(** [Get] never assigns a pull request to its author, whatever the
    changes are and whatever the generator draws. *)
Theorem author_is_never_assigned (draw : review.Rand) (r : review.Assignments)
    (author : string) (docs code : bool) (reviewers : list string) :
  snd (review.Get draw r author docs code) = review.Done reviewers ->
  ~ In author reviewers.
Proof.
  destruct (getCodeReviewers_cases draw 0 r author) as (Hcode & _).
  destruct (not_In_author_codeSets r author) as (HA & HB).
  assert (Hc : forall l, review.getCodeReviewers draw 0 r author = review.Done l ->
                         ~ In author l).
  { intros l Hl. destruct (Hcode l Hl) as (a & b & -> & Ha & Hb).
    intros [<- | [<- | []]]; tauto. }
  unfold review.Get. destruct docs, code; cbn [snd].
  - destruct (review.getCodeReviewers draw 0 r author) as [l |]; [ | discriminate ].
    intros [= <-]. rewrite in_app_iff.
    pose proof (not_In_author_docs r author). specialize (Hc l eq_refl). tauto.
  - intros [= <-]. apply not_In_author_docs.
  - apply Hc.
  - intros [= <-]. apply not_In_author_admins.
Qed.

Lemma author_is_never_assigned_witness :
  ~ In "alice"
      (review.getAdminReviewers
         {| review.c :=
              {| review.CodeReviewers := []; review.CodeReviewersOmit := [];
                 review.DocsReviewers := []; review.DocsReviewersOmit := [];
                 review.Admins := ["alice"; "bob"; "carol"] |};
            review.leaveRequests := [] |}
         "alice").
Proof.
  exact (author_is_never_assigned (fun _ _ => 0)
           {| review.c :=
                {| review.CodeReviewers := []; review.CodeReviewersOmit := [];
                   review.DocsReviewers := []; review.DocsReviewersOmit := [];
                   review.Admins := ["alice"; "bob"; "carol"] |};
              review.leaveRequests := [] |}
           "alice" false false
           (review.getAdminReviewers
              {| review.c :=
                   {| review.CodeReviewers := []; review.CodeReviewersOmit := [];
                      review.DocsReviewers := []; review.DocsReviewersOmit := [];
                      review.Admins := ["alice"; "bob"; "carol"] |};
                 review.leaveRequests := [] |}
              "alice")
           eq_refl).
Defined.

(** For an author who is not among the code reviewers, a code change
    cannot be assigned when fewer than two admins other than the author
    are configured: the first half of the admins is empty and [Get]
    panics in [Intn]. *)
Theorem code_assignment_needs_two_admins (draw : review.Rand)
    (r : review.Assignments) (author : string) (docs : bool) :
  review.findAuthor (review.CodeReviewers (review.c r)) author = None ->
  List.length (review.getAdminReviewers r author) < 2 ->
  snd (review.Get draw r author docs true)
  = review.Panic "invalid argument to Intn".
Proof.
  intros Hext Hfew.
  assert (Hcode : review.getCodeReviewers draw 0 r author
                  = review.Panic "invalid argument to Intn").
  { unfold review.getCodeReviewers, review.getCodeReviewerSets. rewrite Hext.
    destruct (review.getAdminReviewers r author) as [| a [| b l]];
      cbn [List.length] in *; [ reflexivity | reflexivity | lia ]. }
  unfold review.Get. destruct docs; cbn [snd]; now rewrite Hcode.
Qed.

Lemma code_assignment_needs_two_admins_witness :
  snd (review.Get (fun _ _ => 0)
         {| review.c :=
              {| review.CodeReviewers := []; review.CodeReviewersOmit := [];
                 review.DocsReviewers := []; review.DocsReviewersOmit := [];
                 review.Admins := ["alice"; "bob"] |};
            review.leaveRequests := [] |}
         "alice" false true)
  = review.Panic "invalid argument to Intn".
Proof.
  exact (code_assignment_needs_two_admins (fun _ _ => 0)
           {| review.c :=
                {| review.CodeReviewers := []; review.CodeReviewersOmit := [];
                   review.DocsReviewers := []; review.DocsReviewersOmit := [];
                   review.Admins := ["alice"; "bob"] |};
              review.leaveRequests := [] |}
           "alice" false eq_refl ltac:(cbn; lia)).
Defined.

(** ** The approval checks *)

Lemma checkN_approves (reviewers : list string) (reviews : review.Reviews) :
  review.checkN reviewers reviews
  = List.length (filter (review.approves reviews) reviewers).
Proof.
  induction reviewers as [| u reviewers IH]; [ reflexivity | ].
  cbn [review.checkN filter]. unfold review.approves at 1.
  destruct (reviews u) as [rv |]; [ | exact IH ].
  destruct (String.eqb (review.State rv) review.approved
            && String.eqb (review.Author rv) u);
    cbn [List.length]; now rewrite IH.
Qed.



Lemma checkN_positive (reviewers : list string) (reviews : review.Reviews) :
  0 < review.checkN reviewers reviews
  <-> exists u : string, In u reviewers /\ review.approves reviews u = true.
Proof.
  rewrite checkN_approves. split.
  - destruct (filter (review.approves reviews) reviewers) as [| u l] eqn:Hf;
      [ cbn; lia | ].
    intros _. exists u. apply filter_In. rewrite Hf. now left.
  - intros (u & Hin & Hu).
    assert (Hf : In u (filter (review.approves reviews) reviewers))
      by (apply filter_In; now split).
    destruct (filter (review.approves reviews) reviewers);
      [ contradiction | cbn; lia ].
Qed.





(** The approval of one admin other than the author passes
    [CheckInternal], whatever the changes are and whatever the other
    reviews say. *)
Theorem admin_approval_bypasses_checks (r : review.Assignments)
    (author admin : string) (reviews : review.Reviews) (docs code : bool) :
  In admin (review.Admins (review.c r)) ->
  admin <> author ->
  review.approves reviews admin = true ->
  review.CheckInternal r author reviews docs code
  = ([("Check: Found internal author " ++ author ++ ".")%string], None).
Proof.
  intros Hin Hne Happ.
  assert (Hpos : 0 < review.checkN (review.getAdminReviewers r author) reviews).
  { apply checkN_positive. exists admin. split; [ | exact Happ ].
    apply In_getAdminReviewers. now split. }
  unfold review.CheckInternal, review.check.
  apply Nat.ltb_lt in Hpos. now rewrite Hpos.
Qed.

Lemma admin_approval_bypasses_checks_witness :
  review.CheckInternal
    {| review.c :=
         {| review.CodeReviewers := []; review.CodeReviewersOmit := [];
            review.DocsReviewers := []; review.DocsReviewersOmit := [];
            review.Admins := ["bob"] |};
       review.leaveRequests := [] |}
    "alice"
    (fun u => Some {| review.Author := u; review.State := "APPROVED" |})
    true true
  = (["Check: Found internal author alice."], None).
Proof.
  exact (admin_approval_bypasses_checks
           {| review.c :=
                {| review.CodeReviewers := []; review.CodeReviewersOmit := [];
                   review.DocsReviewers := []; review.DocsReviewersOmit := [];
                   review.Admins := ["bob"] |};
              review.leaveRequests := [] |}
           "alice" "bob"
           (fun u => Some {| review.Author := u; review.State := "APPROVED" |})
           true true
           (or_introl eq_refl) ltac:(discriminate) eq_refl).
Defined.

(** A code change by an internal author passes [CheckInternal] only
    with the approval of someone other than the author who is an admin
    or a code owner: approvals by reviewers who are not owners are never
    enough. *)
Theorem code_change_needs_owner_or_admin (r : review.Assignments)
    (author : string) (reviews : review.Reviews) (docs : bool) :
  snd (review.CheckInternal r author reviews docs true) = None ->
  exists u : string,
    u <> author
    /\ review.approves reviews u = true
    /\ (In u (review.Admins (review.c r))
        \/ exists v : review.Reviewer,
             In v (review.CodeReviewers (review.c r))
             /\ review.GithubUsername v = u
             /\ review.Owner v = true).
Proof.
  assert (Hcode : review.checkCodeReviews r author reviews = None ->
                  exists u : string,
                    u <> author
                    /\ review.approves reviews u = true
                    /\ exists v : review.Reviewer,
                         In v (review.CodeReviewers (review.c r))
                         /\ review.GithubUsername v = u
                         /\ review.Owner v = true).
  { unfold review.checkCodeReviews, review.check.
    destruct (review.findAuthor _ author) as [rev |]; [ | discriminate ].
    pose proof (fun u =>
                  In_getReviewerSets author
                    (if String.eqb (review.Team rev) "Internal" then "Core"
                     else review.Team rev)
                    (review.CodeReviewers (review.c r))
                    (review.CodeReviewersOmit (review.c r)) [] u true) as Hmem.
    destruct (review.getReviewerSets author _ _ _ _) as [setA setB].
    cbn [fst] in Hmem. intros Hpass.
    assert (HA : 0 < review.checkN setA reviews).
    { destruct (Nat.leb 2 (review.checkN setA reviews)) eqn:H2.
      - apply Nat.leb_le in H2. lia.
      - destruct (Nat.ltb 0 (review.checkN setA reviews)) eqn:H0;
          [ now apply Nat.ltb_lt in H0 | discriminate ]. }
    apply checkN_positive in HA as (u & Hin & Hu).
    apply Hmem in Hin as (v & Hv & Hname & _ & Ho & _ & Hne).
    exists u. split; [ exact Hne | split; [ exact Hu | ] ].
    exists v. tauto. }
  unfold review.CheckInternal, review.check.
  destruct (Nat.ltb 0 (review.checkN (review.getAdminReviewers r author) reviews))
    eqn:Hadm.
  - intros _. apply Nat.ltb_lt in Hadm.
    apply checkN_positive in Hadm as (u & Hin & Hu).
    apply In_getAdminReviewers in Hin as (Hin & Hne).
    exists u. tauto.
  - destruct docs; cbn [snd]; intros Hpass.
    + destruct (review.checkDocsReviews r author reviews); [ discriminate | ].
      destruct (Hcode Hpass) as (u & Hne & Hu & Hv). exists u. tauto.
    + destruct (Hcode Hpass) as (u & Hne & Hu & Hv). exists u. tauto.
Qed.

Lemma code_change_needs_owner_or_admin_witness :
  exists u : string,
    u <> "alice"
    /\ review.approves
         (fun u => Some {| review.Author := u; review.State := "APPROVED" |}) u
       = true.
Proof.
  destruct (code_change_needs_owner_or_admin
              {| review.c :=
                   {| review.CodeReviewers :=
                        [ {| review.Team := "Core"; review.Owner := false;
                             review.GithubUsername := "alice" |};
                          {| review.Team := "Core"; review.Owner := true;
                             review.GithubUsername := "bob" |};
                          {| review.Team := "Core"; review.Owner := false;
                             review.GithubUsername := "carol" |} ];
                      review.CodeReviewersOmit := [];
                      review.DocsReviewers := []; review.DocsReviewersOmit := [];
                      review.Admins := [] |};
                 review.leaveRequests := [] |}
              "alice"
              (fun u => Some {| review.Author := u; review.State := "APPROVED" |})
              false eq_refl)
    as (u & Hne & Hu & _).
  exists u. split; [ exact Hne | exact Hu ].
Defined.

(** ** Leave requests *)

Lemma nsPerDay_pos : (0 < review.nsPerDay)%Z.
Proof. reflexivity. Qed.

Lemma daysFrom_after (start end_ : time.Time) :
  review.After start end_ = true ->
  Z.to_nat ((end_ - start) / review.nsPerDay + 1)%Z = 0.
Proof.
  unfold review.After. intros H. apply Z.ltb_lt in H.
  assert ((end_ - start) / review.nsPerDay < 0)%Z
    by (apply Z.div_lt_upper_bound; [ apply nsPerDay_pos | lia ]).
  lia.
Qed.

Lemma daysFrom_not_after (start end_ : time.Time) :
  review.After start end_ = false ->
  Z.to_nat ((end_ - start) / review.nsPerDay + 1)%Z
  = S (Z.to_nat ((end_ - review.AddDate start 1) / review.nsPerDay + 1)%Z).
Proof.
  unfold review.After, review.AddDate. intros H. apply Z.ltb_ge in H.
  assert (H0 : (0 <= (end_ - start) / review.nsPerDay)%Z)
    by (apply Z.div_pos; [ lia | apply nsPerDay_pos ]).
  replace (end_ - (start + 1 * review.nsPerDay))%Z
    with ((end_ - start) + (-1) * review.nsPerDay)%Z by lia.
  rewrite Z.div_add by (pose proof nsPerDay_pos; lia).
  lia.
Qed.

(** The loop of [businessDaysCount] ends within the days of the leave,
    having counted each of them once and the Saturdays and Sundays among
    them. *)
Lemma businessDaysCount_loop_counts (end_ : time.Time) :
  forall (n : nat) (start : time.Time) (totalDays weekendDays : Z),
    n = Z.to_nat ((end_ - start) / review.nsPerDay + 1)%Z ->
    review.businessDaysCount_loop n start end_ totalDays weekendDays
    = Some ((totalDays + Z.of_nat n)%Z,
            (weekendDays
             + Z.of_nat
                 (List.length
                    (filter (fun t => negb (review.businessDay t))
                       (map (fun k => review.AddDate start (Z.of_nat k))
                          (seq 0 n)))))%Z).
Proof.
  induction n as [| n IH]; intros start totalDays weekendDays Hn.
  - cbn [review.businessDaysCount_loop seq map filter List.length].
    destruct (review.After start end_) eqn:Hafter.
    + now rewrite !Z.add_0_r.
    + rewrite (daysFrom_not_after _ _ Hafter) in Hn. discriminate.
  - cbn [review.businessDaysCount_loop].
    destruct (review.After start end_) eqn:Hafter.
    + rewrite (daysFrom_after _ _ Hafter) in Hn. discriminate.
    + rewrite (daysFrom_not_after _ _ Hafter) in Hn. injection Hn as Hn.
      rewrite (IH _ _ _ Hn). f_equal.
      assert (Hshift : map (fun k => review.AddDate start (Z.of_nat k)) (seq 1 n)
                       = map (fun k => review.AddDate (review.AddDate start 1)
                                         (Z.of_nat k)) (seq 0 n)).
      { rewrite <- seq_shift, map_map. apply map_ext. intros k.
        unfold review.AddDate. lia. }
      cbn [seq map filter]. rewrite Hshift.
      replace (review.AddDate start (Z.of_nat 0)) with start
        by (unfold review.AddDate; cbn; lia).
      unfold review.businessDay at 2. rewrite negb_involutive.
      destruct (Z.eqb (review.Weekday start) review.Saturday
                || Z.eqb (review.Weekday start) review.Sunday);
        cbn [List.length]; f_equal; lia.
Qed.

Lemma filter_split_length (A : Type) (f : A -> bool) (l : list A) :
  List.length (filter f l) + List.length (filter (fun a => negb (f a)) l)
  = List.length l.
Proof.
  induction l as [| a l IH]; [ reflexivity | ].
  cbn [filter]. destruct (f a); cbn [negb List.length]; lia.
Qed.

Lemma businessDaysCount_spec (req : review.EmployeeLeaveRequest) :
  review.businessDaysCount req
  = Some (Z.of_nat (List.length (filter review.businessDay (review.leaveDays req))))
  /\ (review.After (review.StartDate req) (review.EndDate req) = true ->
      review.businessDaysCount req = Some 0%Z).
Proof.
  assert (Hcount : review.businessDaysCount req
                   = Some (Z.of_nat (List.length (filter review.businessDay
                                                    (review.leaveDays req))))).
  { unfold review.businessDaysCount, review.leaveDays.
    rewrite (businessDaysCount_loop_counts (review.EndDate req)
               (review.daysOfLeave req) (review.StartDate req) 0 0 eq_refl).
    f_equal.
    pose proof (filter_split_length _ review.businessDay
                  (map (fun k => review.AddDate (review.StartDate req) (Z.of_nat k))
                     (seq 0 (review.daysOfLeave req)))) as Hsplit.
    rewrite length_map, length_seq in Hsplit. lia. }
  split; [ exact Hcount | ].
  intros Hafter. rewrite Hcount. unfold review.leaveDays, review.daysOfLeave.
  now rewrite (daysFrom_after _ _ Hafter).
Qed.

(** [businessDaysCount] always returns, and what it returns is the
    number of days of the leave (the start date and each day after it
    that is not after the end date) that fall on neither a Saturday nor
    a Sunday; a leave that ends before it starts has none. *)
Theorem businessDaysCount_counts_weekdays (req : review.EmployeeLeaveRequest) :
  review.businessDaysCount req
  = Some (Z.of_nat (List.length (filter review.businessDay (review.leaveDays req))))
  /\ (review.After (review.StartDate req) (review.EndDate req) = true ->
      review.businessDaysCount req = Some 0%Z).
Proof. apply businessDaysCount_spec. Qed.

(** 2022-03-07 was a Monday: a leave from that day to Sunday the 13th
    has five business days. *)
Example businessDaysCount_of_a_week :
  review.businessDaysCount
    {| review.FullName := "Alice";
       review.StartDate := (19058 * review.nsPerDay)%Z;
       review.EndDate := (19064 * review.nsPerDay)%Z |}
  = Some 5%Z.
Proof. reflexivity. Qed.

(** [shouldOmit] always returns.  It omits nobody whose leave has at
    most two business days.  For a longer leave, it omits the employee
    at every time later than three days before the start and earlier
    than two days after the end, and at no time outside the span from
    five days before the start to four days after the end. *)
Theorem leave_omit_window (date : time.Time) (req : review.EmployeeLeaveRequest) :
  exists (days : Z) (omit : bool),
    review.businessDaysCount req = Some days
    /\ review.shouldOmit date req = Some omit
    /\ ((days <= 2)%Z -> omit = false)
    /\ ((2 < days)%Z ->
        (review.AddDate (review.StartDate req) (-3) < date)%Z ->
        (date < review.AddDate (review.EndDate req) 2)%Z ->
        omit = true)
    /\ (omit = true ->
        (2 < days)%Z
        /\ (review.AddDate (review.StartDate req) (-5) < date)%Z
        /\ (date < review.AddDate (review.EndDate req) 4)%Z).
Proof.
  destruct (businessDaysCount_spec req) as (Hcount & _).
  unfold review.shouldOmit. rewrite Hcount.
  set (days := Z.of_nat _).
  exists days. unfold review.After, time.Before, review.AddDate.
  pose proof nsPerDay_pos as Hday.
  destruct (days <=? 2)%Z eqn:Hshort.
  - apply Z.leb_le in Hshort. exists false.
    repeat split; try reflexivity; try discriminate; lia.
  - apply Z.leb_gt in Hshort. eexists. split; [ reflexivity | ].
    split; [ reflexivity | ].
    destruct (Z.eqb (review.Weekday (review.StartDate req)) review.Monday
              || Z.eqb (review.Weekday (review.StartDate req)) review.Tuesday);
      destruct (Z.eqb (review.Weekday (review.EndDate req)) review.Friday);
      (split; [ lia | ]);
      (split;
       [ intros _ Hlo Hhi; apply andb_true_iff; split;
         apply Z.ltb_lt; lia
       | intros Homit; apply andb_true_iff in Homit as (Hlo & Hhi);
         apply Z.ltb_lt in Hlo, Hhi; lia ]).
Qed.

Lemma leave_omit_window_witness :
  review.shouldOmit (19057 * review.nsPerDay)%Z
    {| review.FullName := "Alice";
       review.StartDate := (19058 * review.nsPerDay)%Z;
       review.EndDate := (19064 * review.nsPerDay)%Z |}
  = Some true.
Proof.
  destruct (leave_omit_window (19057 * review.nsPerDay)%Z
              {| review.FullName := "Alice";
                 review.StartDate := (19058 * review.nsPerDay)%Z;
                 review.EndDate := (19064 * review.nsPerDay)%Z |})
    as (days & omit & Hdays & Homit & _ & Hin & _).
  injection Hdays as <-.
  rewrite Homit, (Hin eq_refl eq_refl eq_refl). reflexivity.
Defined.
